(** * smeterd: telegram framing and field extraction

    A shallow embedding of [smeterd/meter.py]: the regular-expression
    search the field rules rely on ([re.search] with [re.MULTILINE]),
    the [P1Packet] constructor with its [get], [get_int] and [get_float]
    helpers, and the line loop of [SmartMeter.read_one_packet]. *)

From Stdlib Require Import Ascii String List ZArith Bool Arith Lia.
From Stdlib Require Import Floats.SpecFloat.
Import ListNotations.

Set Implicit Arguments.

(** ** Text

    A Python [str] is modelled as a list of characters.  The serial line
    is opened with seven data bits, so the characters of a telegram are
    ASCII; [ascii] covers them. *)

Definition str := list ascii.

Definition T (s : string) : str := list_ascii_of_string s.
Arguments T s%_string.

Definition nl : ascii := "010"%char.

Definition str_eqb (a b : str) : bool :=
  if list_eq_dec ascii_dec a b then true else false.

(** [s.startswith(p)] *)
Fixpoint startswith (p s : str) : bool :=
  match p, s with
  | [], _ => true
  | _ :: _, [] => false
  | a :: p', b :: s' => Ascii.eqb a b && startswith p' s'
  end.

(** [s.endswith(p)] *)
Definition endswith (p s : str) : bool :=
  startswith (rev p) (rev s).

(** [sep.join(parts)] *)
Fixpoint join (sep : str) (parts : list str) : str :=
  match parts with
  | [] => []
  | [p] => p
  | p :: rest => p ++ sep ++ join sep rest
  end.

(** [s.split('\n')]: the lines of a text; never empty. *)
Fixpoint split_nl (s : str) : list str :=
  match s with
  | [] => [[]]
  | c :: s' =>
      if Ascii.eqb c nl then [] :: split_nl s'
      else match split_nl s' with
           | l :: ls => (c :: l) :: ls
           | [] => [[c]]
           end
  end.

(** ** Regular expressions

    The fragment of Python's [re] syntax the field rules use.  Matching
    follows the backtracking order of [re]: alternatives are tried in
    priority order (greedy repetition first), and the first complete
    match wins.  [run] lists every way a pattern can match from a
    position, in that order, so the head of the list is the match Python
    reports. *)

Module Re.

(** One-character sets. *)
Inductive charset : Type :=
| Lit (c : ascii)        (* a literal character, escaped or not *)
| Digit                  (* [0-9] and \d *)
| Dot                    (* .  : anything but a newline *)
| NotLit (c : ascii).    (* [^c] *)

Definition is_digit (c : ascii) : bool :=
  (48 <=? nat_of_ascii c) && (nat_of_ascii c <=? 57).

Definition in_set (cs : charset) (c : ascii) : bool :=
  match cs with
  | Lit a => Ascii.eqb a c
  | Digit => is_digit c
  | Dot => negb (Ascii.eqb c nl)
  | NotLit a => negb (Ascii.eqb a c)
  end.

Inductive re : Type :=
| Bol                    (* ^ under re.MULTILINE *)
| Eol                    (* $ under re.MULTILINE *)
| Chr (cs : charset)     (* one character of a set *)
| Eps                    (* the empty pattern *)
| Seq (r1 r2 : re)       (* r1 r2 *)
| Opt (r : re)           (* r?  greedy *)
| Star (r : re)          (* r*  greedy *)
| Plus (r : re)          (* r+  greedy *)
| Rep (n : nat) (r : re) (* r{n} *)
| Grp (r : re)           (* ( r ) : capturing group 1 *)
| NGrp (r : re).         (* (?: r ) *)

(** A run of literal characters. *)
Fixpoint Str (s : str) : re :=
  match s with
  | [] => Eps
  | c :: s' => Seq (Chr (Lit c)) (Str s')
  end.

(** A position in the subject: whether it is at the beginning of a
    line (start of the text or just after a newline) and what is left
    to read. *)
Record pos : Type := Pos { bol : bool; rest : str }.

(** Group 1, when it has taken part in the match. *)
Definition cap := option str.

Definition at_eol (p : pos) : bool :=
  match rest p with
  | [] => true
  | c :: _ => Ascii.eqb c nl
  end.

(** The text read between position [p] and a later position [q]. *)
Definition taken (p q : pos) : str :=
  firstn (length (rest p) - length (rest q)) (rest p).

Definition progress (p q : pos) : bool :=
  length (rest q) <? length (rest p).

Section Loops.
Variable body : pos -> cap -> list (pos * cap).

(** One or more rounds of [body], longest first.  A round that reads
    nothing ends the repetition, as in [re]; [fuel] bounds the
    rounds by the length of what is left. *)
Fixpoint plus_loop (fuel : nat) (p : pos) (g : cap) : list (pos * cap) :=
  flat_map
    (fun '(q, g') =>
       (if progress p q
        then match fuel with
             | S fuel' => plus_loop fuel' q g'
             | O => []
             end
        else [])
       ++ [(q, g')])
    (body p g).

Fixpoint rep_loop (n : nat) (p : pos) (g : cap) : list (pos * cap) :=
  match n with
  | O => [(p, g)]
  | S n' => flat_map (fun '(q, g') => rep_loop n' q g') (body p g)
  end.
End Loops.

Fixpoint run (r : re) (p : pos) (g : cap) : list (pos * cap) :=
  match r with
  | Bol => if bol p then [(p, g)] else []
  | Eol => if at_eol p then [(p, g)] else []
  | Chr cs =>
      match rest p with
      | c :: s' => if in_set cs c then [(Pos (Ascii.eqb c nl) s', g)] else []
      | [] => []
      end
  | Eps => [(p, g)]
  | Seq r1 r2 => flat_map (fun '(q, g') => run r2 q g') (run r1 p g)
  | Opt r1 => run r1 p g ++ [(p, g)]
  | Star r1 => plus_loop (run r1) (length (rest p)) p g ++ [(p, g)]
  | Plus r1 => plus_loop (run r1) (length (rest p)) p g
  | Rep n r1 => rep_loop (run r1) n p g
  | Grp r1 => map (fun '(q, _) => (q, Some (taken p q))) (run r1 p g)
  | NGrp r1 => run r1 p g
  end.

(** [re.search(r, s, re.MULTILINE)]: the first position, scanning from
    the left, at which the pattern matches; the result is group 1 of
    that match. *)
Fixpoint search_from (r : re) (b : bool) (s : str) : option cap :=
  match run r (Pos b s) None with
  | (_, g) :: _ => Some g
  | [] =>
      match s with
      | [] => None
      | c :: s' => search_from r (Ascii.eqb c nl) s'
      end
  end.

Definition search (r : re) (s : str) : option cap := search_from r true s.

End Re.

Import Re.

Declare Scope re_scope.
Delimit Scope re_scope with re.
Bind Scope re_scope with re.
Infix ";;" := Seq (at level 61, right associativity) : re_scope.

(** ** Python values

    The leaves of the record are [None], an [int], a [float] or a [str].
    A [float] is an IEEE-754 binary64 number. *)

Inductive pyval : Type :=
| PyNone
| PyInt (z : Z)
| PyFloat (f : spec_float)
| PyStr (s : str).

(** What [SmartMeterError] is raised with in [read_one_packet]. *)
Inductive meter_fault : Type :=
| ReadFault               (* the exception caught around the line read *)
| StuckInLoop (n : nat).  (* 'Received %d lines, we seem to be stuck in a loop, quitting.' *)

Inductive exn : Type :=
| ValueError
| TypeError
| SmartMeterError (why : meter_fault).

Inductive result (A : Type) : Type :=
| Ok (a : A)
| Raise (e : exn).
Arguments Ok {A} a.
Arguments Raise {A} e.

Definition bind {A B : Type} (m : result A) (k : A -> result B) : result B :=
  match m with
  | Ok a => k a
  | Raise e => Raise e
  end.

Notation "'let*' x ':=' m 'in' k" := (bind m (fun x => k))
  (at level 10, x name, m at level 100, k at level 200).

(** Truth value of an object, as [not] and [if] test it. *)
Definition truthy (v : pyval) : bool :=
  match v with
  | PyNone => false
  | PyInt z => negb (Z.eqb z 0)
  | PyFloat f => negb (SFeqb f (S754_zero false))
  | PyStr s => match s with [] => false | _ :: _ => true end
  end.

Definition digit_val (c : ascii) : N := N.of_nat (nat_of_ascii c - 48).

Fixpoint digits_val (acc : N) (s : str) : N :=
  match s with
  | [] => acc
  | c :: s' => digits_val (acc * 10 + digit_val c) s'
  end.

Definition all_digits (s : str) : bool := forallb is_digit s.

(** [sys.int_max_str_digits], at its default: the most digits [int]
    converts from a [str]. *)
Definition int_max_str_digits : nat := 4300.

(** [int(v)].  On a [str] it reads a non-empty run of decimal digits,
    which is what the integer rules capture; Python accepts a few more
    spellings (sign, surrounding blanks, underscores), which no rule can
    capture and which are counted as [ValueError] here.  Integers are
    unbounded, but [int] refuses a string of more than
    [int_max_str_digits] digits, leading zeros counted, with
    [ValueError]. *)
Definition py_int (v : pyval) : result pyval :=
  match v with
  | PyStr s =>
      match s with
      | [] => Raise ValueError
      | _ :: _ =>
          if all_digits s
          then if int_max_str_digits <? length s then Raise ValueError
               else Ok (PyInt (Z.of_N (digits_val 0 s)))
          else Raise ValueError
      end
  | PyInt z => Ok (PyInt z)
  | PyFloat _ => Raise ValueError
  | PyNone => Raise TypeError
  end.

Fixpoint pow10 (k : nat) : positive :=
  match k with
  | O => 1%positive
  | S k' => (10 * pow10 k')%positive
  end.

(** The binary64 number nearest to [m / 10^k] (ties to even): what
    Python's correctly rounded [float] yields for the decimal numeral
    with digits [m] and [k] digits after the point. *)
Definition dec_to_float (m : N) (k : nat) : spec_float :=
  match m with
  | N0 => S754_zero false
  | Npos p =>
      SFdiv 53 1024 (S754_finite false p 0) (S754_finite false (pow10 k) 0)
  end.

(** Splits a numeral at its decimal point. *)
Fixpoint split_point (s : str) : str * option str :=
  match s with
  | [] => ([], None)
  | c :: s' =>
      if Ascii.eqb c "." then ([], Some s')
      else let '(a, b) := split_point s' in (c :: a, b)
  end.

Definition float_of_str (s : str) : result pyval :=
  let '(ip, fp) := split_point s in
  let fp := match fp with Some f => f | None => [] end in
  match ip ++ fp with
  | [] => Raise ValueError
  | _ :: _ =>
      if all_digits ip && all_digits fp
      then Ok (PyFloat (dec_to_float (digits_val 0 (ip ++ fp)) (length fp)))
      else Raise ValueError
  end.

(** [float(v)].  On a [str] it reads an unsigned decimal numeral; the
    other spellings Python accepts (sign, exponent, [inf], [nan], blanks)
    cannot be captured by a rule and are counted as [ValueError]. *)
Definition py_float (v : pyval) : result pyval :=
  match v with
  | PyStr s => float_of_str s
  | PyInt z => Ok (PyFloat (binary_normalize 53 1024 z 0 false))
  | PyFloat f => Ok (PyFloat f)
  | PyNone => Raise TypeError
  end.


(** ** The field rules of [P1Packet.__init__]

    Each pattern is the source's regular expression, token by token.  In
    a text of ASCII characters [\d] and [[0-9]] are the same set. *)

Module Rules.
Local Open Scope re_scope.
Local Open Scope string_scope.

Definition D : re := Chr Digit.

(* r"^(/.* )$", without the blank *)
Definition header := Bol ;; Grp (Chr (Lit "/") ;; Star (Chr Dot)) ;; Eol.
(* r"^0-0:96\.1\.1\(([^)]+)\)$" *)
Definition kwh_eid :=
  Bol ;; Str (T "0-0:96.1.1(") ;; Grp (Plus (Chr (NotLit ")"))) ;; Str (T ")") ;; Eol.
(* r"^0-0:96\.14\.0\(([0-9]+)\)$" *)
Definition kwh_tariff :=
  Bol ;; Str (T "0-0:96.14.0(") ;; Grp (Plus D) ;; Str (T ")") ;; Eol.
(* r"^0-0:96\.3\.10\((\d)\)$" *)
Definition kwh_switch :=
  Bol ;; Str (T "0-0:96.3.10(") ;; Grp D ;; Str (T ")") ;; Eol.
(* r"^0-0:17\.0\.0\(([0-9]{4}\.[0-9]{2})\*kW\)$" *)
Definition kwh_treshold :=
  Bol ;; Str (T "0-0:17.0.0(") ;; Grp (Rep 4 D ;; Chr (Lit ".") ;; Rep 2 D)
      ;; Str (T "*kW)") ;; Eol.

(** The rules of the form r"^<address>\(([0-9]+\.[0-9]+)\*<unit>\)$". *)
Definition reading (address unit : string) :=
  Bol ;; Str (T address) ;; Str (T "(") ;; Grp (Plus D ;; Chr (Lit ".") ;; Plus D)
      ;; Str (T "*") ;; Str (T unit) ;; Str (T ")") ;; Eol.

(* r"^1-0:1\.8\.1\(([0-9]+\.[0-9]+)\*kWh\)$" *)
Definition kwh_low_consumed := reading "1-0:1.8.1" "kWh".
(* r"^1-0:2\.8\.1\(([0-9]+\.[0-9]+)\*kWh\)$" *)
Definition kwh_low_produced := reading "1-0:2.8.1" "kWh".
(* r"^1-0:1\.8\.2\(([0-9]+\.[0-9]+)\*kWh\)$" *)
Definition kwh_high_consumed := reading "1-0:1.8.2" "kWh".
(* r"^1-0:2\.8\.2\(([0-9]+\.[0-9]+)\*kWh\)$" *)
Definition kwh_high_produced := reading "1-0:2.8.2" "kWh".
(* r"^1-0:1\.7\.0\(([0-9]+\.[0-9]+)\*kW\)$" *)
Definition kwh_current_consumed := reading "1-0:1.7.0" "kW".
(* r"^1-0:2\.7\.0\(([0-9]+\.[0-9]+)\*kW\)$" *)
Definition kwh_current_produced := reading "1-0:2.7.0" "kW".

(* r"^0-1:96\.1\.0\(([^)]+)\)$" *)
Definition gas_eid :=
  Bol ;; Str (T "0-1:96.1.0(") ;; Grp (Plus (Chr (NotLit ")"))) ;; Str (T ")") ;; Eol.
(* r"^0-1:24\.1\.0\((\d)+\)$" *)
Definition gas_device_type :=
  Bol ;; Str (T "0-1:24.1.0(") ;; Plus (Grp D) ;; Str (T ")") ;; Eol.
(* r"^(?:0-1:24\.2\.1(?:\(\d+S\))?)?\(([0-9]{5}\.[0-9]{3})(?:\*m3)?\)$" *)
Definition gas_total :=
  Bol ;; Opt (NGrp (Str (T "0-1:24.2.1")
                    ;; Opt (NGrp (Str (T "(") ;; Plus D ;; Str (T "S)")))))
      ;; Str (T "(") ;; Grp (Rep 5 D ;; Chr (Lit ".") ;; Rep 3 D)
      ;; Opt (NGrp (Str (T "*m3"))) ;; Str (T ")") ;; Eol.
(* r"^0-1:24\.4\.0\((\d)\)$" *)
Definition gas_valve :=
  Bol ;; Str (T "0-1:24.4.0(") ;; Grp D ;; Str (T ")") ;; Eol.

(* r"^0-0:96\.13\.1\((\d+)\)$" *)
Definition msg_code :=
  Bol ;; Str (T "0-0:96.13.1(") ;; Grp (Plus D) ;; Str (T ")") ;; Eol.
(* r"^0-0:96\.13\.0\((.+)\)$" *)
Definition msg_text :=
  Bol ;; Str (T "0-0:96.13.0(") ;; Grp (Plus (Chr Dot)) ;; Str (T ")") ;; Eol.
End Rules.

(** ** [P1Packet] *)

(** [keys['kwh']['low']] and [keys['kwh']['high']] *)
Record tariff_keys : Type := {
  consumed : pyval;
  produced : pyval
}.

(** [keys['kwh']] *)
Record kwh_keys : Type := {
  kwh_eid : pyval;
  tariff : pyval;
  switch : pyval;
  treshold : pyval;
  low : tariff_keys;
  high : tariff_keys;
  current_consumed : pyval;
  current_produced : pyval
}.

(** [keys['gas']] *)
Record gas_keys : Type := {
  gas_eid : pyval;
  device_type : pyval;
  total : pyval;
  valve : pyval
}.

(** [keys['msg']] *)
Record msg_keys : Type := {
  code : pyval;
  text : pyval
}.

Record keys : Type := {
  header : pyval;
  kwh : kwh_keys;
  gas : gas_keys;
  msg : msg_keys
}.

(** The attributes of the class object: [_raw = ''] in the class body. *)
Record P1Packet_class : Type := { cls_raw : str }.

Definition P1Packet_class0 : P1Packet_class := {| cls_raw := [] |}.

(** The attributes of an instance.  [_raw] is absent until [__init__]
    assigns it; reading [self._raw] then falls back on the class. *)
Record P1Packet : Type := {
  self_raw : option str;
  self_keys : option keys
}.

Definition attr_raw (cls : P1Packet_class) (self : P1Packet) : str :=
  match self_raw self with
  | Some r => r
  | None => cls_raw cls
  end.

(** The argument of the constructor: a [list] of lines or a [str]. *)
Inductive pydata : Type :=
| DList (l : list str)
| DStr (s : str).

Section Methods.
Variable cls : P1Packet_class.
Variable self : P1Packet.

(** [get(self, regex, default=None)] *)
Definition get (regex : re) (default : pyval) : pyval :=
  match search regex (attr_raw cls self) with
  | None => default
  | Some g => match g with Some s => PyStr s | None => PyNone end
  end.

(** [get_float(self, regex, default=None)] *)
Definition get_float (regex : re) (default : pyval) : result pyval :=
  let result := get regex PyNone in
  if negb (truthy result) then Ok default
  else py_float (get regex default).

(** [get_int(self, regex, default=None)] *)
Definition get_int (regex : re) (default : pyval) : result pyval :=
  let result := get regex PyNone in
  if negb (truthy result) then Ok default
  else py_int result.
End Methods.

(** [P1Packet.__init__(self, data)], run on a fresh instance. *)
Definition P1Packet_init (cls : P1Packet_class) (data : pydata)
  : result P1Packet :=
  let self := {| self_raw := Some (match data with
                                   | DList l => join [nl] l
                                   | DStr s => s
                                   end);
                 self_keys := None |} in
  let header := get cls self Rules.header (PyStr []) in
  let kwh_eid := get cls self Rules.kwh_eid PyNone in
  let* tariff := get_int cls self Rules.kwh_tariff PyNone in
  let* switch := get_int cls self Rules.kwh_switch PyNone in
  let* treshold := get_float cls self Rules.kwh_treshold PyNone in
  let* low_consumed := get_float cls self Rules.kwh_low_consumed PyNone in
  let* low_produced := get_float cls self Rules.kwh_low_produced PyNone in
  let* high_consumed := get_float cls self Rules.kwh_high_consumed PyNone in
  let* high_produced := get_float cls self Rules.kwh_high_produced PyNone in
  let* current_consumed := get_float cls self Rules.kwh_current_consumed PyNone in
  let* current_produced := get_float cls self Rules.kwh_current_produced PyNone in
  let gas_eid := get cls self Rules.gas_eid PyNone in
  let* device_type := get_int cls self Rules.gas_device_type PyNone in
  let* total := get_float cls self Rules.gas_total (PyInt 0) in
  let* valve := get_int cls self Rules.gas_valve PyNone in
  let code := get cls self Rules.msg_code PyNone in
  let text := get cls self Rules.msg_text PyNone in
  Ok {| self_raw := self_raw self;
        self_keys := Some
          {| header := header;
             kwh := {| kwh_eid := kwh_eid; tariff := tariff; switch := switch;
                       treshold := treshold;
                       low := {| consumed := low_consumed; produced := low_produced |};
                       high := {| consumed := high_consumed; produced := high_produced |};
                       current_consumed := current_consumed;
                       current_produced := current_produced |};
             gas := {| gas_eid := gas_eid; device_type := device_type;
                       total := total; valve := valve |};
             msg := {| code := code; text := text |} |} |}.

(** [str(p)] *)
Definition P1Packet_str (cls : P1Packet_class) (p : P1Packet) : str :=
  attr_raw cls p.


(** ** [SmartMeter.read_one_packet]

    The serial port is the environment.  One round of the [try] block
    (read a line, strip it, decode it) either delivers the text of a
    line or raises; the rounds of a call are given as a list. *)

Inductive read_event : Type :=
| Line (line : str)
| ReadFails.

(** The local variables of [read_one_packet]. *)
Record locals : Type := {
  lines : list str;
  lines_read : nat;
  complete_packet : bool;
  max_lines : nat
}.

Definition locals0 : locals :=
  {| lines := []; lines_read := 0; complete_packet := false; max_lines := 35 |}.

(** Lines 79 to 87: count the line, then start a new buffer on a header
    or append to the current one. *)
Definition buffer_line (st : locals) (line : str) : locals :=
  let lines_read' := lines_read st + 1 in
  if startswith (T "/ISk5") line then
    let m1 := if endswith (T "1003") line then 13 else max_lines st in
    let m2 := if endswith (T "1004") line then 19 else m1 in
    {| lines := [line]; lines_read := lines_read';
       complete_packet := complete_packet st; max_lines := m2 |}
  else
    {| lines := lines st ++ [line]; lines_read := lines_read';
       complete_packet := complete_packet st; max_lines := max_lines st |}.

(** Lines 88 and 89. *)
Definition check_complete (st : locals) (line : str) : locals :=
  if startswith (T "!") line && (max_lines st <? length (lines st))
  then {| lines := lines st; lines_read := lines_read st;
          complete_packet := true; max_lines := max_lines st |}
  else st.

(** Lines 90 and 91. *)
Definition check_runaway (st : locals) : result locals :=
  if max_lines st * 2 + 2 <? length (lines st)
  then Raise (SmartMeterError (StuckInLoop (length (lines st))))
  else Ok st.

(** One round of the [while] loop. *)
Definition loop_body (st : locals) (ev : read_event) : result locals :=
  match ev with
  | ReadFails => Raise (SmartMeterError ReadFault)
  | Line line => check_runaway (check_complete (buffer_line st line) line)
  end.

(** How far a call gets on the rounds it is given. *)
Inductive progress_of (A : Type) : Type :=
| Finished (a : A)          (* the loop has ended *)
| Raised (e : exn)          (* an exception left the call *)
| Reading (st : locals).    (* blocked in [readline], waiting for the next line *)
Arguments Finished {A} a.
Arguments Raised {A} e.
Arguments Reading {A} st.

(** [while not complete_packet: ...] *)
Fixpoint read_loop (st : locals) (evs : list read_event) : progress_of locals :=
  if complete_packet st then Finished st
  else match evs with
       | [] => Reading st
       | ev :: evs' =>
           match loop_body st ev with
           | Ok st' => read_loop st' evs'
           | Raise e => Raised e
           end
       end.

Definition read_one_packet (cls : P1Packet_class) (evs : list read_event)
  : progress_of P1Packet :=
  match read_loop locals0 evs with
  | Finished st =>
      match P1Packet_init cls (DStr (join [nl] (lines st))) with
      | Ok p => Finished p
      | Raise e => Raised e
      end
  | Raised e => Raised e
  | Reading st => Reading st
  end.


(** ** Reading the rules line by line *)

(** The first defined value of a list of attempts. *)
Fixpoint first_some {A B : Type} (f : A -> option B) (l : list A) : option B :=
  match l with
  | [] => None
  | x :: l' => match f x with
               | Some b => Some b
               | None => first_some f l'
               end
  end.

(** The pattern tried on a line standing alone, from its first character:
    group 1 of the match, when there is one. *)
Definition match_line (r : re) (l : str) : option cap :=
  match run r (Pos true l) None with
  | (_, g) :: _ => Some g
  | [] => None
  end.

(** [first_line r raw l]: [l] is a line of [raw] and no line before it
    matches the rule [r]. *)
Fixpoint first_among (r : re) (ls : list str) (l : str) : bool :=
  match ls with
  | [] => false
  | x :: ls' =>
      if str_eqb x l then true
      else match match_line r x with
           | None => first_among r ls' l
           | Some _ => false
           end
  end.

Definition first_line (r : re) (raw l : str) : bool :=
  first_among r (split_nl raw) l.

(** No character set of the pattern admits a newline. *)
Fixpoint nl_free (r : re) : bool :=
  match r with
  | Bol | Eol | Eps => true
  | Chr cs => negb (in_set cs nl)
  | Seq r1 r2 => nl_free r1 && nl_free r2
  | Opt r1 | Star r1 | Plus r1 | Rep _ r1 | Grp r1 | NGrp r1 => nl_free r1
  end.

(** The pattern opens with [^]. *)
Definition anchored (r : re) : bool :=
  match r with
  | Seq Bol _ => true
  | _ => false
  end.

(** The words a pattern can read, whatever the context of its anchors. *)
Inductive reads : re -> str -> Prop :=
| reads_bol : reads Bol []
| reads_eol : reads Eol []
| reads_eps : reads Eps []
| reads_chr cs c : in_set cs c = true -> reads (Chr cs) [c]
| reads_seq r1 r2 w1 w2 :
    reads r1 w1 -> reads r2 w2 -> reads (Seq r1 r2) (w1 ++ w2)
| reads_opt_skip r : reads (Opt r) []
| reads_opt_take r w : reads r w -> reads (Opt r) w
| reads_star_skip r : reads (Star r) []
| reads_star_take r w : reads (Plus r) w -> reads (Star r) w
| reads_plus_one r w : reads r w -> reads (Plus r) w
| reads_plus_more r w1 w2 :
    reads r w1 -> reads (Plus r) w2 -> reads (Plus r) (w1 ++ w2)
| reads_rep_O r : reads (Rep 0 r) []
| reads_rep_S r n w1 w2 :
    reads r w1 -> reads (Rep n r) w2 -> reads (Rep (S n) r) (w1 ++ w2)
| reads_grp r w : reads r w -> reads (Grp r) w
| reads_ngrp r w : reads r w -> reads (NGrp r) w.

(** The bodies of the capturing groups of a pattern. *)
Fixpoint group_bodies (r : re) : list re :=
  match r with
  | Grp b => [b]
  | Seq r1 r2 => group_bodies r1 ++ group_bodies r2
  | Opt r1 | Star r1 | Plus r1 | Rep _ r1 | NGrp r1 => group_bodies r1
  | Bol | Eol | Eps | Chr _ => []
  end.

(** Every match of the pattern goes through a capturing group. *)
Fixpoint sets_group (r : re) : bool :=
  match r with
  | Grp _ => true
  | Seq r1 r2 => sets_group r1 || sets_group r2
  | Plus r1 | NGrp r1 => sets_group r1
  | Rep (S _) r1 => sets_group r1
  | Rep O _ | Opt _ | Star _ | Bol | Eol | Eps | Chr _ => false
  end.

(** What group 1 holds after a match: either what it held before, when
    the match went through no group, or a word read by one of the
    pattern's groups. *)
Definition capture_of (r : re) (g g' : cap) : Prop :=
  (sets_group r = false /\ g' = g) \/
  (exists b w, In b (group_bodies r) /\ reads b w /\ g' = Some w).

(** A position moved to the same place in a longer text. *)
Definition extend (t : str) (x : pos * cap) : pos * cap :=
  (Pos (bol (fst x)) (rest (fst x) ++ t), snd x).

(** What may follow a line: the end of the text or a newline. *)
Definition line_end (t : str) : Prop :=
  match t with
  | [] => True
  | c :: _ => c = nl
  end.

(** [extends t r]: on a line followed by [t], the pattern matches as it
    does on the line alone. *)
Definition extends (t : str) (r : re) : Prop :=
  forall p g, ~ In nl (rest p) ->
    run r (Pos (bol p) (rest p ++ t)) g = map (extend t) (run r p g).

(** ** What a field holds *)

(** [extracted conv r default raw v]: [v] is the field the rule [r],
    with conversion [conv], yields on [raw]: the rule's default when
    the pattern matches nowhere, the converted capture otherwise. *)
Definition extracted (conv : pyval -> result pyval) (r : re)
           (default : pyval) (raw : str) (v : pyval) : Prop :=
  match search r raw with
  | None => v = default
  | Some g => exists s, g = Some s /\ conv (PyStr s) = Ok v
  end.

(** [str] fields are kept as captured. *)
Definition as_str (v : pyval) : result pyval := Ok v.

(** Every leaf of the record comes from its rule. *)
Definition fields_extracted (raw : str) (k : keys) : Prop :=
  extracted as_str Rules.header (PyStr []) raw (header k) /\
  extracted as_str Rules.kwh_eid PyNone raw (kwh_eid (kwh k)) /\
  extracted py_int Rules.kwh_tariff PyNone raw (tariff (kwh k)) /\
  extracted py_int Rules.kwh_switch PyNone raw (switch (kwh k)) /\
  extracted py_float Rules.kwh_treshold PyNone raw (treshold (kwh k)) /\
  extracted py_float Rules.kwh_low_consumed PyNone raw (consumed (low (kwh k))) /\
  extracted py_float Rules.kwh_low_produced PyNone raw (produced (low (kwh k))) /\
  extracted py_float Rules.kwh_high_consumed PyNone raw (consumed (high (kwh k))) /\
  extracted py_float Rules.kwh_high_produced PyNone raw (produced (high (kwh k))) /\
  extracted py_float Rules.kwh_current_consumed PyNone raw (current_consumed (kwh k)) /\
  extracted py_float Rules.kwh_current_produced PyNone raw (current_produced (kwh k)) /\
  extracted as_str Rules.gas_eid PyNone raw (gas_eid (gas k)) /\
  extracted py_int Rules.gas_device_type PyNone raw (device_type (gas k)) /\
  extracted py_float Rules.gas_total (PyInt 0) raw (total (gas k)) /\
  extracted py_int Rules.gas_valve PyNone raw (valve (gas k)) /\
  extracted as_str Rules.msg_code PyNone raw (code (msg k)) /\
  extracted as_str Rules.msg_text PyNone raw (text (msg k)).

(** The text a constructor argument stands for. *)
Definition raw_of (data : pydata) : str :=
  match data with
  | DList l => join [nl] l
  | DStr s => s
  end.

(** A decimal numeral: digits, a point, digits. *)
Definition numeral (a b : str) : str := a ++ "."%char :: b.

(** The words of a group that [int] accepts. *)
Definition int_body (b : re) : Prop :=
  forall w, reads b w -> w <> [] /\ all_digits w = true.

(** The words of a group that [float] accepts. *)
Definition float_body (b : re) : Prop :=
  forall w, reads b w ->
    exists a c, w = numeral a c /\ a <> [] /\
                all_digits a = true /\ all_digits c = true.

(** [line_value conv r l v]: the rule [r] matches the line [l], and its
    capture converts to [v]. *)
Definition line_value (conv : pyval -> result pyval) (r : re)
           (l : str) (v : pyval) : Prop :=
  exists s, match_line r l = Some (Some s) /\ conv (PyStr s) = Ok v.

(** [parses cls raw k]: the constructor, given the text [raw], returns
    a packet that retains [raw] and holds the fields [k]. *)
Definition parses (cls : P1Packet_class) (raw : str) (k : keys) : Prop :=
  P1Packet_init cls (DStr raw)
  = Ok {| self_raw := Some raw; self_keys := Some k |}.

(** The scenario telegram: the test suite's normal packet with the
    readings of the scenario. *)
Definition telegram_scenario : list str :=
  [ T "/ISk5\2ME382-1004";
    [];
    T "0-0:96.1.1(4B414C37303035313135383130323132)";
    T "1-0:1.8.1(0608.400*kWh)";
    T "1-0:1.8.2(0490.342*kWh)";
    T "1-0:2.8.1(0000.001*kWh)";
    T "1-0:2.8.2(0490.342*kWh)";
    T "0-0:96.14.0(0001)";
    T "1-0:1.7.0(0001.51*kW)";
    T "1-0:2.7.0(0000.00*kW)";
    T "0-0:17.0.0(0999.00*kW)";
    T "0-0:96.3.10(1)";
    T "0-1:24.1.0(3)";
    T "0-1:96.1.0(3238303131303031323332313337343132)";
    T "0-1:24.3.0(120517020000)(08)(60)(1)(0-1:24.2.1)(m3)";
    T "(00947.680)";
    T "0-1:24.4.0(1)";
    T "!" ].

(** The same telegram with a second low-tariff reading ahead of the
    scenario's. *)
Definition telegram_twice : list str :=
  [ T "/ISk5\2ME382-1004";
    T "1-0:1.8.1(0000.001*kWh)" ] ++ tl telegram_scenario.

(** A telegram with neither a high-tariff production line nor a gas
    total. *)
Definition telegram_bare : list str :=
  [ T "/KFM5KAIFA-METER";
    T "1-0:1.8.1(000498.215*kWh)";
    T "0-0:96.14.0(0002)";
    T "!" ].

(** Two bare gas totals. *)
Definition telegram_two_totals : list str :=
  [ T "(00001.000)"; T "(00002.000)" ].

(** A tariff line of 4301 digits, one more than [int] converts. *)
Definition telegram_long_tariff : str :=
  T "0-0:96.14.0(" ++ repeat "1"%char 4301 ++ T ")".


(** The test of line 88: a footer with the buffer beyond [max_lines]. *)
Definition completing (st : locals) (line : str) : bool :=
  startswith (T "!") line && (max_lines st <? length (lines st)).

(** A header line that carries a dialect hint. *)
Definition hinted_header (ev : read_event) : bool :=
  match ev with
  | Line l => startswith (T "/ISk5") l
              && (endswith (T "1003") l || endswith (T "1004") l)
  | ReadFails => false
  end.

(** The expected maximum after the rounds [evs]: what the latest header
    with a hint stands for, and 35 when there was none. *)
Definition hinted_max (evs : list read_event) : nat :=
  match find hinted_header (rev evs) with
  | Some (Line l) => if endswith (T "1003") l then 13 else 19
  | _ => 35
  end.

(** The capture of the rule [r] in [raw], if any, is short enough for
    [int] to convert. *)
Definition capture_in_range (r : re) (raw : str) : bool :=
  match search r raw with
  | Some (Some w) => length w <=? int_max_str_digits
  | _ => true
  end.

(** The tariff rule is the one integer rule that captures a run of
    digits of any length. *)
Definition tariff_in_range (raw : str) : bool :=
  capture_in_range Rules.kwh_tariff raw.

(** No line of the text matches the rule. *)
Definition no_line (r : re) (raw : str) : bool :=
  forallb (fun l => match match_line r l with
                    | None => true
                    | Some _ => false
                    end) (split_nl raw).

(** A leaf of the record a constructor call returns. *)
Definition field (f : keys -> pyval) (r : result P1Packet) : option pyval :=
  match r with
  | Ok p => option_map f (self_keys p)
  | Raise _ => None
  end.

(** Membership in a list of lines, decided. *)
Definition has_line (l : str) (raw : str) : bool :=
  existsb (str_eqb l) (split_nl raw).

(** The pattern ends with [$]. *)
Fixpoint ends_eol (r : re) : bool :=
  match r with
  | Eol => true
  | Seq _ r2 => ends_eol r2
  | _ => false
  end.

(** A character that is no digit, or no character at all, comes next. *)
Definition no_digit_next (s : str) : Prop :=
  match s with
  | [] => True
  | c :: _ => is_digit c = false
  end.

(** The lines of the rules of the form [reading address unit]. *)
Definition reading_line (address unit : string) (a b : str) : str :=
  T address ++ T "(" ++ numeral a b ++ T "*" ++ T unit ++ T ")".

(** ** The buffer of [read_one_packet] *)

Definition is_header (l : str) : bool := startswith (T "/ISk5") l.

Definition is_footer (l : str) : bool := startswith (T "!") l.

(** The values [max_lines] takes. *)
Definition known_max (n : nat) : Prop := n = 13 \/ n = 19 \/ n = 35.

(** [buffer_inv ls st]: after the lines [ls], the buffer holds the lines
    from the last header on, or all of them when there was none; every
    line has been counted. *)
Definition buffer_inv (ls : list str) (st : locals) : Prop :=
  (exists dropped,
      ls = dropped ++ lines st /\
      (dropped <> [] ->
       exists h rest, lines st = h :: rest /\ is_header h = true)) /\
  Forall (fun l => is_header l = false) (tl (lines st)) /\
  lines_read st = length ls /\
  known_max (max_lines st).

(** ** The rules that read line by line *)

(** A rule of [__init__]: its pattern, its conversion, its default and
    the field it fills. *)
Definition rule_entry : Type :=
  (re * (pyval -> result pyval) * pyval * (keys -> pyval))%type.

(** The rules whose pattern admits no newline: all but the two
    equipment ids. *)
Definition line_rules : list rule_entry :=
  [ (Rules.header, as_str, PyStr [], header);
    (Rules.kwh_tariff, py_int, PyNone, fun k => tariff (kwh k));
    (Rules.kwh_switch, py_int, PyNone, fun k => switch (kwh k));
    (Rules.kwh_treshold, py_float, PyNone, fun k => treshold (kwh k));
    (Rules.kwh_low_consumed, py_float, PyNone, fun k => consumed (low (kwh k)));
    (Rules.kwh_low_produced, py_float, PyNone, fun k => produced (low (kwh k)));
    (Rules.kwh_high_consumed, py_float, PyNone, fun k => consumed (high (kwh k)));
    (Rules.kwh_high_produced, py_float, PyNone, fun k => produced (high (kwh k)));
    (Rules.kwh_current_consumed, py_float, PyNone, fun k => current_consumed (kwh k));
    (Rules.kwh_current_produced, py_float, PyNone, fun k => current_produced (kwh k));
    (Rules.gas_device_type, py_int, PyNone, fun k => device_type (gas k));
    (Rules.gas_total, py_float, PyInt 0, fun k => total (gas k));
    (Rules.gas_valve, py_int, PyNone, fun k => valve (gas k));
    (Rules.msg_code, as_str, PyNone, fun k => code (msg k));
    (Rules.msg_text, as_str, PyNone, fun k => text (msg k)) ].

(** The first line that begins with a slash, empty when there is none. *)
Definition first_slash_line (ls : list str) : str :=
  match find (startswith (T "/")) ls with
  | Some l => l
  | None => []
  end.

(** [None] or a one-digit integer. *)
Definition digit_or_none (v : pyval) : Prop :=
  v = PyNone \/ exists n, (0 <= n <= 9)%Z /\ v = PyInt n.

Definition float_or_none (v : pyval) : Prop :=
  v = PyNone \/ exists f, v = PyFloat f.

(** [None] or a non-empty string without the character [c]. *)
Definition str_without (c : ascii) (v : pyval) : Prop :=
  v = PyNone \/ exists s, v = PyStr s /\ s <> [] /\ ~ In c s.

(** ** [P1Packet.__getitem__]

    [_keys] seen as the nested [dict] the constructor builds. *)

#[local] Set Warnings "-register-all".

Inductive pyobj : Type :=
| Leaf (v : pyval)
| Dict (items : list (str * pyobj)).

Definition tariff_dict (t : tariff_keys) : pyobj :=
  Dict [ (T "consumed", Leaf (consumed t));
         (T "produced", Leaf (produced t)) ].

Definition keys_dict (k : keys) : list (str * pyobj) :=
  [ (T "header", Leaf (header k));
    (T "kwh", Dict [ (T "eid", Leaf (kwh_eid (kwh k)));
                     (T "tariff", Leaf (tariff (kwh k)));
                     (T "switch", Leaf (switch (kwh k)));
                     (T "treshold", Leaf (treshold (kwh k)));
                     (T "low", tariff_dict (low (kwh k)));
                     (T "high", tariff_dict (high (kwh k)));
                     (T "current_consumed", Leaf (current_consumed (kwh k)));
                     (T "current_produced", Leaf (current_produced (kwh k))) ]);
    (T "gas", Dict [ (T "eid", Leaf (gas_eid (gas k)));
                     (T "device_type", Leaf (device_type (gas k)));
                     (T "total", Leaf (total (gas k)));
                     (T "valve", Leaf (valve (gas k))) ]);
    (T "msg", Dict [ (T "code", Leaf (code (msg k)));
                     (T "text", Leaf (text (msg k))) ]) ].

Inductive lookup_error : Type :=
| KeyError (key : str)
| AttributeError.

(** [d[key]] *)
Fixpoint dict_getitem (items : list (str * pyobj)) (key : str)
  : lookup_error + pyobj :=
  match items with
  | [] => inl (KeyError key)
  | (k, v) :: items' =>
      if str_eqb k key then inr v else dict_getitem items' key
  end.

(** [__getitem__(self, key)] *)
Definition P1Packet_getitem (p : P1Packet) (key : str)
  : lookup_error + pyobj :=
  match self_keys p with
  | None => inl AttributeError
  | Some k => dict_getitem (keys_dict k) key
  end.

(** ** The two equipment ids

    Their rules, with the text that opens the line and the field each
    fills; [[^)]+] reads newlines too. *)
Definition eid_rules : list (str * re * (keys -> pyval)) :=
  [ (T "0-0:96.1.1(", Rules.kwh_eid, fun k => kwh_eid (kwh k));
    (T "0-1:96.1.0(", Rules.gas_eid, fun k => gas_eid (gas k)) ].

(** * Properties *)

#[local] Arguments Ascii.eqb : simpl never.

(** ** The line loop *)

Section Framer.

Lemma startswith_header_not_footer (line : str) :
  startswith (T "/ISk5") line = true -> startswith (T "!") line = false.
Proof.
  destruct line as [|c line]; simpl; [discriminate|].
  destruct (Ascii.eqb "/" c) eqn:E; [|discriminate].
  apply Ascii.eqb_eq in E; subst c; reflexivity.
Qed.

Lemma startswith_footer_not_header (line : str) :
  startswith (T "!") line = true -> startswith (T "/ISk5") line = false.
Proof.
  intros H. destruct (startswith (T "/ISk5") line) eqn:E; [|reflexivity].
  apply startswith_header_not_footer in E. congruence.
Qed.

Lemma endswith_1003_not_1004 (line : str) :
  endswith (T "1003") line = true -> endswith (T "1004") line = false.
Proof.
  unfold endswith. destruct (rev line) as [|c r]; simpl; [discriminate|].
  destruct (Ascii.eqb "3" c) eqn:E; [|discriminate].
  apply Ascii.eqb_eq in E; subst c; reflexivity.
Qed.

(** A call that is still reading has not completed a packet. *)
Lemma reading_not_complete (evs : list read_event) :
  forall st st', read_loop st evs = Reading st' -> complete_packet st' = false.
Proof.
  induction evs as [|ev evs IH]; intros st st'; simpl.
  - destruct (complete_packet st) eqn:E; [discriminate|].
    intros [= <-]; exact E.
  - destruct (complete_packet st); [discriminate|].
    destruct (loop_body st ev); [apply IH | discriminate].
Qed.

(** What one more round does to a call that is still reading. *)
Lemma read_loop_snoc (evs : list read_event) (ev : read_event) :
  forall st st', read_loop st evs = Reading st' ->
    read_loop st (evs ++ [ev]) =
      match loop_body st' ev with
      | Ok st'' => if complete_packet st'' then Finished st'' else Reading st''
      | Raise e => Raised e
      end.
Proof.
  induction evs as [|ev' evs IH]; intros st st'; simpl.
  - destruct (complete_packet st) eqn:E; [discriminate|].
    intros [= <-]. destruct (loop_body st ev) as [st''|e]; [|reflexivity].
    destruct st'' as [l r c m]; simpl. destruct c; reflexivity.
  - destruct (complete_packet st); [discriminate|].
    destruct (loop_body st ev'); [apply IH | discriminate].
Qed.

(** The buffer a round leaves behind is within the runaway bound. *)
Lemma loop_body_bound (st st' : locals) (ev : read_event) :
  loop_body st ev = Ok st' -> length (lines st') <= max_lines st' * 2 + 2.
Proof.
  destruct ev as [line|]; simpl; [|discriminate].
  unfold check_runaway.
  destruct (_ <? _) eqn:E; [discriminate|].
  intros [= <-]. apply Nat.ltb_ge in E. exact E.
Qed.

Lemma reading_bound (evs : list read_event) :
  forall st st', length (lines st) <= max_lines st * 2 + 2 ->
    read_loop st evs = Reading st' ->
    length (lines st') <= max_lines st' * 2 + 2.
Proof.
  induction evs as [|ev evs IH]; intros st st' Hb; simpl.
  - destruct (complete_packet st); [discriminate|]. intros [= <-]; exact Hb.
  - destruct (complete_packet st); [discriminate|].
    destruct (loop_body st ev) as [st1|e] eqn:E; [|discriminate].
    apply IH. eapply loop_body_bound; eassumption.
Qed.

Lemma check_complete_fields (st : locals) (line : str) :
  lines (check_complete st line) = lines st /\
  max_lines (check_complete st line) = max_lines st /\
  lines_read (check_complete st line) = lines_read st.
Proof.
  unfold check_complete. destruct (_ && _); simpl; auto.
Qed.

Lemma buffer_line_footer (st : locals) (line : str) :
  startswith (T "!") line = true ->
  lines (buffer_line st line) = lines st ++ [line] /\
  max_lines (buffer_line st line) = max_lines st /\
  complete_packet (buffer_line st line) = complete_packet st.
Proof.
  intros H. unfold buffer_line.
  rewrite (startswith_footer_not_header _ H). simpl; auto.
Qed.

Lemma loop_body_max_lines (st st' : locals) (ev : read_event) :
  hinted_header ev = false -> loop_body st ev = Ok st' ->
  max_lines st' = max_lines st.
Proof.
  destruct ev as [line|]; [|intros _; discriminate].
  unfold hinted_header, loop_body, check_runaway. intros Hh.
  destruct (_ <? _); [discriminate|]. intros [= <-].
  destruct (check_complete_fields (buffer_line st line) line) as [_ [-> _]].
  unfold buffer_line.
  destruct (startswith (T "/ISk5") line); [|reflexivity].
  rewrite andb_true_l in Hh.
  apply orb_false_iff in Hh. destruct Hh as [-> ->]. reflexivity.
Qed.

(** Without a hinted header, [max_lines] is still what the call started
    with. *)
Lemma unhinted_max_lines (evs : list read_event) :
  forall st st', existsb hinted_header evs = false ->
    read_loop st evs = Reading st' -> max_lines st' = max_lines st.
Proof.
  induction evs as [|ev evs IH]; intros st st'; simpl.
  - intros _. destruct (complete_packet st); [discriminate|].
    now intros [= <-].
  - intros Hn. apply orb_false_iff in Hn. destruct Hn as [H1 H2].
    destruct (complete_packet st); [discriminate|].
    destruct (loop_body st ev) as [st1|e] eqn:E; [|discriminate].
    intros Hr. rewrite (IH _ _ H2 Hr). eapply loop_body_max_lines; eassumption.
Qed.

Lemma loop_body_hinted (st st' : locals) (line : str) :
  hinted_header (Line line) = true -> loop_body st (Line line) = Ok st' ->
  max_lines st' = if endswith (T "1003") line then 13 else 19.
Proof.
  unfold hinted_header, loop_body, check_runaway. intros Hh.
  destruct (_ <? _); [discriminate|]. intros [= <-].
  destruct (check_complete_fields (buffer_line st line) line) as [_ [-> _]].
  unfold buffer_line.
  apply andb_true_iff in Hh. destruct Hh as [-> Hh].
  destruct (endswith (T "1003") line) eqn:E3.
  - pose proof (endswith_1003_not_1004 _ E3) as E4. cbn [max_lines].
    destruct (endswith (T "1004") line); [discriminate|reflexivity].
  - cbn [orb] in Hh. cbn [max_lines].
    destruct (endswith (T "1004") line); [reflexivity|discriminate].
Qed.

Lemma find_app_first {A : Type} (f : A -> bool) (l1 l2 : list A) :
  find f (l1 ++ l2)
  = match find f l1 with Some x => Some x | None => find f l2 end.
Proof.
  induction l1 as [|x l1 IH]; simpl; [reflexivity|].
  now destruct (f x).
Qed.

(** While the call is reading, [max_lines] is what the latest hinted
    header stands for, and what the call started with when there was
    none. *)
Lemma reading_hinted_max (evs : list read_event) :
  forall st st', read_loop st evs = Reading st' ->
    max_lines st'
    = match find hinted_header (rev evs) with
      | Some (Line l) => if endswith (T "1003") l then 13 else 19
      | _ => max_lines st
      end.
Proof.
  induction evs as [|ev evs IH]; intros st st'; simpl read_loop.
  - destruct (complete_packet st); [discriminate|]. now intros [= <-].
  - destruct (complete_packet st); [discriminate|].
    destruct (loop_body st ev) as [st1|e] eqn:E; [|discriminate].
    intros Hr. rewrite (IH _ _ Hr). simpl rev. rewrite find_app_first.
    destruct (find hinted_header (rev evs)) as [[l|]|] eqn:F.
    + reflexivity.
    + apply find_some in F. destruct F as [_ F]. discriminate.
    + simpl find. destruct (hinted_header ev) eqn:Hh.
      * destruct ev as [line|]; [|discriminate].
        eapply loop_body_hinted; eassumption.
      * eapply loop_body_max_lines; eassumption.
Qed.

End Framer.

(** ** The matcher *)

Section Matcher.

Lemma taken_app (b b' : bool) (w s : str) :
  taken (Pos b (w ++ s)) (Pos b' s) = w.
Proof.
  unfold taken; simpl. rewrite length_app, Nat.add_sub.
  rewrite firstn_app, Nat.sub_diag, firstn_all; simpl.
  apply app_nil_r.
Qed.

(** A repetition reads what its rounds read. *)
Lemma plus_loop_reads (r : re) :
  (forall p g q g', In (q, g') (run r p g) ->
     exists w, rest p = w ++ rest q /\ reads r w) ->
  forall n p g q g', In (q, g') (plus_loop (run r) n p g) ->
    exists w, rest p = w ++ rest q /\ reads (Plus r) w.
Proof.
  intros Hr. induction n as [|n IH]; intros p g q g' H; simpl in H;
    apply in_flat_map in H; destruct H as [[q1 g1] [H1 H2]];
    apply Hr in H1; destruct H1 as [w1 [E1 R1]];
    apply in_app_or in H2; destruct H2 as [H2|H2].
  - destruct (progress p q1); destruct H2.
  - destruct H2 as [[= <- <-]|[]]. exists w1; split; [exact E1|].
    now apply reads_plus_one.
  - destruct (progress p q1); [|destruct H2].
    apply IH in H2. destruct H2 as [w2 [E2 R2]].
    exists (w1 ++ w2); split.
    + rewrite E1, E2. now rewrite app_assoc.
    + now apply reads_plus_more.
  - destruct H2 as [[= <- <-]|[]]. exists w1; split; [exact E1|].
    now apply reads_plus_one.
Qed.

Lemma rep_loop_reads (r : re) :
  (forall p g q g', In (q, g') (run r p g) ->
     exists w, rest p = w ++ rest q /\ reads r w) ->
  forall n p g q g', In (q, g') (rep_loop (run r) n p g) ->
    exists w, rest p = w ++ rest q /\ reads (Rep n r) w.
Proof.
  intros Hr. induction n as [|n IH]; intros p g q g' H; simpl in H.
  - destruct H as [[= <- <-]|[]]. exists []; split; [reflexivity|constructor].
  - apply in_flat_map in H; destruct H as [[q1 g1] [H1 H2]].
    apply Hr in H1; destruct H1 as [w1 [E1 R1]].
    apply IH in H2; destruct H2 as [w2 [E2 R2]].
    exists (w1 ++ w2); split.
    + rewrite E1, E2. now rewrite app_assoc.
    + now constructor.
Qed.

(** Soundness of [run]: a match ends on a suffix of where it started,
    and the pattern reads what lies between. *)
Lemma run_reads (r : re) :
  forall p g q g', In (q, g') (run r p g) ->
    exists w, rest p = w ++ rest q /\ reads r w.
Proof.
  induction r as [| | cs | | r1 IH1 r2 IH2 | r IH | r IH | r IH | n r IH | r IH | r IH];
    intros p g q g' H; simpl in H.
  - destruct (bol p); [|destruct H]; destruct H as [[= <- <-]|[]].
    exists []; split; [reflexivity|constructor].
  - destruct (at_eol p); [|destruct H]; destruct H as [[= <- <-]|[]].
    exists []; split; [reflexivity|constructor].
  - destruct (rest p) as [|c s] eqn:E; [destruct H|].
    destruct (in_set cs c) eqn:Ec; [|destruct H]; destruct H as [[= <- <-]|[]].
    exists [c]; split; [reflexivity|now constructor].
  - destruct H as [[= <- <-]|[]].
    exists []; split; [reflexivity|constructor].
  - apply in_flat_map in H; destruct H as [[q1 g1] [H1 H2]].
    apply IH1 in H1; destruct H1 as [w1 [E1 R1]].
    apply IH2 in H2; destruct H2 as [w2 [E2 R2]].
    exists (w1 ++ w2); split.
    + rewrite E1, E2. now rewrite app_assoc.
    + now constructor.
  - apply in_app_or in H; destruct H as [H|[[= <- <-]|[]]].
    + apply IH in H; destruct H as [w [E R]].
      exists w; split; [exact E|now apply reads_opt_take].
    + exists []; split; [reflexivity|constructor].
  - apply in_app_or in H; destruct H as [H|[[= <- <-]|[]]].
    + apply (plus_loop_reads IH) in H; destruct H as [w [E R]].
      exists w; split; [exact E|now apply reads_star_take].
    + exists []; split; [reflexivity|constructor].
  - now apply (plus_loop_reads IH) in H.
  - now apply (rep_loop_reads IH) in H.
  - apply in_map_iff in H; destruct H as [[q1 g1] [[= <- <-] H]].
    apply IH in H; destruct H as [w [E R]].
    exists w; split; [exact E|now constructor].
  - apply IH in H; destruct H as [w [E R]].
    exists w; split; [exact E|now constructor].
Qed.

Lemma run_shorter (r : re) (p q : pos) (g g' : cap) :
  In (q, g') (run r p g) -> length (rest q) <= length (rest p).
Proof.
  intros H. apply run_reads in H. destruct H as [w [E _]].
  rewrite E, length_app. lia.
Qed.

Lemma plus_loop_capture (r : re) :
  (forall p g q g', In (q, g') (run r p g) -> capture_of r g g') ->
  forall n p g q g', In (q, g') (plus_loop (run r) n p g) ->
    capture_of r g g'.
Proof.
  intros Hr. induction n as [|n IH]; intros p g q g' H; simpl in H;
    apply in_flat_map in H; destruct H as [[q1 g1] [H1 H2]];
    apply Hr in H1; apply in_app_or in H2; destruct H2 as [H2|H2].
  - destruct (progress p q1); destruct H2.
  - destruct H2 as [[= <- <-]|[]]. exact H1.
  - destruct (progress p q1); [|destruct H2].
    apply IH in H2. destruct H2 as [[S2 ->]|H2]; [exact H1|now right].
  - destruct H2 as [[= <- <-]|[]]. exact H1.
Qed.

Lemma rep_loop_capture (r : re) :
  (forall p g q g', In (q, g') (run r p g) -> capture_of r g g') ->
  forall n p g q g', In (q, g') (rep_loop (run r) n p g) ->
    capture_of (Rep n r) g g'.
Proof.
  intros Hr. induction n as [|n IH]; intros p g q g' H; simpl in H.
  - destruct H as [[= <- <-]|[]]. left; split; reflexivity.
  - apply in_flat_map in H; destruct H as [[q1 g1] [H1 H2]].
    apply Hr in H1. apply IH in H2.
    destruct H2 as [[S2 ->]|H2]; [exact H1|now right].
Qed.

Lemma run_capture (r : re) :
  forall p g q g', In (q, g') (run r p g) -> capture_of r g g'.
Proof.
  induction r as [| | cs | | r1 IH1 r2 IH2 | r IH | r IH | r IH | n r IH | r IH | r IH];
    intros p g q g' H; simpl in H.
  - destruct (bol p); [|destruct H]; destruct H as [[= <- <-]|[]]. now left.
  - destruct (at_eol p); [|destruct H]; destruct H as [[= <- <-]|[]]. now left.
  - destruct (rest p) as [|c s]; [destruct H|].
    destruct (in_set cs c); [|destruct H]; destruct H as [[= <- <-]|[]]. now left.
  - destruct H as [[= <- <-]|[]]. now left.
  - apply in_flat_map in H; destruct H as [[q1 g1] [H1 H2]].
    apply IH1 in H1. apply IH2 in H2.
    destruct H2 as [[S2 ->]|[b [w [Hb [Rb ->]]]]].
    + destruct H1 as [[S1 ->]|[b [w [Hb [Rb ->]]]]].
      * left; simpl; rewrite S1, S2; auto.
      * right; exists b, w; simpl; rewrite in_app_iff; auto.
    + right; exists b, w; simpl; rewrite in_app_iff; auto.
  - apply in_app_or in H; destruct H as [H|[[= <- <-]|[]]]; [|now left].
    apply IH in H. destruct H as [[S1 ->]|H]; [now left|now right].
  - apply in_app_or in H; destruct H as [H|[[= <- <-]|[]]]; [|now left].
    apply (plus_loop_capture IH) in H.
    destruct H as [[S1 ->]|H]; [now left|now right].
  - now apply (plus_loop_capture IH) in H.
  - now apply (rep_loop_capture IH) in H.
  - apply in_map_iff in H; destruct H as [[q1 g1] [[= <- <-] H]].
    apply run_reads in H; destruct H as [w [E R]].
    right; exists r, w; simpl; repeat split; auto.
    destruct p as [b s], q1 as [b' s']; simpl in E; subst s.
    now rewrite taken_app.
  - now apply IH in H.
Qed.

End Matcher.

(** ** A rule without newlines reads one line at a time *)

Section Locality.

Lemma flat_map_ext_in {A B : Type} (f f' : A -> list B) (l : list A) :
  (forall x, In x l -> f x = f' x) -> flat_map f l = flat_map f' l.
Proof.
  induction l as [|x l IH]; intros H; simpl; [reflexivity|].
  rewrite (H x (or_introl eq_refl)), IH; [reflexivity|].
  intros y Hy; apply H; now right.
Qed.

Lemma flat_map_map_in {A B : Type} (e : A -> A) (e' : B -> B)
      (f f' : A -> list B) (l : list A) :
  (forall x, In x l -> f (e x) = map e' (f' x)) ->
  flat_map f (map e l) = map e' (flat_map f' l).
Proof.
  induction l as [|x l IH]; intros H; simpl; [reflexivity|].
  rewrite map_app, (H x (or_introl eq_refl)), IH; [reflexivity|].
  intros y Hy; apply H; now right.
Qed.

Lemma progress_extend (t : str) (p q : pos) :
  progress (Pos (bol p) (rest p ++ t)) (Pos (bol q) (rest q ++ t))
  = progress p q.
Proof.
  unfold progress; simpl. rewrite !length_app.
  destruct (length (rest q) <? length (rest p)) eqn:E.
  - apply Nat.ltb_lt in E. apply Nat.ltb_lt. lia.
  - apply Nat.ltb_ge in E. apply Nat.ltb_ge. lia.
Qed.

(** More fuel than there are characters left changes nothing. *)
Lemma plus_loop_fuel (body : pos -> cap -> list (pos * cap)) :
  (forall p g q g', In (q, g') (body p g) ->
     length (rest q) <= length (rest p)) ->
  forall n m p g, length (rest p) <= n -> length (rest p) <= m ->
    plus_loop body n p g = plus_loop body m p g.
Proof.
  intros Hb. induction n as [|n IH]; intros m p g Hn Hm.
  - destruct m as [|m]; [reflexivity|]. simpl.
    apply flat_map_ext_in. intros [q g'] Hq.
    assert (E : progress p q = false).
    { unfold progress. apply Nat.ltb_ge. lia. }
    now rewrite E.
  - destruct m as [|m]; simpl; apply flat_map_ext_in; intros [q g'] Hq.
    + assert (E : progress p q = false).
      { unfold progress. apply Nat.ltb_ge. lia. }
      now rewrite E.
    + destruct (progress p q) eqn:E; [|reflexivity].
      unfold progress in E. apply Nat.ltb_lt in E.
      rewrite (IH m q g'); [reflexivity| lia | lia].
Qed.

Section Extend.
Variable t : str.
Hypothesis Ht : line_end t.

Lemma result_nl_free (r : re) (p q : pos) (g g' : cap) :
  ~ In nl (rest p) -> In (q, g') (run r p g) -> ~ In nl (rest q).
Proof.
  intros Hp H Hq. apply run_reads in H. destruct H as [w [E _]].
  apply Hp. rewrite E. apply in_or_app. now right.
Qed.

Lemma plus_loop_extends (r : re) :
  extends t r ->
  forall n p g, ~ In nl (rest p) ->
    plus_loop (run r) n (Pos (bol p) (rest p ++ t)) g
    = map (extend t) (plus_loop (run r) n p g).
Proof.
  intros Hr. induction n as [|n IH]; intros p g Hp; simpl;
    rewrite (Hr p g Hp); apply flat_map_map_in; intros [q g'] Hq;
    simpl; rewrite progress_extend, map_app; simpl;
    f_equal; destruct (progress p q); try reflexivity.
  apply IH. eapply result_nl_free; eassumption.
Qed.

Lemma rep_loop_extends (r : re) :
  extends t r ->
  forall n p g, ~ In nl (rest p) ->
    rep_loop (run r) n (Pos (bol p) (rest p ++ t)) g
    = map (extend t) (rep_loop (run r) n p g).
Proof.
  intros Hr. induction n as [|n IH]; intros p g Hp; simpl; [reflexivity|].
  rewrite (Hr p g Hp). apply flat_map_map_in. intros [q g'] Hq; simpl.
  apply IH. eapply result_nl_free; eassumption.
Qed.

Lemma run_extends (r : re) : nl_free r = true -> extends t r.
Proof.
  induction r as [| | cs | | r1 IH1 r2 IH2 | r IH | r IH | r IH | n r IH | r IH | r IH];
    simpl; intros Hf p g Hp.
  - destruct p as [b s]; simpl. destruct b; reflexivity.
  - destruct p as [b s]; simpl in *.
    destruct s as [|c s]; unfold at_eol, extend; simpl.
    + destruct t as [|c' t']; [reflexivity|].
      simpl in Ht; subst c'. now rewrite Ascii.eqb_refl.
    + destruct (Ascii.eqb c nl); reflexivity.
  - destruct p as [b s]; simpl in *. destruct s as [|c s]; simpl.
    + destruct t as [|c' t']; [reflexivity|].
      simpl in Ht; subst c'.
      apply negb_true_iff in Hf. now rewrite Hf.
    + destruct (in_set cs c); reflexivity.
  - reflexivity.
  - apply andb_true_iff in Hf. destruct Hf as [F1 F2].
    simpl. rewrite (IH1 F1 p g Hp). apply flat_map_map_in.
    intros [q g'] Hq. simpl. apply (IH2 F2).
    eapply result_nl_free; eassumption.
  - simpl. rewrite (IH Hf p g Hp), map_app. reflexivity.
  - simpl. rewrite map_app. simpl. f_equal.
    rewrite (plus_loop_extends (IH Hf) _ _ _ Hp). f_equal.
    apply plus_loop_fuel; [intros; eapply run_shorter; eassumption | | lia].
    rewrite length_app; lia.
  - simpl. rewrite (plus_loop_extends (IH Hf) _ _ _ Hp). f_equal.
    apply plus_loop_fuel; [intros; eapply run_shorter; eassumption | | lia].
    rewrite length_app; lia.
  - simpl. apply (rep_loop_extends (IH Hf) _ _ _ Hp).
  - simpl. rewrite (IH Hf p g Hp), !map_map.
    apply map_ext_in. intros [q g'] Hq. simpl.
    apply run_reads in Hq. destruct Hq as [w [E _]].
    destruct p as [b s], q as [b' s']; simpl in *. subst s.
    rewrite <- app_assoc, !taken_app. reflexivity.
  - simpl. apply (IH Hf p g Hp).
Qed.
End Extend.

Lemma split_nl_cons (s : str) : exists l ls, split_nl s = l :: ls.
Proof.
  destruct s as [|c s]; simpl; [now eexists; eexists|].
  destruct (Ascii.eqb c nl); [now eexists; eexists|].
  destruct (split_nl s); now eexists; eexists.
Qed.

(** The first line of a text, and what follows it. *)
Lemma split_nl_first (s : str) :
  exists l ls t, split_nl s = l :: ls /\ s = l ++ t /\
                 ~ In nl l /\ line_end t.
Proof.
  induction s as [|c s IH]; simpl.
  - exists [], [], []; simpl; auto.
  - destruct (Ascii.eqb c nl) eqn:E.
    + apply Ascii.eqb_eq in E; subst c.
      exists [], (split_nl s), (nl :: s); simpl; auto.
    + destruct IH as [l [ls [t [E1 [E2 [N L]]]]]]. rewrite E1.
      exists (c :: l), ls, t; repeat split; auto.
      * simpl; now rewrite E2.
      * intros [H|H]; [|now apply N].
        subst c. now rewrite Ascii.eqb_refl in E.
Qed.

Variable r : re.
Hypothesis Ha : anchored r = true.
Hypothesis Hf : nl_free r = true.

Lemma run_off_line_start (s : str) (g : cap) : run r (Pos false s) g = [].
Proof.
  destruct r as [| | | | r1 r2 | | | | | |]; try discriminate.
  destruct r1; try discriminate. reflexivity.
Qed.

(** At the start of a line the rule sees the line alone. *)
Lemma search_at_line_start (s : str) :
  search_from r true s =
    match match_line r (hd [] (split_nl s)) with
    | Some g => Some g
    | None => match s with
              | [] => None
              | c :: s' => search_from r (Ascii.eqb c nl) s'
              end
    end.
Proof.
  destruct (split_nl_first s) as [l [ls [t [E1 [E2 [N L]]]]]].
  rewrite E1; simpl hd. unfold match_line.
  assert (E : run r (Pos true s) None
              = map (extend t) (run r (Pos true l) None)).
  { rewrite E2. apply (@run_extends t L r Hf (Pos true l) None N). }
  destruct s as [|c s']; simpl; rewrite E;
    destruct (run r (Pos true l) None) as [|[q g'] xs]; reflexivity.
Qed.

Lemma search_after (s : str) :
  match s with
  | [] => None
  | c :: s' => search_from r (Ascii.eqb c nl) s'
  end = first_some (match_line r) (tl (split_nl s)).
Proof.
  induction s as [|c s IH]; [reflexivity|].
  simpl split_nl. destruct (Ascii.eqb c nl) eqn:E.
  - simpl tl. rewrite search_at_line_start, IH.
    destruct (split_nl_cons s) as [l [ls ->]]. reflexivity.
  - destruct (split_nl_cons s) as [l [ls El]]. rewrite El in *. simpl tl in *.
    rewrite <- IH. destruct s as [|c' s']; simpl;
      now rewrite run_off_line_start.
Qed.

(** [re.search] with such a rule returns the match of the first line
    of the text that matches. *)
Lemma search_lines (s : str) :
  search r s = first_some (match_line r) (split_nl s).
Proof.
  unfold search. rewrite search_at_line_start, search_after.
  destruct (split_nl_cons s) as [l [ls ->]]. reflexivity.
Qed.

End Locality.

(** ** Captures and conversions *)

Section Conversions.

Lemma search_from_some (r : re) (s : str) :
  forall b g, search_from r b s = Some g ->
    exists p q, In (q, g) (run r p None).
Proof.
  induction s as [|c s IH]; intros b g; simpl.
  - destruct (run r (Pos b []) None) as [|[q g'] xs] eqn:E; [discriminate|].
    intros [= <-]. exists (Pos b []), q. rewrite E. now left.
  - destruct (run r (Pos b (c :: s)) None) as [|[q g'] xs] eqn:E.
    + apply IH.
    + intros [= <-]. exists (Pos b (c :: s)), q. rewrite E. now left.
Qed.

(** A rule whose matches all go through its group captures a word of
    the group. *)
Lemma search_capture (r : re) (raw : str) (g : cap) :
  sets_group r = true -> search r raw = Some g ->
  exists b w, In b (group_bodies r) /\ reads b w /\ g = Some w.
Proof.
  intros Hs H. apply search_from_some in H. destruct H as [p [q H]].
  apply run_capture in H. destruct H as [[H _]|H]; [congruence|exact H].
Qed.

Lemma reads_D (w : str) :
  reads Rules.D w -> exists c, w = [c] /\ is_digit c = true.
Proof.
  intros H. inversion H; subst. now exists c.
Qed.

Lemma reads_plus_D (w : str) :
  reads (Plus Rules.D) w -> w <> [] /\ all_digits w = true.
Proof.
  intros H. remember (Plus Rules.D) as r eqn:E.
  induction H; try discriminate; injection E as ->.
  - apply reads_D in H. destruct H as [c [-> Hc]].
    split; [discriminate|]. simpl. now rewrite Hc.
  - apply reads_D in H. destruct H as [c [-> Hc]].
    destruct (IHreads2 eq_refl) as [_ Hd].
    split; [discriminate|]. simpl. now rewrite Hc, Hd.
Qed.

Lemma reads_rep_D (n : nat) :
  forall w, reads (Rep n Rules.D) w -> length w = n /\ all_digits w = true.
Proof.
  induction n as [|n IH]; intros w H; inversion H; subst.
  - now split.
  - apply reads_D in H2. destruct H2 as [c [-> Hc]].
    apply IH in H4. destruct H4 as [L Hd].
    split; simpl; [now rewrite L|]. now rewrite Hc, Hd.
Qed.

Lemma reads_numeral (ra rb : re) (w : str) :
  (forall a, reads ra a -> a <> [] /\ all_digits a = true) ->
  (forall c, reads rb c -> all_digits c = true) ->
  reads (Seq ra (Seq (Chr (Lit ".")) rb)) w ->
  exists a c, w = numeral a c /\ a <> [] /\
              all_digits a = true /\ all_digits c = true.
Proof.
  intros Ha Hb H. inversion H as [| | | |r1 r2 a w2 H1 H2| | | | | | | | | |]; subst.
  inversion H2 as [| | | |r1 r2 d c H3 H4| | | | | | | | | |]; subst.
  inversion H3; subst. simpl in H5. apply Ascii.eqb_eq in H5; subst.
  destruct (Ha _ H1) as [Na Da]. exists a, c. unfold numeral; simpl. auto.
Qed.

Lemma int_body_plus : int_body (Plus Rules.D).
Proof. intros w H. now apply reads_plus_D. Qed.

Lemma int_body_D : int_body Rules.D.
Proof.
  intros w H. apply reads_D in H. destruct H as [c [-> Hc]].
  split; [discriminate|]. simpl. now rewrite Hc.
Qed.

Lemma float_body_plus :
  float_body (Seq (Plus Rules.D) (Seq (Chr (Lit ".")) (Plus Rules.D))).
Proof.
  intros w H. apply reads_numeral in H; auto using reads_plus_D.
  intros c Hc. now apply reads_plus_D in Hc.
Qed.

Lemma float_body_rep (n m : nat) :
  float_body (Seq (Rep (S n) Rules.D) (Seq (Chr (Lit ".")) (Rep m Rules.D))).
Proof.
  intros w H. apply reads_numeral in H; auto.
  - intros a Ha. apply reads_rep_D in Ha. destruct Ha as [L Da].
    split; [|exact Da]. intros ->; discriminate.
  - intros c Hc. now apply reads_rep_D in Hc.
Qed.

Lemma split_point_numeral (a c : str) :
  all_digits a = true -> split_point (numeral a c) = (a, Some c).
Proof.
  unfold numeral. induction a as [|x a IH]; simpl; intros H.
  - reflexivity.
  - apply andb_true_iff in H. destruct H as [Hx Ha].
    destruct (Ascii.eqb x ".") eqn:E.
    + apply Ascii.eqb_eq in E; subst x. discriminate.
    + now rewrite (IH Ha).
Qed.

(** [float] of a captured numeral. *)
Lemma float_of_numeral (a c : str) :
  a <> [] -> all_digits a = true -> all_digits c = true ->
  float_of_str (numeral a c)
  = Ok (PyFloat (dec_to_float (digits_val 0 (a ++ c)) (length c))).
Proof.
  intros Na Da Dc. unfold float_of_str.
  rewrite split_point_numeral by assumption. rewrite Da, Dc.
  destruct a as [|x a]; [now elim Na|]. reflexivity.
Qed.

Lemma int_of_digits (w : str) :
  w <> [] -> all_digits w = true -> length w <= int_max_str_digits ->
  py_int (PyStr w) = Ok (PyInt (Z.of_N (digits_val 0 w))).
Proof.
  intros Nw Dw Lw. destruct w as [|x w]; [now elim Nw|].
  unfold py_int. rewrite Dw.
  destruct (Nat.ltb_spec int_max_str_digits (length (x :: w)));
    [lia|reflexivity].
Qed.

(** [int] refuses a run of more than [int_max_str_digits] digits. *)
Lemma int_of_long (w : str) :
  int_max_str_digits < length w -> py_int (PyStr w) = Raise ValueError.
Proof.
  intros Lw. destruct w as [|x w]; [reflexivity|].
  unfold py_int. destruct (all_digits (x :: w)); [|reflexivity].
  destruct (Nat.ltb_spec int_max_str_digits (length (x :: w)));
    [reflexivity|lia].
Qed.

Lemma int_ok_length (w : str) (v : pyval) :
  py_int (PyStr w) = Ok v -> length w <= int_max_str_digits.
Proof.
  intros H. destruct (Nat.le_gt_cases (length w) int_max_str_digits) as [L|L];
    [exact L|]. rewrite (int_of_long w L) in H. discriminate.
Qed.

(** Every exception of [int] on a [str] is a [ValueError]. *)
Lemma int_raises_value (w : str) (e : exn) :
  py_int (PyStr w) = Raise e -> e = ValueError.
Proof.
  unfold py_int. destruct w as [|x w]; [congruence|].
  destruct (all_digits (x :: w)); [|congruence].
  destruct (int_max_str_digits <? length (x :: w)); congruence.
Qed.

Variable cls : P1Packet_class.
Variable self : P1Packet.

Lemma get_extracted (r : re) (default : pyval) :
  sets_group r = true ->
  extracted as_str r default (attr_raw cls self) (get cls self r default).
Proof.
  intros Hs. unfold extracted, get.
  destruct (search r (attr_raw cls self)) as [g|] eqn:E; [|reflexivity].
  destruct (@search_capture r _ g Hs E) as [b [w [_ [_ ->]]]].
  now exists w.
Qed.

(** [get_int] returns what its rule extracts when the capture is short
    enough for [int]. *)
Lemma get_int_extracted (r : re) (default : pyval) :
  sets_group r = true -> Forall int_body (group_bodies r) ->
  capture_in_range r (attr_raw cls self) = true ->
  exists v, get_int cls self r default = Ok v /\
            extracted py_int r default (attr_raw cls self) v.
Proof.
  intros Hs Hb Hr. unfold extracted, get_int, get.
  unfold capture_in_range in Hr.
  destruct (search r (attr_raw cls self)) as [g|] eqn:E.
  - destruct (@search_capture r _ g Hs E) as [b [w [Ib [Rb ->]]]].
    rewrite Forall_forall in Hb. destruct (Hb b Ib w Rb) as [Nw Dw].
    apply Nat.leb_le in Hr.
    exists (PyInt (Z.of_N (digits_val 0 w))).
    rewrite <- (int_of_digits Nw Dw Hr).
    destruct w as [|x w]; [now elim Nw|]. split; [reflexivity|].
    now exists (x :: w).
  - exists default. now split.
Qed.

(** And it raises [ValueError] when the capture is too long. *)
Lemma get_int_raises (r : re) (default : pyval) :
  sets_group r = true -> Forall int_body (group_bodies r) ->
  capture_in_range r (attr_raw cls self) = false ->
  get_int cls self r default = Raise ValueError.
Proof.
  intros Hs Hb Hr. unfold get_int, get.
  unfold capture_in_range in Hr.
  destruct (search r (attr_raw cls self)) as [g|] eqn:E; [|discriminate].
  destruct (@search_capture r _ g Hs E) as [b [w [Ib [Rb ->]]]].
  rewrite Forall_forall in Hb. destruct (Hb b Ib w Rb) as [Nw Dw].
  apply Nat.leb_gt in Hr.
  destruct w as [|x w]; [now elim Nw|].
  exact (int_of_long (x :: w) Hr).
Qed.

(** A rule whose group reads one digit is always in range. *)
Lemma one_digit_in_range (r : re) (raw : str) :
  sets_group r = true -> group_bodies r = [Rules.D] ->
  capture_in_range r raw = true.
Proof.
  intros Hs Hb. unfold capture_in_range.
  destruct (search r raw) as [g|] eqn:E; [|reflexivity].
  destruct (@search_capture r _ g Hs E) as [b [w [Ib [Rb ->]]]].
  rewrite Hb in Ib. destruct Ib as [<-|[]].
  apply reads_D in Rb. destruct Rb as [c [-> _]]. reflexivity.
Qed.

Lemma get_float_extracted (r : re) (default : pyval) :
  sets_group r = true -> Forall float_body (group_bodies r) ->
  exists v, get_float cls self r default = Ok v /\
            extracted py_float r default (attr_raw cls self) v.
Proof.
  intros Hs Hb. unfold extracted, get_float, get.
  destruct (search r (attr_raw cls self)) as [g|] eqn:E.
  - destruct (@search_capture r _ g Hs E) as [b [w [Ib [Rb ->]]]].
    rewrite Forall_forall in Hb.
    destruct (Hb b Ib w Rb) as [a [c [-> [Na [Da Dc]]]]].
    exists (PyFloat (dec_to_float (digits_val 0 (a ++ c)) (length c))).
    assert (F : py_float (PyStr (numeral a c))
                = Ok (PyFloat (dec_to_float (digits_val 0 (a ++ c)) (length c))))
      by (simpl; now apply float_of_numeral).
    destruct a as [|x a]; [now elim Na|]. split.
    + simpl. exact F.
    + exists (numeral (x :: a) c). now split.
  - exists default. now split.
Qed.

End Conversions.

(** ** The constructor *)

Section Constructor.

Ltac bodies lem :=
  match goal with
  | |- Forall ?P (group_bodies ?r) =>
      let l := eval vm_compute in (group_bodies r) in
      change (Forall P l); apply Forall_cons; [apply lem | apply Forall_nil]
  end.

Lemma float_body_reading :
  float_body (Seq (Plus (Chr Digit)) (Seq (Chr (Lit ".")) (Plus (Chr Digit)))).
Proof. exact float_body_plus. Qed.

(** The constructor returns when the tariff capture is in range, and
    every field is then the one its rule extracts. *)
Lemma init_extracted (cls : P1Packet_class) (data : pydata) :
  tariff_in_range (raw_of data) = true ->
  exists k,
    P1Packet_init cls data
    = Ok {| self_raw := Some (raw_of data); self_keys := Some k |}
    /\ fields_extracted (raw_of data) k.
Proof.
  intros Hr. unfold P1Packet_init.
  set (self := {| self_raw := Some match data with
                                   | DList l => join [nl] l
                                   | DStr s => s
                                   end;
                  self_keys := None |}).
  assert (Eraw : attr_raw cls self = raw_of data) by reflexivity.
  destruct (@get_int_extracted cls self Rules.kwh_tariff PyNone eq_refl)
    as [v1 [E1 X1]]; [bodies int_body_plus|now rewrite Eraw|].
  destruct (@get_int_extracted cls self Rules.kwh_switch PyNone eq_refl)
    as [v2 [E2 X2]];
    [bodies int_body_D|now apply one_digit_in_range|].
  destruct (@get_float_extracted cls self Rules.kwh_treshold PyNone eq_refl)
    as [v3 [E3 X3]]; [bodies (@float_body_rep 3 2)|].
  destruct (@get_float_extracted cls self Rules.kwh_low_consumed PyNone eq_refl)
    as [v4 [E4 X4]]; [bodies float_body_reading|].
  destruct (@get_float_extracted cls self Rules.kwh_low_produced PyNone eq_refl)
    as [v5 [E5 X5]]; [bodies float_body_reading|].
  destruct (@get_float_extracted cls self Rules.kwh_high_consumed PyNone eq_refl)
    as [v6 [E6 X6]]; [bodies float_body_reading|].
  destruct (@get_float_extracted cls self Rules.kwh_high_produced PyNone eq_refl)
    as [v7 [E7 X7]]; [bodies float_body_reading|].
  destruct (@get_float_extracted cls self Rules.kwh_current_consumed PyNone eq_refl)
    as [v8 [E8 X8]]; [bodies float_body_reading|].
  destruct (@get_float_extracted cls self Rules.kwh_current_produced PyNone eq_refl)
    as [v9 [E9 X9]]; [bodies float_body_reading|].
  destruct (@get_int_extracted cls self Rules.gas_device_type PyNone eq_refl)
    as [v10 [E10 X10]];
    [bodies int_body_D|now apply one_digit_in_range|].
  destruct (@get_float_extracted cls self Rules.gas_total (PyInt 0) eq_refl)
    as [v11 [E11 X11]]; [bodies (@float_body_rep 4 3)|].
  destruct (@get_int_extracted cls self Rules.gas_valve PyNone eq_refl)
    as [v12 [E12 X12]];
    [bodies int_body_D|now apply one_digit_in_range|].
  rewrite E1, E2, E3, E4, E5, E6, E7, E8, E9, E10, E11, E12. simpl bind.
  rewrite Eraw in *.
  eexists; split; [reflexivity|].
  unfold fields_extracted; simpl.
  repeat (split; [first [assumption
                        | rewrite <- Eraw; now apply get_extracted]|]).
  rewrite <- Eraw; now apply get_extracted.
Qed.

(** With a tariff capture too long for [int], line 122 raises. *)
Lemma init_raises (cls : P1Packet_class) (data : pydata) :
  tariff_in_range (raw_of data) = false ->
  P1Packet_init cls data = Raise ValueError.
Proof.
  intros Hr. unfold P1Packet_init.
  set (self := {| self_raw := Some match data with
                                   | DList l => join [nl] l
                                   | DStr s => s
                                   end;
                  self_keys := None |}).
  assert (Eraw : attr_raw cls self = raw_of data) by reflexivity.
  rewrite (@get_int_raises cls self Rules.kwh_tariff PyNone eq_refl);
    [reflexivity|bodies int_body_plus|now rewrite Eraw].
Qed.

(** What a constructor call that returns has returned. *)
Lemma init_ok (cls : P1Packet_class) (data : pydata) (p : P1Packet) :
  P1Packet_init cls data = Ok p ->
  tariff_in_range (raw_of data) = true /\
  exists k, p = {| self_raw := Some (raw_of data); self_keys := Some k |}
            /\ fields_extracted (raw_of data) k.
Proof.
  intros H. destruct (tariff_in_range (raw_of data)) eqn:Hr.
  - split; [reflexivity|].
    destruct (init_extracted cls data Hr) as [k [E X]].
    exists k. split; [congruence|exact X].
  - rewrite (init_raises cls data Hr) in H. discriminate.
Qed.

(** The one exception the constructor raises. *)
Lemma init_raise_value (cls : P1Packet_class) (data : pydata) (e : exn) :
  P1Packet_init cls data = Raise e ->
  e = ValueError /\ tariff_in_range (raw_of data) = false.
Proof.
  intros H. destruct (tariff_in_range (raw_of data)) eqn:Hr.
  - destruct (init_extracted cls data Hr) as [k [E _]]. congruence.
  - rewrite (init_raises cls data Hr) in H. split; congruence.
Qed.

(** The fields of a record the constructor returned. *)
Lemma parses_extracted (cls : P1Packet_class) (raw : str) (k : keys) :
  parses cls raw k -> fields_extracted raw k.
Proof.
  intros H. destruct (init_ok cls (DStr raw) H) as [_ [k' [E X]]].
  injection E as <-. exact X.
Qed.

Lemma parses_in_range (cls : P1Packet_class) (raw : str) :
  tariff_in_range raw = true -> exists k, parses cls raw k.
Proof.
  intros H. destruct (init_extracted cls (DStr raw) H) as [k [E _]].
  now exists k.
Qed.

Lemma str_eqb_eq (a b : str) : str_eqb a b = true -> a = b.
Proof.
  unfold str_eqb. destruct (list_eq_dec ascii_dec a b); [auto|discriminate].
Qed.

Lemma first_among_some (r : re) (l : str) (g : cap) (ls : list str) :
  first_among r ls l = true -> match_line r l = Some g ->
  first_some (match_line r) ls = Some g.
Proof.
  intros H Hl. induction ls as [|x ls IH]; simpl in *; [discriminate|].
  destruct (str_eqb x l) eqn:E.
  - apply str_eqb_eq in E; subst x. now rewrite Hl.
  - destruct (match_line r x); [discriminate|]. now apply IH.
Qed.

Lemma first_some_none {A B : Type} (f : A -> option B) (ls : list A) :
  (forall l, In l ls -> f l = None) -> first_some f ls = None.
Proof.
  induction ls as [|x ls IH]; intros H; simpl; [reflexivity|].
  rewrite (H x (or_introl eq_refl)). apply IH. intros l Hl. apply H. now right.
Qed.

(** A field whose rule reads line by line holds what the first matching
    line carries. *)
Lemma extracted_first (conv : pyval -> result pyval) (r : re)
      (d : pyval) (raw l s : str) (v : pyval) :
  anchored r = true -> nl_free r = true ->
  first_line r raw l = true -> match_line r l = Some (Some s) ->
  extracted conv r d raw v -> conv (PyStr s) = Ok v.
Proof.
  intros Ha Hf H1 H2 X. unfold extracted in X.
  rewrite (@search_lines r Ha Hf), (@first_among_some r l _ _ H1 H2) in X.
  destruct X as [s' [[= <-] X]]. exact X.
Qed.

(** And its default when no line matches. *)
Lemma extracted_absent (conv : pyval -> result pyval) (r : re)
      (d : pyval) (raw : str) (v : pyval) :
  anchored r = true -> nl_free r = true ->
  (forall l, In l (split_nl raw) -> match_line r l = None) ->
  extracted conv r d raw v -> v = d.
Proof.
  intros Ha Hf H X. unfold extracted in X.
  rewrite (@search_lines r Ha Hf), (@first_some_none _ _ (match_line r) _ H) in X. exact X.
Qed.

End Constructor.

(** ** The lines a reading rule matches *)

Section Shapes.

Lemma ends_eol_at_eol (r : re) :
  ends_eol r = true ->
  forall p g q g', In (q, g') (run r p g) -> at_eol q = true.
Proof.
  induction r as [| | cs | | r1 IH1 r2 IH2 | r IH | r IH | r IH | n r IH | r IH | r IH];
    simpl; try discriminate; intros He p g q g' H.
  - simpl in H. destruct (at_eol p) eqn:E; [|destruct H].
    destruct H as [[= <- <-]|[]]. exact E.
  - simpl in H. apply in_flat_map in H. destruct H as [[q1 g1] [_ H2]].
    eapply IH2; eassumption.
Qed.

(** A rule that ends with [$] matches a line only as a whole. *)
Lemma match_line_reads (r : re) (l : str) (g : cap) :
  ends_eol r = true -> ~ In nl l ->
  match_line r l = Some g -> reads r l.
Proof.
  unfold match_line. intros He Hl H.
  destruct (run r (Pos true l) None) as [|[q g'] xs] eqn:E; [discriminate|].
  assert (Hin : In (q, g') (run r (Pos true l) None))
    by (rewrite E; now left).
  pose proof (ends_eol_at_eol r He _ _ _ _ Hin) as Hq.
  apply run_reads in Hin. destruct Hin as [w [Ew Rw]]. simpl in Ew.
  unfold at_eol in Hq. destruct (rest q) as [|c s].
  - rewrite app_nil_r in Ew. now subst w.
  - apply Ascii.eqb_eq in Hq; subst c. elim Hl. rewrite Ew.
    apply in_or_app. right. now left.
Qed.

Lemma reads_Str (s : str) : forall w, reads (Str s) w -> w = s.
Proof.
  induction s as [|c s IH]; simpl; intros w H.
  - now inversion H.
  - inversion H as [| | | |r1 r2 w1 w2 H1 H2| | | | | | | | | |]; subst.
    inversion H1; subst. simpl in H3. apply Ascii.eqb_eq in H3; subst.
    simpl. f_equal. now apply IH.
Qed.

Lemma reads_reading (address unit : string) (l : str) :
  reads (Rules.reading address unit) l ->
  exists a b, a <> [] /\ b <> [] /\
              all_digits a = true /\ all_digits b = true /\
              l = reading_line address unit a b.
Proof.
  unfold Rules.reading. intros H.
  repeat match goal with
         | H : reads (Str _) _ |- _ => apply reads_Str in H; subst
         | H : reads (Seq _ _) _ |- _ =>
             let w1 := fresh "w" in
             let w2 := fresh "w" in
             let H1 := fresh "R" in
             let H2 := fresh "R" in
             inversion H as [| | | |? ? w1 w2 H1 H2| | | | | | | | | |];
             subst; clear H
         | H : reads (Grp _) _ |- _ => inversion H; subst; clear H
         | H : reads Bol _ |- _ => inversion H; subst; clear H
         | H : reads Eol _ |- _ => inversion H; subst; clear H
         | H : reads Eps _ |- _ => inversion H; subst; clear H
         | H : reads (Chr (Lit _)) _ |- _ => inversion H; subst; clear H
         | H : reads (Plus Rules.D) _ |- _ => apply reads_plus_D in H; destruct H
         | H : reads (Plus (Chr Digit)) _ |- _ => apply reads_plus_D in H; destruct H
         | H : in_set (Lit _) _ = true |- _ =>
             simpl in H; apply Ascii.eqb_eq in H; subst
         end.
  match goal with
  | Ha : ?a <> [], Hb : ?b <> [] |- _ /\ _ => idtac
  | Ha : ?a <> [], Hb : ?b <> [], Da : all_digits ?a = true |- _ =>
      first [ exists a, b; repeat (split; [assumption|]);
              unfold reading_line, numeral; simpl;
              repeat rewrite <- app_assoc; simpl; reflexivity
            | exists b, a; repeat (split; [assumption|]);
              unfold reading_line, numeral; simpl;
              repeat rewrite <- app_assoc; simpl; reflexivity ]
  end.
Qed.

Lemma run_Str (s : str) :
  forall b t g, exists b', run (Str s) (Pos b (s ++ t)) g = [(Pos b' t, g)].
Proof.
  induction s as [|c s IH]; intros b t g; simpl.
  - now exists b.
  - rewrite Ascii.eqb_refl. simpl. rewrite app_nil_r. apply IH.
Qed.

(** Heads of result lists: the match the search reports. *)
Lemma head_seq (r1 r2 : re) (p q1 q2 : pos) (g g1 g2 : cap)
      (t1 t2 : list (pos * cap)) :
  run r1 p g = (q1, g1) :: t1 -> run r2 q1 g1 = (q2, g2) :: t2 ->
  exists t, run (Seq r1 r2) p g = (q2, g2) :: t.
Proof.
  intros H1 H2. simpl. rewrite H1. simpl. rewrite H2. simpl. eauto.
Qed.

Lemma is_digit_not_nl (c : ascii) : is_digit c = true -> Ascii.eqb c nl = false.
Proof.
  intros H. destruct (Ascii.eqb c nl) eqn:E; [|reflexivity].
  apply Ascii.eqb_eq in E; subst c. discriminate.
Qed.

(** A greedy run of digits first takes them all. *)
Lemma plus_digits_head (x : str) :
  forall n b t g,
    x <> [] -> all_digits x = true -> no_digit_next t ->
    length (x ++ t) <= n ->
    exists tl, plus_loop (run Rules.D) n (Pos b (x ++ t)) g
               = (Pos false t, g) :: tl.
Proof.
  set (body := run Rules.D).
  assert (Hcons : forall b c s g,
             body (Pos b (c :: s)) g
             = if is_digit c then [(Pos (Ascii.eqb c nl) s, g)] else [])
    by reflexivity.
  assert (Hnil : forall b g, body (Pos b []) g = []) by reflexivity.
  clearbody body.
  induction x as [|c x IH]; intros n b t g Nx Dx Ht Hn; [now elim Nx|].
  simpl in Dx. apply andb_true_iff in Dx. destruct Dx as [Dc Dx].
  destruct n as [|n]; [simpl in Hn; lia|].
  simpl. rewrite Hcons, Dc. simpl. rewrite app_nil_r.
  assert (P : progress (Pos b (c :: x ++ t)) (Pos (Ascii.eqb c nl) (x ++ t)) = true).
  { unfold progress; simpl. apply Nat.ltb_lt. lia. }
  rewrite P, (is_digit_not_nl c Dc).
  destruct x as [|c2 x].
  - simpl. exists [].
    assert (E : plus_loop body n (Pos false t) g = []).
    { destruct n as [|n]; simpl; destruct t as [|c' t'];
        rewrite ?Hnil, ?Hcons; simpl; try reflexivity;
        simpl in Ht; rewrite Ht; reflexivity. }
    now rewrite E.
  - destruct (IH n false t g) as [tl E]; auto; [discriminate|simpl in *; lia|].
    rewrite E. simpl. eauto.
Qed.

Lemma run_plus_digits (x t : str) (b : bool) (g : cap) :
  x <> [] -> all_digits x = true -> no_digit_next t ->
  exists tl, run (Plus Rules.D) (Pos b (x ++ t)) g = (Pos false t, g) :: tl.
Proof.
  intros. simpl. now apply plus_digits_head.
Qed.

(** A reading rule matches the lines of its form, and captures the
    numeral. *)
Lemma match_reading_line (address unit : string) (a b : str) :
  a <> [] -> b <> [] -> all_digits a = true -> all_digits b = true ->
  match_line (Rules.reading address unit) (reading_line address unit a b)
  = Some (Some (numeral a b)).
Proof.
  intros Na Nb Da Db.
  set (tail := T "*" ++ T unit ++ T ")").
  destruct (run_Str (T address) true (T "(" ++ numeral a b ++ tail) None)
    as [b1 E1].
  destruct (run_Str (T "(") b1 (numeral a b ++ tail) None) as [b2 E2].
  destruct (@run_plus_digits a ("."%char :: b ++ tail) b2 None Na Da eq_refl)
    as [t3 E3].
  assert (E4 : run (Chr (Lit ".")) (Pos false ("."%char :: b ++ tail)) None
               = [(Pos false (b ++ tail), None)]) by reflexivity.
  destruct (@run_plus_digits b tail false None Nb Db eq_refl) as [t5 E5].
  destruct (run_Str (T "*") false (T unit ++ T ")") (Some (numeral a b)))
    as [b6 E6].
  destruct (run_Str (T unit) b6 (T ")") (Some (numeral a b))) as [b7 E7].
  destruct (run_Str (T ")") b7 [] (Some (numeral a b))) as [b8 E8].
  rewrite app_nil_r in E8.
  assert (Ebody : exists t,
             run (Seq (Plus Rules.D) (Seq (Chr (Lit ".")) (Plus Rules.D)))
                 (Pos b2 (numeral a b ++ tail)) None
             = (Pos false tail, None) :: t).
  { unfold numeral. rewrite <- app_assoc. simpl app.
    destruct (@head_seq _ _ _ _ _ _ _ _ _ _ E4 E5) as [t E].
    exact (@head_seq _ _ _ _ _ _ _ _ _ _ E3 E). }
  destruct Ebody as [tb Eb].
  assert (Egrp : exists t,
             run (Grp (Seq (Plus Rules.D) (Seq (Chr (Lit ".")) (Plus Rules.D))))
                 (Pos b2 (numeral a b ++ tail)) None
             = (Pos false tail, Some (numeral a b)) :: t).
  { simpl run at 1. simpl in Eb. rewrite Eb. simpl map.
    rewrite taken_app. eauto. }
  destruct Egrp as [tg Eg].
  assert (Eeol : run Eol (Pos b8 []) (Some (numeral a b))
                 = [(Pos b8 [], Some (numeral a b))]) by reflexivity.
  destruct (@head_seq _ _ _ _ _ _ _ _ _ _ E8 Eeol) as [t9 E9].
  destruct (@head_seq _ _ _ _ _ _ _ _ _ _ E7 E9) as [t10 E10].
  destruct (@head_seq _ _ _ _ _ _ _ _ _ _ E6 E10) as [t11 E11].
  destruct (@head_seq _ _ _ _ _ _ _ _ _ _ Eg E11) as [t12 E12].
  destruct (@head_seq _ _ _ _ _ _ _ _ _ _ E2 E12) as [t13 E13].
  destruct (@head_seq _ _ _ _ _ _ _ _ _ _ E1 E13) as [t14 E14].
  assert (Ebol : run Bol (Pos true (T address ++ T "(" ++ numeral a b ++ tail))
                     None
                 = [(Pos true (T address ++ T "(" ++ numeral a b ++ tail), None)])
    by reflexivity.
  destruct (@head_seq _ _ _ _ _ _ _ _ _ _ Ebol E14) as [t15 E15].
  assert (M : run (Rules.reading address unit)
                   (Pos true (reading_line address unit a b)) None
               = (Pos b8 [], Some (numeral a b)) :: t15) by exact E15.
  unfold match_line. rewrite M. reflexivity.
Qed.

(** The lines a reading rule matches are exactly those of its form. *)
Lemma reading_line_shape (address unit : string) (l : str) :
  ~ In nl l ->
  (match_line (Rules.reading address unit) l <> None <->
   exists a b, a <> [] /\ b <> [] /\
               all_digits a = true /\ all_digits b = true /\
               l = reading_line address unit a b).
Proof.
  intros Hl. split.
  - intros H. destruct (match_line (Rules.reading address unit) l) as [g|] eqn:E;
      [|now elim H].
    apply match_line_reads in E; auto. now apply reads_reading.
  - intros [a [b [Na [Nb [Da [Db ->]]]]]].
    rewrite match_reading_line; auto. discriminate.
Qed.

Lemma split_nl_nl_free (s : str) :
  forall l, In l (split_nl s) -> ~ In nl l.
Proof.
  induction s as [|c s IH]; simpl; intros l H.
  - destruct H as [<-|[]]. intros [].
  - destruct (Ascii.eqb c nl) eqn:E.
    + destruct H as [<-|H]; [intros []|now apply IH].
    + destruct (split_nl s) as [|x xs].
      * destruct H as [<-|[]]. intros [H|[]]. subst c.
        now rewrite Ascii.eqb_refl in E.
      * destruct H as [<-|H].
        -- intros [H|H]; [subst c; now rewrite Ascii.eqb_refl in E|].
           apply (IH x); [now left|exact H].
        -- apply IH. now right.
Qed.

(** A text without a line of a reading rule's form has no line the rule
    matches. *)
Lemma no_reading_line (address unit : string) (raw : str) :
  (forall a b, a <> [] -> b <> [] ->
     all_digits a = true -> all_digits b = true ->
     has_line (reading_line address unit a b) raw = false) ->
  no_line (Rules.reading address unit) raw = true.
Proof.
  intros H. unfold no_line. apply forallb_forall. intros l Hl.
  destruct (match_line (Rules.reading address unit) l) as [g|] eqn:E;
    [|reflexivity].
  assert (Hm : match_line (Rules.reading address unit) l <> None)
    by (rewrite E; discriminate).
  apply reading_line_shape in Hm; [|now apply (split_nl_nl_free raw)].
  destruct Hm as [a [b [Na [Nb [Da [Db ->]]]]]].
  specialize (H a b Na Nb Da Db). unfold has_line in H.
  assert (Hx : existsb (str_eqb (reading_line address unit a b)) (split_nl raw)
               = true).
  { apply existsb_exists. exists (reading_line address unit a b).
    split; [exact Hl|]. unfold str_eqb.
    now destruct (list_eq_dec ascii_dec _ _). }
  congruence.
Qed.

End Shapes.

(** ** The rules on a few lines *)

(** [[^)]+] reads across a newline: an equipment id may span lines. *)
Example kwh_eid_spans_lines :
  search Rules.kwh_eid (T "0-0:96.1.1(4B41" ++ nl :: T "4C37)")
  = Some (Some (T "4B41" ++ nl :: T "4C37")).
Proof. reflexivity. Qed.

(** A repeated group keeps its last round. *)
Example gas_device_type_last_digit :
  search Rules.gas_device_type (T "0-1:24.1.0(03)") = Some (Some (T "3")).
Proof. reflexivity. Qed.

(** The gas total with its address, a timestamp and a unit, and on a
    line of its own. *)
Example gas_total_prefixed :
  search Rules.gas_total (T "0-1:24.2.1(150117180000S)(00947.680*m3)")
  = Some (Some (T "00947.680")).
Proof. reflexivity. Qed.

Example gas_total_bare :
  search Rules.gas_total
         (T "0-1:24.3.0(120517020000)(08)(60)(1)(0-1:24.2.1)(m3)"
          ++ nl :: T "(00947.680)")
  = Some (Some (T "00947.680")).
Proof. reflexivity. Qed.

(** Empty parentheses are no message. *)
Example msg_code_empty :
  search Rules.msg_code (T "0-0:96.13.1()") = None.
Proof. reflexivity. Qed.

(** ** Claims about the line loop *)

(** The state a footer leaves behind when it completes the packet. *)
Lemma footer_round (st : locals) (line : str) :
  startswith (T "!") line = true -> complete_packet st = false ->
  loop_body st (Line line)
  = if max_lines st * 2 + 2 <? length (lines st) + 1
    then Raise (SmartMeterError (StuckInLoop (length (lines st) + 1)))
    else Ok {| lines := lines st ++ [line];
               lines_read := lines_read st + 1;
               complete_packet := max_lines st <? length (lines st) + 1;
               max_lines := max_lines st |}.
Proof.
  intros Hl Hc. unfold loop_body, check_complete, buffer_line.
  rewrite (startswith_footer_not_header _ Hl), Hl. cbn [lines max_lines].
  rewrite length_app. cbn [length andb].
  destruct (max_lines st <? length (lines st) + 1) eqn:G;
    unfold check_runaway; cbn [lines max_lines complete_packet lines_read];
    rewrite length_app; cbn [length];
    destruct (max_lines st * 2 + 2 <? length (lines st) + 1);
    try reflexivity.
  now rewrite Hc.
Qed.

(** C2, as amended.  While [read_one_packet] is reading, a line that
    begins with [!] ends the loop if and only if the buffer, that line
    counted, holds strictly more lines than [max_lines] and at most
    [2 * max_lines + 2]; the constructor then runs on the buffered
    lines.  When the buffer held fewer than [max_lines] lines the call
    goes on reading with the line buffered, and beyond
    [2 * max_lines + 2] lines it fails with the stuck-in-loop error. *)
Theorem footer_completes_iff_gate :
  forall (cls : P1Packet_class) (evs : list read_event) (st : locals)
         (line : str),
    read_loop locals0 evs = Reading st ->
    startswith (T "!") line = true ->
    let n := length (lines st) + 1 in
    ((exists st', read_loop locals0 (evs ++ [Line line]) = Finished st')
     <-> max_lines st < n <= max_lines st * 2 + 2) /\
    (max_lines st < n <= max_lines st * 2 + 2 ->
     read_loop locals0 (evs ++ [Line line])
     = Finished {| lines := lines st ++ [line];
                   lines_read := lines_read st + 1;
                   complete_packet := true;
                   max_lines := max_lines st |} /\
     read_one_packet cls (evs ++ [Line line])
     = match P1Packet_init cls (DStr (join [nl] (lines st ++ [line]))) with
       | Ok p => Finished p
       | Raise e => Raised e
       end) /\
    (n <= max_lines st ->
     read_loop locals0 (evs ++ [Line line])
     = Reading {| lines := lines st ++ [line];
                  lines_read := lines_read st + 1;
                  complete_packet := false;
                  max_lines := max_lines st |}) /\
    (max_lines st * 2 + 2 < n ->
     read_loop locals0 (evs ++ [Line line])
     = Raised (SmartMeterError (StuckInLoop n))).
Proof.
  intros cls evs st line Hr Hl n.
  pose proof (reading_not_complete evs _ Hr) as Hc.
  pose proof (read_loop_snoc evs (Line line) _ Hr) as S.
  rewrite (footer_round st line Hl Hc) in S. fold n in S.
  assert (Hfin : max_lines st < n <= max_lines st * 2 + 2 ->
                 read_loop locals0 (evs ++ [Line line])
                 = Finished {| lines := lines st ++ [line];
                               lines_read := lines_read st + 1;
                               complete_packet := true;
                               max_lines := max_lines st |}).
  { intros [H1 H2]. rewrite S.
    destruct (Nat.ltb_spec (max_lines st * 2 + 2) n); [lia|].
    destruct (Nat.ltb_spec (max_lines st) n); [reflexivity|lia]. }
  split; [|split; [|split]].
  - split; [|intros H; eexists; exact (Hfin H)].
    intros [st' H]. rewrite S in H.
    destruct (Nat.ltb_spec (max_lines st * 2 + 2) n); [discriminate|].
    cbn [complete_packet] in H.
    destruct (Nat.ltb_spec (max_lines st) n); [lia|discriminate].
  - intros H. split; [exact (Hfin H)|].
    unfold read_one_packet. rewrite (Hfin H). reflexivity.
  - intros H. rewrite S.
    destruct (Nat.ltb_spec (max_lines st * 2 + 2) n); [lia|].
    destruct (Nat.ltb_spec (max_lines st) n); [lia|reflexivity].
  - intros H. rewrite S.
    destruct (Nat.ltb_spec (max_lines st * 2 + 2) n); [reflexivity|lia].
Qed.

Lemma footer_completes_iff_gate_witness :
  read_loop locals0 (repeat (Line (T "x")) 35 ++ [Line (T "!")])
  = Finished {| lines := repeat (T "x") 35 ++ [T "!"];
                lines_read := 35 + 1;
                complete_packet := true;
                max_lines := 35 |}.
Proof.
  apply (footer_completes_iff_gate P1Packet_class0
           (repeat (Line (T "x")) 35)
           (st := {| lines := repeat (T "x") 35; lines_read := 35;
                     complete_packet := false; max_lines := 35 |})
           (T "!") eq_refl eq_refl).
  simpl. lia.
Defined.

(** C2 as stated fails, whichever way [at that point] is read.  With
    the default [max_lines] of 35, a footer that arrives while the
    buffer holds 35 lines, at most the expected maximum, ends the
    telegram; and a footer that arrives while the buffer holds 72
    lines, strictly more than the expected maximum with or without the
    footer, does not: the call fails. *)
Lemma footer_at_the_maximum :
  let evs := repeat (Line (T "x")) 35 in
  let evs' := repeat (Line (T "x")) 72 in
  (exists st,
      read_loop locals0 evs = Reading st /\
      length (lines st) <= max_lines st /\
      exists p, read_one_packet P1Packet_class0 (evs ++ [Line (T "!")])
                = Finished p) /\
  (exists st,
      read_loop locals0 evs' = Reading st /\
      max_lines st < length (lines st) /\
      read_one_packet P1Packet_class0 (evs' ++ [Line (T "!")])
      = Raised (SmartMeterError (StuckInLoop 73))).
Proof.
  split.
  - eexists. split; [vm_compute; reflexivity|].
    split; [vm_compute; lia|].
    eexists. vm_compute. reflexivity.
  - eexists. split; [vm_compute; reflexivity|].
    split; [vm_compute; lia|]. vm_compute. reflexivity.
Qed.

(** What the next line does to a call that is reading: it fails with
    the stuck-in-loop error exactly when the line takes the buffer
    beyond [2 * max_lines + 2] lines. *)
Lemma runaway_iff (cls : P1Packet_class) (evs : list read_event)
      (st : locals) (line : str) :
  read_loop locals0 evs = Reading st ->
  let st' := buffer_line st line in
  read_one_packet cls (evs ++ [Line line])
  = Raised (SmartMeterError (StuckInLoop (length (lines st'))))
  <-> max_lines st' * 2 + 2 < length (lines st').
Proof.
  intros Hr st'.
  destruct (check_complete_fields st' line) as [Cl [Cm _]].
  unfold read_one_packet. rewrite (read_loop_snoc evs _ _ Hr). simpl.
  fold st'. unfold check_runaway. rewrite Cl, Cm.
  destruct (max_lines st' * 2 + 2 <? length (lines st')) eqn:E.
  - apply Nat.ltb_lt in E. tauto.
  - apply Nat.ltb_ge in E. split; [|lia].
    destruct (complete_packet (check_complete st' line)); [|discriminate].
    destruct (P1Packet_init cls
                (DStr (join [nl] (lines (check_complete st' line)))))
      as [p|e] eqn:Ei; [discriminate|].
    apply init_raise_value in Ei. destruct Ei as [-> _]. discriminate.
Qed.

(** C3, as amended.  While [read_one_packet] is reading, the buffer is
    within [2 * max_lines + 2] lines; a next line that does not complete
    the packet makes the call fail with the stuck-in-loop error exactly
    when it takes the buffer beyond that bound; and a footer that takes
    the buffer beyond [max_lines] and to at most [2 * max_lines + 2]
    lines, the footer counted, ends the loop: the call does not fail
    with this error, and it returns the packet of the buffered lines
    whenever the constructor does. *)
Theorem runaway_guard :
  forall (cls : P1Packet_class) (evs : list read_event) (st : locals)
         (line : str),
    read_loop locals0 evs = Reading st ->
    let st' := buffer_line st line in
    length (lines st) <= max_lines st * 2 + 2 /\
    (completing st' line = false ->
     (read_one_packet cls (evs ++ [Line line])
      = Raised (SmartMeterError (StuckInLoop (length (lines st'))))
      <-> max_lines st' * 2 + 2 < length (lines st'))) /\
    (startswith (T "!") line = true ->
     max_lines st' < length (lines st') ->
     length (lines st') <= max_lines st' * 2 + 2 ->
     (exists st'', read_loop locals0 (evs ++ [Line line]) = Finished st''
                   /\ lines st'' = lines st') /\
     (forall n, read_one_packet cls (evs ++ [Line line])
                <> Raised (SmartMeterError (StuckInLoop n))) /\
     (tariff_in_range (join [nl] (lines st')) = true ->
      exists k, read_one_packet cls (evs ++ [Line line])
                = Finished {| self_raw := Some (join [nl] (lines st'));
                              self_keys := Some k |})).
Proof.
  intros cls evs st line Hr st'.
  split; [apply (reading_bound evs locals0 (st' := st)); [simpl; lia|exact Hr]|].
  split; [intros _; exact (runaway_iff cls evs line Hr)|].
  intros Hl Hgt Hle.
  destruct (check_complete_fields st' line) as [Cl [Cm _]].
  assert (Ec : complete_packet (check_complete st' line) = true).
  { unfold check_complete. rewrite Hl; simpl.
    apply Nat.ltb_lt in Hgt. now rewrite Hgt. }
  assert (Hfin : read_loop locals0 (evs ++ [Line line])
                 = Finished (check_complete st' line)).
  { rewrite (read_loop_snoc evs _ _ Hr). simpl. fold st'.
    unfold check_runaway. rewrite Cl, Cm.
    assert (E : (max_lines st' * 2 + 2 <? length (lines st')) = false)
      by (apply Nat.ltb_ge; lia).
    now rewrite E, Ec. }
  split; [exists (check_complete st' line); now split|].
  unfold read_one_packet. rewrite Hfin, Cl. split.
  - intros n.
    destruct (P1Packet_init cls (DStr (join [nl] (lines st'))))
      as [p|e] eqn:Ei; [discriminate|].
    apply init_raise_value in Ei. destruct Ei as [-> _]. discriminate.
  - intros Hin.
    destruct (init_extracted cls (DStr (join [nl] (lines st'))) Hin)
      as [k [-> _]].
    now exists k.
Qed.

Lemma runaway_guard_witness :
  let evs := repeat (Line (T "x")) 35 in
  let st := {| lines := repeat (T "x") 35; lines_read := 35;
               complete_packet := false; max_lines := 35 |} in
  read_loop locals0 evs = Reading st /\
  length (lines st) <= max_lines st * 2 + 2 /\
  exists k, read_one_packet P1Packet_class0 (evs ++ [Line (T "!")])
            = Finished {| self_raw := Some (join [nl] (lines st ++ [T "!"]));
                          self_keys := Some k |}.
Proof.
  intros evs st.
  assert (Hr : read_loop locals0 evs = Reading st) by reflexivity.
  destruct (runaway_guard P1Packet_class0 evs (T "!") Hr) as [Hb [_ Hf]].
  split; [exact Hr|]. split; [exact Hb|].
  destruct Hf as [_ [_ Hf]];
    [reflexivity | simpl; lia | simpl; lia |].
  apply Hf. reflexivity.
Defined.

(** C3 as stated fails: with the default [max_lines] of 35, after 72
    buffered lines a footer arrives while the buffer (73 lines) exceeds
    the expected maximum, the packet is marked complete, and the call
    still fails with the stuck-in-loop error. *)
Lemma runaway_hits_footer :
  let evs := repeat (Line (T "x")) 72 in
  exists st,
    read_loop locals0 evs = Reading st /\
    startswith (T "!") (T "!") = true /\
    max_lines (buffer_line st (T "!")) < length (lines (buffer_line st (T "!"))) /\
    complete_packet (check_complete (buffer_line st (T "!")) (T "!")) = true /\
    read_one_packet P1Packet_class0 (evs ++ [Line (T "!")])
    = Raised (SmartMeterError (StuckInLoop 73)).
Proof.
  eexists. split; [vm_compute; reflexivity|].
  split; [reflexivity|]. split; [vm_compute; lia|].
  split; vm_compute; reflexivity.
Qed.

(** C4, as amended.  While [read_one_packet] is reading, a header line
    beginning with [/ISk5] is taken in and the call goes on reading;
    the line sets [max_lines] to 13 when it ends in [1003] and to 19
    when it ends in [1004]; with any other ending it leaves [max_lines]
    as it was, which is what the latest header ending in [1003] or
    [1004] set earlier in the call, and 35 when no such header came
    earlier. *)
Theorem header_sets_max_lines :
  forall (evs : list read_event) (st : locals) (line : str),
    read_loop locals0 evs = Reading st ->
    startswith (T "/ISk5") line = true ->
    let st' := buffer_line st line in
    read_loop locals0 (evs ++ [Line line]) = Reading st' /\
    (endswith (T "1003") line = true -> max_lines st' = 13) /\
    (endswith (T "1004") line = true -> max_lines st' = 19) /\
    (endswith (T "1003") line = false -> endswith (T "1004") line = false ->
     max_lines st' = max_lines st /\
     max_lines st = hinted_max evs /\
     (existsb hinted_header evs = false -> max_lines st' = 35)).
Proof.
  intros evs st line Hr Hh st'.
  split.
  { pose proof (reading_not_complete evs _ Hr) as Hc.
    pose proof (startswith_header_not_footer _ Hh) as Hf.
    assert (El : lines st' = [line])
      by (unfold st', buffer_line; now rewrite Hh).
    assert (Ec : complete_packet st' = false)
      by (unfold st', buffer_line; now rewrite Hh).
    assert (E1 : check_complete st' line = st')
      by (unfold check_complete; now rewrite Hf).
    rewrite (read_loop_snoc evs _ _ Hr). simpl loop_body. fold st'.
    rewrite E1. unfold check_runaway. rewrite El.
    assert (E : (max_lines st' * 2 + 2 <? length [line]) = false)
      by (apply Nat.ltb_ge; simpl; lia).
    now rewrite E, Ec. }
  unfold st', buffer_line. rewrite Hh.
  split; [|split].
  - intros H3. rewrite H3, (endswith_1003_not_1004 _ H3). reflexivity.
  - intros H4. rewrite H4. reflexivity.
  - intros H3 H4. rewrite H3, H4. simpl. split; [reflexivity|]. split.
    + rewrite (reading_hinted_max evs locals0 Hr). unfold hinted_max.
      destruct (find hinted_header (rev evs)) as [[l|]|]; reflexivity.
    + intros Hn. apply (unhinted_max_lines evs locals0 Hn Hr).
Qed.

Lemma header_sets_max_lines_witness :
  let evs := [Line (T "/ISk5\2ME382-1003"); Line (T "x")] in
  let line := T "/ISk5\2ME382-1005" in
  let st := {| lines := [T "/ISk5\2ME382-1003"; T "x"]; lines_read := 2;
               complete_packet := false; max_lines := 13 |} in
  let st' := buffer_line st line in
  read_loop locals0 (evs ++ [Line line]) = Reading st' /\
  (endswith (T "1003") line = true -> max_lines st' = 13) /\
  (endswith (T "1004") line = true -> max_lines st' = 19) /\
  (endswith (T "1003") line = false -> endswith (T "1004") line = false ->
   max_lines st' = max_lines st /\
   max_lines st = hinted_max evs /\
   (existsb hinted_header evs = false -> max_lines st' = 35)).
Proof.
  apply (header_sets_max_lines
           [Line (T "/ISk5\2ME382-1003"); Line (T "x")]
           (T "/ISk5\2ME382-1005")); reflexivity.
Defined.

(** C4 as stated fails: a header with another ending that arrives after
    a header ending in [1003] leaves [max_lines] at 13, not 35. *)
Lemma header_keeps_earlier_max_lines :
  let h1 := T "/ISk5\2ME382-1003" in
  let h2 := T "/ISk5\2ME382-1005" in
  exists st,
    read_loop locals0 [Line h1] = Reading st /\
    startswith (T "/ISk5") h2 = true /\
    endswith (T "1003") h2 = false /\ endswith (T "1004") h2 = false /\
    max_lines (buffer_line st h2) = 13 /\
    exists st', read_loop locals0 [Line h1; Line h2] = Reading st' /\
                max_lines st' = 13 /\ max_lines st' <> 35.
Proof.
  eexists. split; [vm_compute; reflexivity|].
  repeat (split; [reflexivity|]).
  eexists. split; [vm_compute; reflexivity|].
  split; [reflexivity|discriminate].
Qed.

(** C8.  While [read_one_packet] is reading, a line that begins with
    [/ISk5] leaves the buffer holding that line alone, whatever it held
    before, and the call goes on reading. *)
Theorem header_resets_buffer :
  forall (evs : list read_event) (st : locals) (line : str),
    read_loop locals0 evs = Reading st ->
    startswith (T "/ISk5") line = true ->
    exists st',
      loop_body st (Line line) = Ok st' /\
      read_loop locals0 (evs ++ [Line line]) = Reading st' /\
      lines st' = [line].
Proof.
  intros evs st line Hr Hh.
  pose proof (reading_not_complete evs _ Hr) as Hc.
  pose proof (startswith_header_not_footer _ Hh) as Hf.
  assert (El : lines (buffer_line st line) = [line])
    by (unfold buffer_line; now rewrite Hh).
  assert (Ec : complete_packet (buffer_line st line) = false)
    by (unfold buffer_line; now rewrite Hh).
  assert (E1 : check_complete (buffer_line st line) line = buffer_line st line)
    by (unfold check_complete; now rewrite Hf).
  assert (E2 : loop_body st (Line line) = Ok (buffer_line st line)).
  { simpl. rewrite E1. unfold check_runaway. rewrite El; simpl.
    assert (E : (max_lines (buffer_line st line) * 2 + 2 <? 1) = false)
      by (apply Nat.ltb_ge; lia).
    now rewrite E. }
  exists (buffer_line st line). split; [exact E2|]. split; [|exact El].
  rewrite (read_loop_snoc evs _ _ Hr), E2, Ec. reflexivity.
Qed.

Lemma header_resets_buffer_witness :
  exists st',
    loop_body (buffer_line locals0 (T "0-0:96.14.0(0001)"))
              (Line (T "/ISk5\2ME382-1004")) = Ok st' /\
    read_loop locals0 ([Line (T "0-0:96.14.0(0001)")]
                       ++ [Line (T "/ISk5\2ME382-1004")]) = Reading st' /\
    lines st' = [T "/ISk5\2ME382-1004"].
Proof.
  apply (header_resets_buffer [Line (T "0-0:96.14.0(0001)")]
                              (T "/ISk5\2ME382-1004")); reflexivity.
Defined.

(** ** Claims about the constructor *)

Lemma no_line_spec (r : re) (raw : str) :
  no_line r raw = true ->
  forall l, In l (split_nl raw) -> match_line r l = None.
Proof.
  unfold no_line. rewrite forallb_forall. intros H l Hl.
  specialize (H l Hl). now destruct (match_line r l).
Qed.

(** A tariff line that [int] converts puts the text in range. *)
Lemma first_line_in_range (raw l s : str) (v : pyval) :
  first_line Rules.kwh_tariff raw l = true ->
  match_line Rules.kwh_tariff l = Some (Some s) ->
  py_int (PyStr s) = Ok v ->
  tariff_in_range raw = true.
Proof.
  intros H1 H2 Hv. unfold tariff_in_range, capture_in_range.
  rewrite (@search_lines Rules.kwh_tariff eq_refl eq_refl),
          (@first_among_some Rules.kwh_tariff l _ _ H1 H2).
  apply Nat.leb_le. exact (int_ok_length s Hv).
Qed.

(** C5.  For every list of lines, the constructor given the list and
    the constructor given the lines joined by newlines have the same
    outcome, the same packet field for field when they return; the text
    a returned packet retains, which is its [str], is the lines joined
    by newlines; and both return unless the tariff capture is too long
    for [int]. *)
Theorem list_and_string_agree :
  forall (cls : P1Packet_class) (ls : list str),
    P1Packet_init cls (DList ls) = P1Packet_init cls (DStr (join [nl] ls)) /\
    (forall p, P1Packet_init cls (DList ls) = Ok p ->
               P1Packet_str cls p = join [nl] ls) /\
    (tariff_in_range (join [nl] ls) = true ->
     exists p, P1Packet_init cls (DList ls) = Ok p).
Proof.
  intros cls ls. split; [reflexivity|]. split.
  - intros p H. destruct (init_ok cls (DList ls) H) as [_ [k [-> _]]].
    reflexivity.
  - intros H. destruct (init_extracted cls (DList ls) H) as [k [E _]].
    eexists. exact E.
Qed.

Lemma list_and_string_agree_witness :
  exists p,
    P1Packet_init P1Packet_class0 (DList telegram_bare) = Ok p /\
    P1Packet_init P1Packet_class0 (DStr (join [nl] telegram_bare)) = Ok p /\
    P1Packet_str P1Packet_class0 p = join [nl] telegram_bare.
Proof.
  destruct (list_and_string_agree P1Packet_class0 telegram_bare)
    as [E [S R]].
  destruct (R eq_refl) as [p Hp].
  exists p. split; [exact Hp|]. split; [now rewrite <- E|exact (S p Hp)].
Defined.

(** C9.  For every text, two constructor calls have the same outcome,
    the same packet when they return, whatever the class attribute
    [_raw], the only state such calls could share, holds at either
    call; and both return unless the tariff capture is too long for
    [int]. *)
Theorem parse_is_a_function_of_its_input :
  forall (cls1 cls2 : P1Packet_class) (raw : str),
    P1Packet_init cls1 (DStr raw) = P1Packet_init cls2 (DStr raw) /\
    (tariff_in_range raw = true ->
     exists k, parses cls1 raw k /\ parses cls2 raw k).
Proof.
  intros cls1 cls2 raw. split; [reflexivity|].
  intros H. destruct (init_extracted cls1 (DStr raw) H) as [k [E _]].
  exists k. split; exact E.
Qed.

Lemma parse_is_a_function_of_its_input_witness :
  exists k,
    parses P1Packet_class0 (join [nl] telegram_bare) k /\
    parses {| cls_raw := T "!" |} (join [nl] telegram_bare) k.
Proof.
  destruct (parse_is_a_function_of_its_input P1Packet_class0
              {| cls_raw := T "!" |} (join [nl] telegram_bare)) as [_ R].
  exact (R eq_refl).
Defined.

(** C7, as amended.  For every text whose tariff capture, if there is
    one, has at most [int_max_str_digits] digits, the constructor
    returns a packet, raising nothing, and every field of the packet is
    what its rule extracts: the rule's default when the pattern matches
    nowhere in the text, the converted capture of the first match
    otherwise.  With a longer tariff capture [int] raises [ValueError]
    and the constructor returns nothing. *)
Theorem parse_total :
  forall (cls : P1Packet_class) (raw : str),
    (tariff_in_range raw = true ->
     exists k, parses cls raw k /\ fields_extracted raw k) /\
    (tariff_in_range raw = false ->
     P1Packet_init cls (DStr raw) = Raise ValueError).
Proof.
  intros cls raw. split; intros H.
  - exact (init_extracted cls (DStr raw) H).
  - exact (init_raises cls (DStr raw) H).
Qed.

Lemma parse_total_witness :
  exists k, parses P1Packet_class0 (join [nl] telegram_scenario) k /\
            fields_extracted (join [nl] telegram_scenario) k.
Proof.
  destruct (parse_total P1Packet_class0 (join [nl] telegram_scenario))
    as [R _].
  exact (R eq_refl).
Defined.

(** C7 as stated fails: on a tariff line of 4301 digits the constructor
    raises [ValueError] and returns no record. *)
Lemma long_tariff_raises :
  length telegram_long_tariff = 4314 /\
  P1Packet_init P1Packet_class0 (DStr telegram_long_tariff)
  = Raise ValueError.
Proof.
  split; vm_compute; reflexivity.
Qed.

(** C6.  For every text with no line matching the high-tariff
    production rule, [keys['kwh']['high']['produced']] is [None] in the
    record the constructor returns; and for every text with no line
    matching the gas-total rule, [keys['gas']['total']] is the integer
    0.  The constructor returns a record unless the tariff capture is
    too long for [int]. *)
Theorem absent_defaults :
  forall (cls : P1Packet_class) (raw : str),
    (tariff_in_range raw = true -> exists k, parses cls raw k) /\
    (forall k, parses cls raw k ->
       (no_line Rules.kwh_high_produced raw = true ->
        produced (high (kwh k)) = PyNone) /\
       (no_line Rules.gas_total raw = true ->
        total (gas k) = PyInt 0)).
Proof.
  intros cls raw. split; [apply parses_in_range|].
  intros k Hk. pose proof (parses_extracted Hk) as X.
  destruct X as (_ & _ & _ & _ & _ & _ & _ & _ & Xp & _ & _ & _ & _ & Xt & _).
  split; intros H.
  - apply (@extracted_absent py_float Rules.kwh_high_produced PyNone raw _
             eq_refl eq_refl (no_line_spec _ _ H) Xp).
  - apply (@extracted_absent py_float Rules.gas_total (PyInt 0) raw _
             eq_refl eq_refl (no_line_spec _ _ H) Xt).
Qed.

Lemma absent_defaults_witness :
  exists k, parses P1Packet_class0 (join [nl] telegram_bare) k /\
    produced (high (kwh k)) = PyNone /\ total (gas k) = PyInt 0.
Proof.
  destruct (absent_defaults P1Packet_class0 (join [nl] telegram_bare))
    as [R H].
  destruct (R eq_refl) as [k P].
  exists k. split; [exact P|].
  destruct (H k P) as [H1 H2]. split; [apply H1|apply H2]; reflexivity.
Defined.

#[local] Arguments is_digit : simpl never.
#[local] Arguments Ascii.eqb !a !b.

(** The gas-total rule on a bare parenthesised reading. *)
Lemma gas_total_bare_line (a b l : str) :
  length a = 5 -> length b = 3 ->
  all_digits a = true -> all_digits b = true ->
  l = T "(" ++ numeral a b ++ T ")" \/ l = T "(" ++ numeral a b ++ T "*m3)" ->
  match_line Rules.gas_total l = Some (Some (numeral a b)).
Proof.
  intros La Lb Da Db Hl.
  destruct a as [|a1 [|a2 [|a3 [|a4 [|a5 [|]]]]]]; try discriminate.
  destruct b as [|b1 [|b2 [|b3 [|]]]]; try discriminate.
  simpl in Da, Db.
  repeat match goal with
         | H : _ && _ = true |- _ => apply andb_true_iff in H; destruct H
         end.
  unfold match_line, Rules.gas_total, Rules.D.
  destruct Hl as [-> | ->]; simpl;
    repeat match goal with
           | H : is_digit ?c = true |- _ => rewrite H; clear H; simpl
           end;
    reflexivity.
Qed.

(** C10, as amended.  For every text in which the first line matching
    the gas-total rule is a bare parenthesised reading of five digits, a
    point and three digits, with or without [*m3] after the digits and
    with no [0-1:24.2.1] before the parenthesis, [keys['gas']['total']]
    is that reading as a float in the record the constructor returns;
    it returns one unless the tariff capture is too long for [int]. *)
Theorem bare_gas_total :
  forall (cls : P1Packet_class) (raw a b l : str),
    length a = 5 -> length b = 3 ->
    all_digits a = true -> all_digits b = true ->
    l = T "(" ++ numeral a b ++ T ")" \/ l = T "(" ++ numeral a b ++ T "*m3)" ->
    first_line Rules.gas_total raw l = true ->
    (tariff_in_range raw = true -> exists k, parses cls raw k) /\
    (forall k, parses cls raw k ->
       total (gas k) = PyFloat (dec_to_float (digits_val 0 (a ++ b)) 3)).
Proof.
  intros cls raw a b l La Lb Da Db Hl Hfirst.
  split; [apply parses_in_range|].
  intros k Hk. pose proof (parses_extracted Hk) as X.
  destruct X as (_ & _ & _ & _ & _ & _ & _ & _ & _ & _ & _ & _ & _ & Xt & _).
  pose proof (@extracted_first py_float Rules.gas_total (PyInt 0) raw l
                (numeral a b) _ eq_refl eq_refl Hfirst
                (@gas_total_bare_line a b l La Lb Da Db Hl) Xt) as F.
  simpl in F. rewrite float_of_numeral in F; auto.
  - rewrite Lb in F. now injection F as <-.
  - intros ->; discriminate.
Qed.

Lemma bare_gas_total_witness :
  exists k, parses P1Packet_class0 (join [nl] telegram_scenario) k /\
    total (gas k)
    = PyFloat (dec_to_float (digits_val 0 (T "00947" ++ T "680")) 3).
Proof.
  destruct (@bare_gas_total P1Packet_class0 (join [nl] telegram_scenario)
              (T "00947") (T "680") (T "(00947.680)")
              eq_refl eq_refl eq_refl eq_refl (or_introl eq_refl) eq_refl)
    as [R H].
  destruct (R eq_refl) as [k P].
  exists k. split; [exact P|exact (H k P)].
Defined.

(** C10 as stated fails: a text of two bare readings contains the line
    [(00002.000)], and the gas total is the first reading, 1.0. *)
Lemma second_bare_total_ignored :
  let raw := join [nl] telegram_two_totals in
  has_line (T "(00002.000)") raw = true /\
  field (fun k => total (gas k)) (P1Packet_init P1Packet_class0 (DStr raw))
  = Some (PyFloat (dec_to_float 1 0)) /\
  dec_to_float 1 0 <> dec_to_float 2 0.
Proof.
  split; [reflexivity|]. split; [vm_compute; reflexivity|].
  vm_compute. discriminate.
Qed.

(** The readings of the scenario as binary64 numbers. *)
Example float_608_4 :
  dec_to_float 6084 1 = S754_finite false 5351542994711347 (-43).
Proof. reflexivity. Qed.

Example float_999 :
  dec_to_float 999 0 = S754_finite false 8787296929185792 (-43).
Proof. reflexivity. Qed.

Example float_947_68 :
  dec_to_float 94768 2 = S754_finite false 8335881435286077 (-43).
Proof. reflexivity. Qed.

Ltac first_float r d X H1 s v :=
  let F := fresh "F" in
  pose proof (@extracted_first py_float r d _ _ s _ eq_refl eq_refl H1
                ltac:(vm_compute; reflexivity) X) as F;
  change (py_float (PyStr s)) with (Ok (PyFloat v)) in F;
  now injection F as <-.

(** C1, as amended.  For every text whose header line is
    [/ISk5\2ME382-1004], which contains the lines
    [1-0:2.8.2(0490.342*kWh)], [1-0:1.7.0(0001.51*kW)] and
    [1-0:2.7.0(0000.00*kW)], a switch line of value 1 and a gas-valve
    line of value 1, in which no line matches a message rule, and in
    which the first line matching the low-tariff consumption rule is
    [1-0:1.8.1(0608.400*kWh)], the first matching the tariff rule has
    value 1, the first matching the threshold rule is
    [0-0:17.0.0(0999.00*kW)] and the first matching the gas-total rule
    reads [00947.680], the constructor returns a packet with low-tariff
    consumption 608.4, tariff 1, threshold 999.0, gas total 947.68 and
    message code [None]. *)
Theorem scenario_fields :
  forall (cls : P1Packet_class)
         (raw tariff_line switch_line gas_line valve_line : str),
    first_line Rules.header raw (T "/ISk5\2ME382-1004") = true ->
    first_line Rules.kwh_low_consumed raw (T "1-0:1.8.1(0608.400*kWh)") = true ->
    has_line (T "1-0:2.8.2(0490.342*kWh)") raw = true ->
    first_line Rules.kwh_tariff raw tariff_line = true ->
    line_value py_int Rules.kwh_tariff tariff_line (PyInt 1) ->
    has_line switch_line raw = true ->
    line_value py_int Rules.kwh_switch switch_line (PyInt 1) ->
    first_line Rules.kwh_treshold raw (T "0-0:17.0.0(0999.00*kW)") = true ->
    has_line (T "1-0:1.7.0(0001.51*kW)") raw = true ->
    has_line (T "1-0:2.7.0(0000.00*kW)") raw = true ->
    first_line Rules.gas_total raw gas_line = true ->
    match_line Rules.gas_total gas_line = Some (Some (T "00947.680")) ->
    has_line valve_line raw = true ->
    line_value py_int Rules.gas_valve valve_line (PyInt 1) ->
    no_line Rules.msg_code raw = true ->
    no_line Rules.msg_text raw = true ->
    exists k, parses cls raw k /\
      consumed (low (kwh k)) = PyFloat (dec_to_float 6084 1) /\
      tariff (kwh k) = PyInt 1 /\
      treshold (kwh k) = PyFloat (dec_to_float 999 0) /\
      total (gas k) = PyFloat (dec_to_float 94768 2) /\
      code (msg k) = PyNone.
Proof.
  intros cls raw tariff_line switch_line gas_line valve_line
         _ Hlow _ Htar [ts [Mt Vt]] _ _ Hthr _ _ Hgas Mg _ _ Hcode _.
  destruct (init_extracted cls (DStr raw)
              (@first_line_in_range raw tariff_line ts _ Htar Mt Vt))
    as [k [E X]].
  exists k. split; [exact E|]. simpl raw_of in X.
  destruct X as (_ & _ & Xtar & _ & Xthr & Xlow & _ & _ & _ & _ & _ & _ & _
                 & Xgas & _ & Xcode & _).
  split; [|split; [|split; [|split]]].
  - first_float Rules.kwh_low_consumed PyNone Xlow Hlow (T "0608.400")
      (dec_to_float 6084 1).
  - pose proof (@extracted_first py_int Rules.kwh_tariff PyNone _ _ ts _
                  eq_refl eq_refl Htar Mt Xtar) as F.
    rewrite Vt in F. now injection F as <-.
  - first_float Rules.kwh_treshold PyNone Xthr Hthr (T "0999.00")
      (dec_to_float 999 0).
  - pose proof (@extracted_first py_float Rules.gas_total (PyInt 0) _ _
                  (T "00947.680") _ eq_refl eq_refl Hgas Mg Xgas) as F.
    change (py_float (PyStr (T "00947.680")))
      with (Ok (PyFloat (dec_to_float 94768 2))) in F.
    now injection F as <-.
  - apply (@extracted_absent as_str Rules.msg_code PyNone raw _
             eq_refl eq_refl (no_line_spec _ _ Hcode) Xcode).
Qed.

Lemma scenario_fields_witness :
  exists k, parses P1Packet_class0 (join [nl] telegram_scenario) k /\
    consumed (low (kwh k)) = PyFloat (dec_to_float 6084 1) /\
    tariff (kwh k) = PyInt 1 /\
    treshold (kwh k) = PyFloat (dec_to_float 999 0) /\
    total (gas k) = PyFloat (dec_to_float 94768 2) /\
    code (msg k) = PyNone.
Proof.
  apply (@scenario_fields P1Packet_class0 (join [nl] telegram_scenario)
           (T "0-0:96.14.0(0001)") (T "0-0:96.3.10(1)")
           (T "(00947.680)") (T "0-1:24.4.0(1)"));
    try reflexivity.
  - exists (T "0001"); split; reflexivity.
  - exists (T "1"); split; reflexivity.
  - exists (T "1"); split; reflexivity.
Defined.

(** C1 as stated fails: [telegram_twice] has the header and every line
    the scenario names, and no message line, yet its low-tariff
    consumption is 0.001, the reading of an earlier [1-0:1.8.1] line. *)
Lemma scenario_duplicate_reading :
  let raw := join [nl] telegram_twice in
  hd [] (split_nl raw) = T "/ISk5\2ME382-1004" /\
  forallb (fun l => has_line l raw)
    [ T "1-0:1.8.1(0608.400*kWh)"; T "1-0:2.8.2(0490.342*kWh)";
      T "0-0:96.14.0(0001)"; T "0-0:96.3.10(1)";
      T "0-0:17.0.0(0999.00*kW)"; T "1-0:1.7.0(0001.51*kW)";
      T "1-0:2.7.0(0000.00*kW)"; T "(00947.680)"; T "0-1:24.4.0(1)" ]
  = true /\
  forallb (fun l => negb (startswith (T "0-0:96.13.") l)) (split_nl raw)
  = true /\
  field (fun k => consumed (low (kwh k)))
        (P1Packet_init P1Packet_class0 (DStr raw))
  = Some (PyFloat (dec_to_float 1 3)) /\
  dec_to_float 1 3 <> dec_to_float 6084 1.
Proof.
  split; [reflexivity|]. split; [reflexivity|]. split; [reflexivity|].
  split; [vm_compute; reflexivity|]. vm_compute. discriminate.
Qed.

(** * Further properties *)

#[local] Arguments Ascii.eqb a b : simpl never.

(** ** The line loop, continued *)

Section Buffer.

Lemma buffer_line_inv (ls : list str) (st : locals) (line : str) :
  buffer_inv ls st -> buffer_inv (ls ++ [line]) (buffer_line st line).
Proof.
  intros [[dropped [E Hd]] [Ht [Hr Hm]]]. unfold buffer_line.
  fold (is_header line). destruct (is_header line) eqn:Hh; simpl.
  - split; [|split; [|split]].
    + exists ls. split; [reflexivity|]. intros _. now exists line, [].
    + constructor.
    + rewrite Hr, length_app. reflexivity.
    + unfold known_max in *. simpl.
      destruct (endswith _ line); [auto|].
      destruct (endswith _ line); auto.
  - split; [|split; [|split]].
    + exists dropped. split; [rewrite E; now rewrite <- app_assoc|].
      intros Hn. destruct (Hd Hn) as [h [rest [El Eh]]].
      exists h, (rest ++ [line]). rewrite El. now split.
    + destruct (lines st) as [|x xs]; simpl in *; [constructor|].
      apply Forall_app. split; [exact Ht|]. now constructor.
    + rewrite Hr, length_app. reflexivity.
    + exact Hm.
Qed.

Lemma check_complete_inv (ls : list str) (st : locals) (line : str) :
  buffer_inv ls st -> buffer_inv ls (check_complete st line).
Proof.
  destruct (check_complete_fields st line) as [El [Em Er]].
  unfold buffer_inv. now rewrite El, Em, Er.
Qed.

Lemma loop_body_inv (ls : list str) (st st' : locals) (ev : read_event) :
  buffer_inv ls st -> loop_body st ev = Ok st' ->
  exists line, ev = Line line /\ buffer_inv (ls ++ [line]) st' /\
               st' = check_complete (buffer_line st line) line.
Proof.
  intros Hi. destruct ev as [line|]; simpl; [|discriminate].
  unfold check_runaway. destruct (_ <? _); [discriminate|].
  intros [= <-]. exists line. split; [reflexivity|]. split; [|reflexivity].
  now apply check_complete_inv, buffer_line_inv.
Qed.

Lemma locals0_inv : buffer_inv [] locals0.
Proof.
  split; [|split; [|split]]; simpl.
  - exists []. split; [reflexivity|]. intros H; now elim H.
  - constructor.
  - reflexivity.
  - unfold known_max; auto.
Qed.

(** While the call is reading, every round so far delivered a line and
    the invariant holds of the lines delivered. *)
Lemma reading_inv (evs : list read_event) :
  forall ls0 st0 st, buffer_inv ls0 st0 ->
    read_loop st0 evs = Reading st ->
    exists ls, evs = map Line ls /\ buffer_inv (ls0 ++ ls) st.
Proof.
  induction evs as [|ev evs IH]; intros ls0 st0 st Hi; simpl.
  - destruct (complete_packet st0); [discriminate|]. intros [= <-].
    exists []. rewrite app_nil_r. now split.
  - destruct (complete_packet st0); [discriminate|].
    destruct (loop_body st0 ev) as [st1|e] eqn:E; [|discriminate].
    destruct (loop_body_inv ev Hi E) as [line [-> [Hi1 _]]].
    intros Hr. destruct (IH _ _ _ Hi1 Hr) as [ls [-> Hi2]].
    exists (line :: ls). split; [reflexivity|].
    now rewrite <- app_assoc in Hi2.
Qed.

(** How a call that ended its loop got there. *)
Lemma finished_split (evs : list read_event) :
  forall st0 st, complete_packet st0 = false ->
    read_loop st0 evs = Finished st ->
    exists evs1 line evs2 st1,
      evs = evs1 ++ Line line :: evs2 /\
      read_loop st0 evs1 = Reading st1 /\
      loop_body st1 (Line line) = Ok st /\
      complete_packet st = true.
Proof.
  induction evs as [|ev evs IH]; intros st0 st Hc; simpl; rewrite Hc.
  - discriminate.
  - destruct (loop_body st0 ev) as [st1|e] eqn:E; [|discriminate].
    destruct (complete_packet st1) eqn:Hc1.
    + destruct evs; simpl; rewrite Hc1; intros [= <-];
        (destruct ev as [line|]; [|discriminate]);
        exists [], line; eexists; exists st0; simpl; rewrite Hc; auto.
    + intros Hr. destruct (IH _ _ Hc1 Hr) as [evs1 [line [evs2 [st2 [-> [H1 [H2 H3]]]]]]].
      exists (ev :: evs1), line, evs2, st2. simpl. rewrite Hc, E. auto.
Qed.

(** Once the loop has ended or raised, further rounds are not read. *)
Lemma read_loop_done (evs more : list read_event) :
  forall st, (forall st', read_loop st evs <> Reading st') ->
    read_loop st (evs ++ more) = read_loop st evs.
Proof.
  induction evs as [|ev evs IH]; intros st Hn; simpl in *.
  - destruct (complete_packet st) eqn:Hc.
    + destruct more; simpl; now rewrite Hc.
    + now elim (Hn st).
  - destruct (complete_packet st); [reflexivity|].
    destruct (loop_body st ev); [now apply IH|reflexivity].
Qed.

Lemma read_loop_app_reading (a b : list read_event) :
  forall st st', read_loop st (a ++ b) = Reading st' ->
    exists st1, read_loop st a = Reading st1 /\ read_loop st1 b = Reading st'.
Proof.
  induction a as [|ev a IH]; intros st st'; simpl.
  - intros H. exists st. split; [|exact H].
    destruct (complete_packet st) eqn:Hc; [|reflexivity].
    destruct b; simpl in H; rewrite Hc in H; discriminate.
  - destruct (complete_packet st); [discriminate|].
    destruct (loop_body st ev); [apply IH|discriminate].
Qed.

Lemma read_loop_reading_app (a b : list read_event) :
  forall st st1, read_loop st a = Reading st1 ->
    read_loop st (a ++ b) = read_loop st1 b.
Proof.
  induction a as [|ev a IH]; intros st st1; simpl.
  - destruct (complete_packet st) eqn:Hc; [discriminate|]. now intros [= <-].
  - destruct (complete_packet st); [discriminate|].
    destruct (loop_body st ev); [apply IH|discriminate].
Qed.

(** Lines that are no headers pile up in the buffer. *)
Lemma no_header_lines (ls : list str) :
  Forall (fun l => is_header l = false) ls ->
  forall st st', complete_packet st = false ->
    (read_loop st (map Line ls) = Reading st' \/
     read_loop st (map Line ls) = Finished st') ->
    exists used rest, ls = used ++ rest /\
                      lines st' = lines st ++ used /\
                      max_lines st' = max_lines st /\
                      (complete_packet st' = false -> rest = []).
Proof.
  induction ls as [|l ls IH]; intros Hf st st' Hc; simpl; rewrite Hc.
  - intros [[= <-]|H]; [|discriminate].
    exists [], []. repeat split; auto. now rewrite app_nil_r.
  - inversion Hf as [|? ? Hl Hf']; subst.
    unfold check_runaway.
    destruct (check_complete_fields (buffer_line st l) l) as [El [Em _]].
    rewrite El, Em.
    assert (Eb : lines (buffer_line st l) = lines st ++ [l] /\
                 max_lines (buffer_line st l) = max_lines st).
    { unfold buffer_line. fold (is_header l). rewrite Hl. now split. }
    destruct Eb as [Eb1 Eb2].
    destruct (_ <? _); [intros [H|H]; discriminate|].
    set (st1 := check_complete (buffer_line st l) l) in *.
    destruct (complete_packet st1) eqn:Hc1.
    + intros H.
      assert (E : st' = st1).
      { destruct ls; simpl in H; rewrite Hc1 in H;
          destruct H as [H|H]; try discriminate; now injection H. }
      subst st'. exists [l], ls. rewrite El, Em, Eb1, Eb2.
      repeat split. intros H'. congruence.
    + intros H. destruct (IH Hf' st1 st' Hc1 H) as [used [rest [-> [E1 [E2 E3]]]]].
      exists (l :: used), rest. rewrite E1, E2, El, Em, Eb1, Eb2.
      rewrite <- app_assoc. auto.
Qed.

End Buffer.

(** X1.  A read that fails while the call is reading ends the call at
    once with [SmartMeterError], whatever is buffered and whatever the
    port would deliver next. *)
Theorem read_failure_ends_call :
  forall (cls : P1Packet_class) (evs more : list read_event) (st : locals),
    read_loop locals0 evs = Reading st ->
    read_one_packet cls (evs ++ ReadFails :: more)
    = Raised (SmartMeterError ReadFault).
Proof.
  intros cls evs more st Hr. unfold read_one_packet.
  rewrite (read_loop_reading_app evs (ReadFails :: more) locals0 Hr).
  simpl. now rewrite (reading_not_complete evs locals0 Hr).
Qed.

Lemma read_failure_ends_call_witness :
  read_one_packet P1Packet_class0
    ([Line (T "/ISk5\2ME382-1004"); Line (T "0-0:96.14.0(0001)")]
     ++ ReadFails :: [Line (T "!")])
  = Raised (SmartMeterError ReadFault).
Proof.
  eapply (read_failure_ends_call P1Packet_class0
            [Line (T "/ISk5\2ME382-1004"); Line (T "0-0:96.14.0(0001)")]).
  reflexivity.
Defined.

(** X2.  Once a call has returned or raised, nothing the port delivers
    afterwards is read: the outcome on a longer list of rounds is the
    same. *)
Theorem outcome_is_final :
  forall (cls : P1Packet_class) (evs more : list read_event),
    (forall st, read_one_packet cls evs <> Reading st) ->
    read_one_packet cls (evs ++ more) = read_one_packet cls evs.
Proof.
  intros cls evs more Hn. unfold read_one_packet in *.
  rewrite read_loop_done; [reflexivity|].
  intros st' E. rewrite E in Hn. now elim (Hn st').
Qed.

Lemma outcome_is_final_witness :
  read_one_packet P1Packet_class0
    ((repeat (Line (T "x")) 35 ++ [Line (T "!")]) ++ [ReadFails])
  = read_one_packet P1Packet_class0
      (repeat (Line (T "x")) 35 ++ [Line (T "!")]).
Proof.
  apply outcome_is_final. intros st. vm_compute. discriminate.
Defined.

(** X3.  While the call is reading, every round so far delivered a
    line, [lines_read] is their number, and the buffer holds the lines
    from the last [/ISk5] header on (all of them when there was none):
    it is a suffix of the lines delivered, only its first line can be a
    header, and it starts with a header whenever lines were dropped. *)
Theorem buffer_since_last_header :
  forall (evs : list read_event) (st : locals),
    read_loop locals0 evs = Reading st ->
    exists ls dropped,
      evs = map Line ls /\
      ls = dropped ++ lines st /\
      Forall (fun l => is_header l = false) (tl (lines st)) /\
      (dropped <> [] ->
       exists h rest, lines st = h :: rest /\ is_header h = true) /\
      lines_read st = length ls.
Proof.
  intros evs st Hr.
  destruct (reading_inv evs locals0_inv Hr)
    as [ls [-> [[dropped [E Hd]] [Ht [Hn _]]]]].
  exists ls, dropped. simpl in *. auto.
Qed.

Lemma buffer_since_last_header_witness :
  exists ls dropped,
    [Line (T "1-0:1.7.0(0001.51*kW)"); Line (T "/ISk5\2ME382-1004");
     Line (T "0-0:96.14.0(0001)")] = map Line ls /\
    ls = dropped ++ [T "/ISk5\2ME382-1004"; T "0-0:96.14.0(0001)"] /\
    Forall (fun l => is_header l = false) [T "0-0:96.14.0(0001)"] /\
    (dropped <> [] ->
     exists h rest,
       [T "/ISk5\2ME382-1004"; T "0-0:96.14.0(0001)"] = h :: rest /\
       is_header h = true) /\
    3 = length ls.
Proof.
  exact (buffer_since_last_header
           [Line (T "1-0:1.7.0(0001.51*kW)"); Line (T "/ISk5\2ME382-1004");
            Line (T "0-0:96.14.0(0001)")] eq_refl).
Defined.

(** The buffer the loop ends with. *)
Lemma finished_shape (evs : list read_event) (st : locals) :
  read_loop locals0 evs = Finished st ->
  exists body foot,
    lines st = body ++ [foot] /\
    is_footer foot = true /\
    Forall (fun l => is_header l = false) (tl (lines st)) /\
    14 <= length (lines st) <= 72.
Proof.
  intros E.
  destruct (finished_split evs locals0 eq_refl E)
    as [evs1 [line [evs2 [st1 [_ [Hr [Hb Hc]]]]]]].
  destruct (reading_inv evs1 locals0_inv Hr) as [ls [_ Hi]].
  destruct (loop_body_inv (Line line) Hi Hb) as [l' [[= <-] [Hi' Est]]].
  pose proof (loop_body_bound _ _ Hb) as Hle.
  destruct Hi' as [_ [Ht [_ Hm]]].
  destruct (check_complete_fields (buffer_line st1 line) line) as [El [Em _]].
  assert (Hcomp : is_footer line = true /\
                  max_lines st < length (lines st)).
  { rewrite Est in Hc |- *. rewrite El, Em. unfold check_complete in Hc.
    fold (is_footer line) in Hc.
    destruct (is_footer line) eqn:Hf; simpl in Hc.
    - destruct (_ <? _) eqn:Hlt; simpl in Hc.
      + apply Nat.ltb_lt in Hlt. auto.
      + unfold buffer_line in Hc.
        rewrite (startswith_footer_not_header _ Hf) in Hc. simpl in Hc.
        now rewrite (reading_not_complete evs1 locals0 Hr) in Hc.
    - unfold buffer_line in Hc.
      destruct (startswith (T "/ISk5") line); simpl in Hc;
        now rewrite (reading_not_complete evs1 locals0 Hr) in Hc. }
  destruct Hcomp as [Hf Hgt].
  assert (Elines : lines st = lines st1 ++ [line]).
  { rewrite Est, El. unfold buffer_line.
    now rewrite (startswith_footer_not_header _ Hf). }
  exists (lines st1), line.
  repeat split; auto; unfold known_max in Hm; lia.
Qed.

(** X4.  A packet the call returns retains the lines the loop ended
    with, joined by newlines; the last of these lines begins with [!],
    only the first can be a [/ISk5] header, and there are between 14
    and 72 of them. *)
Theorem returned_telegram_shape :
  forall (cls : P1Packet_class) (evs : list read_event) (p : P1Packet),
    read_one_packet cls evs = Finished p ->
    exists st body foot,
      read_loop locals0 evs = Finished st /\
      self_raw p = Some (join [nl] (lines st)) /\
      lines st = body ++ [foot] /\
      is_footer foot = true /\
      Forall (fun l => is_header l = false) (tl (lines st)) /\
      14 <= length (lines st) <= 72.
Proof.
  intros cls evs p. unfold read_one_packet.
  destruct (read_loop locals0 evs) as [st|e|st] eqn:E; try discriminate.
  destruct (P1Packet_init cls (DStr (join [nl] (lines st))))
    as [p'|e] eqn:Ei; [|discriminate].
  intros [= <-].
  destruct (init_ok cls (DStr (join [nl] (lines st))) Ei) as [_ [k [-> _]]].
  destruct (finished_shape evs E) as [body [foot H]].
  exists st, body, foot. split; [reflexivity|]. split; [reflexivity|exact H].
Qed.

Lemma returned_telegram_shape_witness :
  exists p st body foot,
    read_one_packet P1Packet_class0
      (repeat (Line (T "x")) 35 ++ [Line (T "!")]) = Finished p /\
    read_loop locals0 (repeat (Line (T "x")) 35 ++ [Line (T "!")])
    = Finished st /\
    self_raw p = Some (join [nl] (lines st)) /\
    lines st = body ++ [foot] /\
    is_footer foot = true /\
    14 <= length (lines st) <= 72.
Proof.
  destruct (init_extracted P1Packet_class0
              (DStr (join [nl] (repeat (T "x") 35 ++ [T "!"]))) eq_refl)
    as [k [E _]].
  assert (R : read_one_packet P1Packet_class0
                (repeat (Line (T "x")) 35 ++ [Line (T "!")])
              = Finished {| self_raw := Some (join [nl] (repeat (T "x") 35
                                                         ++ [T "!"]));
                            self_keys := Some k |}).
  { unfold read_one_packet.
    change (read_loop locals0 (repeat (Line (T "x")) 35 ++ [Line (T "!")]))
      with (Finished {| lines := repeat (T "x") 35 ++ [T "!"];
                        lines_read := 36; complete_packet := true;
                        max_lines := 35 |}).
    cbv beta iota. unfold lines at 1. rewrite E. reflexivity. }
  destruct (returned_telegram_shape P1Packet_class0 _ R)
    as [st [body [foot [Hs [Er [El [Hf [_ Hn]]]]]]]].
  eexists _, st, body, foot. split; [exact R|]. auto.
Defined.

(** X5.  The call cannot go on reading for ever without a new header:
    lines that are no headers and that would take the buffer beyond
    [2 * max_lines + 2] lines end it (with a packet or an error) before
    they are all read. *)
Theorem call_ends_without_header :
  forall (pre tail : list str) (st1 : locals),
    read_loop locals0 (map Line pre) = Reading st1 ->
    Forall (fun l => is_header l = false) tail ->
    max_lines st1 * 2 + 2 < length (lines st1) + length tail ->
    forall st, read_loop locals0 (map Line (pre ++ tail)) <> Reading st.
Proof.
  intros pre tail st1 Hr Hf Hlen st H.
  pose proof (reading_bound _ locals0 (st' := st)
                ltac:(simpl; lia) H) as Hb.
  rewrite map_app, (read_loop_reading_app _ (map Line tail) locals0 Hr) in H.
  destruct (no_header_lines Hf st1
              (reading_not_complete _ locals0 Hr) (or_introl H))
    as [used [rest [-> [El [Em Hrest]]]]].
  rewrite (Hrest (reading_not_complete _ st1 H)), app_nil_r in *.
  rewrite El, Em, length_app in Hb. lia.
Qed.

Lemma call_ends_without_header_witness :
  read_loop locals0 (map Line []) = Reading locals0 /\
  read_loop locals0 (map Line ([] ++ repeat (T "x") 73)) <> Reading locals0.
Proof.
  split; [reflexivity|].
  apply (@call_ends_without_header [] (repeat (T "x") 73) locals0).
  - reflexivity.
  - apply Forall_forall. intros l Hl. apply repeat_spec in Hl. now subst l.
  - simpl. lia.
Defined.

(** ** Lines and texts *)

Section Lines.

Lemma join_cons (l : str) (ls : list str) :
  ls <> [] -> join [nl] (l :: ls) = l ++ nl :: join [nl] ls.
Proof.
  destruct ls as [|x xs]; [intros H; now elim H|reflexivity].
Qed.

(** ['\n'.join(s.split('\n'))] is [s]. *)
Lemma join_split (s : str) : join [nl] (split_nl s) = s.
Proof.
  induction s as [|c s IH]; [reflexivity|]. simpl split_nl.
  destruct (split_nl_cons s) as [l [ls E]]. rewrite E in *.
  destruct (Ascii.eqb c nl) eqn:Ec.
  - apply Ascii.eqb_eq in Ec; subst c.
    rewrite join_cons by discriminate. now rewrite IH.
  - destruct ls as [|x xs].
    + simpl in *. now rewrite IH.
    + rewrite join_cons in * by discriminate.
      rewrite <- IH. reflexivity.
Qed.

Lemma split_nl_line (l : str) : ~ In nl l -> split_nl l = [l].
Proof.
  induction l as [|c l IH]; intros H; [reflexivity|]. simpl.
  destruct (Ascii.eqb c nl) eqn:Ec.
  - apply Ascii.eqb_eq in Ec; subst c. elim H. now left.
  - rewrite IH; [reflexivity|]. intros Hl. apply H. now right.
Qed.

Lemma split_nl_app (l x : str) :
  ~ In nl l -> split_nl (l ++ nl :: x) = l :: split_nl x.
Proof.
  induction l as [|c l IH]; intros H; simpl.
  - rewrite ?Ascii.eqb_refl. reflexivity.
  - destruct (Ascii.eqb c nl) eqn:Ec.
    + apply Ascii.eqb_eq in Ec; subst c. elim H. now left.
    + rewrite IH; [reflexivity|]. intros Hl. apply H. now right.
Qed.

(** [('\n'.join(ls)).split('\n')] is [ls] for lines without newlines,
    one line at least. *)
Lemma split_join (ls : list str) :
  Forall (fun l => ~ In nl l) ls -> ls <> [] ->
  split_nl (join [nl] ls) = ls.
Proof.
  induction ls as [|l ls IH]; intros Hf Hn; [now elim Hn|].
  inversion Hf as [|? ? Hl Hf']; subst.
  destruct ls as [|x xs].
  - simpl. now apply split_nl_line.
  - rewrite join_cons by discriminate.
    rewrite split_nl_app by exact Hl.
    rewrite IH; [reflexivity|exact Hf'|discriminate].
Qed.

Lemma first_some_join (r : re) (ls : list str) :
  match_line r [] = None ->
  Forall (fun l => ~ In nl l) ls ->
  first_some (match_line r) (split_nl (join [nl] ls))
  = first_some (match_line r) ls.
Proof.
  intros H0 Hf. destruct ls as [|l ls].
  - simpl. now rewrite H0.
  - rewrite split_join; [reflexivity|exact Hf|discriminate].
Qed.

End Lines.

(** X6.  For every text, the constructor given the text split on
    newlines has the outcome it has given the text itself, the same
    packet when it returns, and that packet's [str] is the text: the
    equivalence the test suite checks on its normal packet holds of
    every text. *)
Theorem split_argument_agrees :
  forall (cls : P1Packet_class) (s : str),
    P1Packet_init cls (DList (split_nl s)) = P1Packet_init cls (DStr s) /\
    (forall p, P1Packet_init cls (DStr s) = Ok p -> P1Packet_str cls p = s).
Proof.
  intros cls s. split.
  - unfold P1Packet_init. now rewrite join_split.
  - intros p H. destruct (init_ok cls (DStr s) H) as [_ [k [-> _]]].
    reflexivity.
Qed.

Lemma split_argument_agrees_witness :
  exists p,
    P1Packet_init P1Packet_class0 (DList (split_nl (join [nl] telegram_bare)))
    = Ok p /\
    P1Packet_init P1Packet_class0 (DStr (join [nl] telegram_bare)) = Ok p /\
    P1Packet_str P1Packet_class0 p = join [nl] telegram_bare.
Proof.
  destruct (split_argument_agrees P1Packet_class0 (join [nl] telegram_bare))
    as [E S].
  destruct (init_extracted P1Packet_class0
              (DStr (join [nl] telegram_bare)) eq_refl) as [k [Hk _]].
  eexists. split; [rewrite E; exact Hk|]. split; [exact Hk|].
  exact (S _ Hk).
Defined.

(** X7.  For every list of lines without newlines, the [str] of a
    packet the constructor returns on the list splits back into the
    list; the empty list comes back as one empty line. *)
Theorem lines_come_back :
  forall (cls : P1Packet_class) (ls : list str),
    Forall (fun l => ~ In nl l) ls ->
    forall p,
      P1Packet_init cls (DList ls) = Ok p ->
      split_nl (P1Packet_str cls p)
      = match ls with [] => [[]] | _ :: _ => ls end.
Proof.
  intros cls ls Hf p H.
  destruct (init_ok cls (DList ls) H) as [_ [k [-> _]]].
  unfold P1Packet_str, attr_raw; simpl.
  destruct ls as [|l ls]; [reflexivity|].
  apply split_join; [exact Hf|discriminate].
Qed.

Lemma lines_come_back_witness :
  exists p,
    P1Packet_init P1Packet_class0 (DList telegram_bare) = Ok p /\
    split_nl (P1Packet_str P1Packet_class0 p) = telegram_bare.
Proof.
  destruct (init_extracted P1Packet_class0 (DList telegram_bare) eq_refl)
    as [k [Hk _]].
  eexists. split; [exact Hk|].
  apply (@lines_come_back P1Packet_class0 telegram_bare); [|exact Hk].
  repeat constructor; vm_compute; intuition discriminate.
Defined.

(** ** The header rule *)

Section Header.

(** A greedy run over a set reads to the end of a text made of the
    set. *)
Lemma plus_chr_all (cs : charset) (w : str) :
  forall n b g,
    w <> [] -> forallb (in_set cs) w = true -> length w <= n ->
    exists b' tl, plus_loop (run (Chr cs)) n (Pos b w) g
                  = (Pos b' [], g) :: tl.
Proof.
  set (body := run (Chr cs)).
  assert (Hcons : forall b c s g,
             body (Pos b (c :: s)) g
             = if in_set cs c then [(Pos (Ascii.eqb c nl) s, g)] else [])
    by reflexivity.
  assert (Hnil : forall b g, body (Pos b []) g = []) by reflexivity.
  clearbody body.
  induction w as [|c w IH]; intros n b g Nw Dw Hn; [now elim Nw|].
  simpl in Dw. apply andb_true_iff in Dw. destruct Dw as [Dc Dw].
  destruct n as [|n]; [simpl in Hn; lia|].
  simpl. rewrite Hcons, Dc. simpl. rewrite app_nil_r.
  assert (P : progress (Pos b (c :: w)) (Pos (Ascii.eqb c nl) w) = true).
  { unfold progress; simpl. apply Nat.ltb_lt. lia. }
  rewrite P. destruct w as [|c2 w].
  - assert (E : plus_loop body n (Pos (Ascii.eqb c nl) []) g = []).
    { destruct n; simpl; now rewrite Hnil. }
    rewrite E. simpl. eauto.
  - destruct (IH n (Ascii.eqb c nl) g) as [b' [tl E]];
      [discriminate|exact Dw|simpl in *; lia|].
    rewrite E. simpl. eauto.
Qed.

Lemma dot_all (w : str) : ~ In nl w -> forallb (in_set Dot) w = true.
Proof.
  induction w as [|c w IH]; intros H; [reflexivity|]. simpl.
  rewrite IH by (intros Hw; apply H; now right).
  destruct (Ascii.eqb c nl) eqn:E; [|reflexivity].
  apply Ascii.eqb_eq in E; subst c. elim H. now left.
Qed.

Lemma taken_all (b b' : bool) (w : str) : taken (Pos b w) (Pos b' []) = w.
Proof.
  unfold taken; simpl. rewrite Nat.sub_0_r. apply firstn_all.
Qed.

(** The header rule matches the lines that begin with a slash, whole. *)
Lemma match_line_header (l : str) :
  ~ In nl l ->
  match_line Rules.header l
  = if startswith (T "/") l then Some (Some l) else None.
Proof.
  intros Hl. unfold match_line, Rules.header.
  destruct l as [|c w]; [reflexivity|].
  change (startswith (T "/") (c :: w)) with (Ascii.eqb "/" c && true).
  rewrite andb_true_r.
  destruct (Ascii.eqb "/" c) eqn:Ec.
  - apply Ascii.eqb_eq in Ec; subst c.
    assert (Hw : ~ In nl w) by (intros H; apply Hl; now right).
    assert (Estar : exists b' tl,
               run (Star (Chr Dot)) (Pos false w) None
               = (Pos b' [], None) :: tl).
    { change (run (Star (Chr Dot)) (Pos false w) None)
        with (plus_loop (run (Chr Dot)) (length w) (Pos false w) None
              ++ [(Pos false w, None)]).
      destruct w as [|c2 w'].
      - simpl. eauto.
      - destruct (@plus_chr_all Dot (c2 :: w') (length (c2 :: w')) false None)
          as [b' [tl E]]; [discriminate|now apply dot_all|lia|].
        rewrite E. simpl. eauto. }
    destruct Estar as [b' [tl Es]].
    assert (Ebody : exists tl',
               run (Seq (Chr (Lit "/")) (Star (Chr Dot)))
                   (Pos true ("/"%char :: w)) None
               = (Pos b' [], None) :: tl').
    { assert (E1 : run (Chr (Lit "/")) (Pos true ("/"%char :: w)) None
                   = [(Pos false w, None)]) by reflexivity.
      exact (@head_seq _ _ _ _ _ _ _ _ _ _ E1 Es). }
    destruct Ebody as [tl' Eb].
    assert (Egrp : exists t,
               run (Grp (Seq (Chr (Lit "/")) (Star (Chr Dot))))
                   (Pos true ("/"%char :: w)) None
               = (Pos b' [], Some ("/"%char :: w)) :: t).
    { simpl run at 1. simpl in Eb. rewrite Eb. simpl map.
      rewrite taken_all. eauto. }
    destruct Egrp as [t Eg].
    assert (Eeol : run Eol (Pos b' []) (Some ("/"%char :: w))
                   = [(Pos b' [], Some ("/"%char :: w))]) by reflexivity.
    destruct (@head_seq _ _ _ _ _ _ _ _ _ _ Eg Eeol) as [t2 E2].
    assert (Ebol : run Bol (Pos true ("/"%char :: w)) None
                   = [(Pos true ("/"%char :: w), None)]) by reflexivity.
    destruct (@head_seq _ _ _ _ _ _ _ _ _ _ Ebol E2) as [t3 E3].
    rewrite E3. reflexivity.
  - simpl. rewrite Ec. reflexivity.
Qed.

Lemma first_some_header (ls : list str) :
  Forall (fun l => ~ In nl l) ls ->
  first_some (match_line Rules.header) ls
  = option_map Some (find (startswith (T "/")) ls).
Proof.
  induction ls as [|l ls IH]; intros Hf; [reflexivity|].
  inversion Hf as [|? ? Hl Hf']; subst. cbn [first_some find].
  rewrite (match_line_header l Hl).
  destruct (startswith (T "/") l); [reflexivity|]. now apply IH.
Qed.

Lemma split_nl_all_nl_free (s : str) :
  Forall (fun l => ~ In nl l) (split_nl s).
Proof.
  apply Forall_forall. intros l Hl. now apply (split_nl_nl_free s).
Qed.

(** The header field on any text. *)
Lemma header_extracted (raw : str) (v : pyval) :
  extracted as_str Rules.header (PyStr []) raw v ->
  v = PyStr (first_slash_line (split_nl raw)).
Proof.
  unfold extracted, first_slash_line.
  rewrite (@search_lines Rules.header eq_refl eq_refl).
  rewrite (first_some_header (split_nl_all_nl_free raw)).
  destruct (find (startswith (T "/")) (split_nl raw)) as [l|]; simpl.
  - intros [s [[= <-] [= <-]]]. reflexivity.
  - auto.
Qed.

End Header.

(** X8.  For every text and every record the constructor returns on
    it, [keys['header']] is the first line of the text that begins with
    a slash, the whole line, and the empty string when no line does. *)
Theorem header_is_first_slash_line :
  forall (cls : P1Packet_class) (raw : str) (k : keys),
    parses cls raw k ->
    header k = PyStr (first_slash_line (split_nl raw)).
Proof.
  intros cls raw k Hk. pose proof (parses_extracted Hk) as X.
  destruct X as [Xh _]. now apply header_extracted.
Qed.

Lemma header_is_first_slash_line_witness :
  exists k, parses P1Packet_class0 (join [nl] telegram_bare) k /\
    header k = PyStr (T "/KFM5KAIFA-METER").
Proof.
  destruct (parses_in_range P1Packet_class0 (join [nl] telegram_bare) eq_refl)
    as [k Hk].
  exists k. split; [exact Hk|].
  exact (header_is_first_slash_line Hk).
Defined.

(** ** What the fields can hold *)

Section Kinds.

Lemma digit_val_bound (c : ascii) :
  is_digit c = true -> (0 <= Z.of_N (digit_val c) <= 9)%Z.
Proof.
  unfold is_digit, digit_val. intros H.
  apply andb_true_iff in H. destruct H as [H1 H2].
  apply Nat.leb_le in H1, H2. lia.
Qed.

Lemma extracted_cases (conv : pyval -> result pyval) (r : re)
      (d : pyval) (raw : str) (v : pyval) :
  sets_group r = true -> extracted conv r d raw v ->
  v = d \/
  exists b s, In b (group_bodies r) /\ reads b s /\ conv (PyStr s) = Ok v.
Proof.
  intros Hs X. unfold extracted in X.
  destruct (search r raw) as [g|] eqn:E; [|now left].
  destruct X as [s [-> X]].
  destruct (@search_capture r raw (Some s) Hs E) as [b [w [Ib [Rb [= <-]]]]].
  right. now exists b, s.
Qed.

Lemma extracted_digit (r : re) (raw : str) (v : pyval) :
  sets_group r = true -> group_bodies r = [Rules.D] ->
  extracted py_int r PyNone raw v -> digit_or_none v.
Proof.
  intros Hs Hb X.
  destruct (@extracted_cases py_int r PyNone raw v Hs X)
    as [->|[b [s [Ib [Rb C]]]]]; [now left|].
  rewrite Hb in Ib. destruct Ib as [<-|[]].
  apply reads_D in Rb. destruct Rb as [c [-> Hc]].
  right. exists (Z.of_N (digit_val c)). split; [now apply digit_val_bound|].
  unfold py_int in C. simpl in C. rewrite Hc in C. simpl in C.
  now injection C as <-.
Qed.

Lemma extracted_float (r : re) (d : pyval) (raw : str) (v : pyval) :
  sets_group r = true -> extracted py_float r d raw v ->
  v = d \/ exists f, v = PyFloat f.
Proof.
  intros Hs X.
  destruct (@extracted_cases py_float r d raw v Hs X)
    as [->|[b [s [_ [_ C]]]]]; [now left|].
  right. simpl in C. unfold float_of_str in C.
  destruct (split_point s) as [ip fp].
  destruct fp as [f|];
    (destruct (ip ++ _); [discriminate|]);
    (destruct (_ && _); [|discriminate]);
    injection C as <-; eauto.
Qed.

Lemma reads_chr_inv (cs : charset) (w : str) :
  reads (Chr cs) w -> exists c, w = [c] /\ in_set cs c = true.
Proof.
  intros H. inversion H; subst. now exists c.
Qed.

Lemma reads_plus_set (cs : charset) (w : str) :
  reads (Plus (Chr cs)) w -> w <> [] /\ forallb (in_set cs) w = true.
Proof.
  intros H. remember (Plus (Chr cs)) as r eqn:E.
  induction H; try discriminate; injection E as ->.
  - apply reads_chr_inv in H. destruct H as [c [-> Hc]].
    split; [discriminate|]. simpl. now rewrite Hc.
  - apply reads_chr_inv in H. destruct H as [c [-> Hc]].
    destruct (IHreads2 eq_refl) as [_ Hd].
    split; [discriminate|]. simpl. now rewrite Hc, Hd.
Qed.

Lemma forallb_not_in (c : ascii) (w : str) :
  forallb (fun x => negb (Ascii.eqb c x)) w = true -> ~ In c w.
Proof.
  induction w as [|x w IH]; simpl; intros H; [tauto|].
  apply andb_true_iff in H. destruct H as [Hx Hw].
  intros [E|E]; [|now apply IH].
  subst x. now rewrite Ascii.eqb_refl in Hx.
Qed.

Lemma forallb_no_nl (w : str) :
  forallb (in_set Dot) w = true -> ~ In nl w.
Proof.
  induction w as [|x w IH]; simpl; intros H; [tauto|].
  apply andb_true_iff in H. destruct H as [Hx Hw].
  intros [E|E]; [|now apply IH].
  subst x. now rewrite Ascii.eqb_refl in Hx.
Qed.

Lemma is_digit_no_nl (w : str) : all_digits w = true -> ~ In nl w.
Proof.
  induction w as [|x w IH]; simpl; intros H; [tauto|].
  apply andb_true_iff in H. destruct H as [Hx Hw].
  intros [E|E]; [|now apply IH]. subst x. discriminate.
Qed.

Lemma extracted_eid (r : re) (raw : str) (v : pyval) :
  sets_group r = true -> group_bodies r = [Plus (Chr (NotLit ")"))] ->
  extracted as_str r PyNone raw v -> str_without ")" v.
Proof.
  intros Hs Hb X.
  destruct (@extracted_cases as_str r PyNone raw v Hs X)
    as [->|[b [s [Ib [Rb C]]]]]; [now left|].
  rewrite Hb in Ib. destruct Ib as [<-|[]].
  apply reads_plus_set in Rb. destruct Rb as [Ns Fs].
  right. exists s. injection C as <-. repeat split; auto.
  now apply forallb_not_in.
Qed.

End Kinds.

(** X9.  For every text and every record the constructor returns on
    it, the switch position, the gas valve position and the gas device
    type are [None] or an integer from 0 to 9, and the tariff is [None]
    or a non-negative integer. *)
Theorem integer_fields_range :
  forall (cls : P1Packet_class) (raw : str) (k : keys),
    parses cls raw k ->
      digit_or_none (switch (kwh k)) /\
      digit_or_none (valve (gas k)) /\
      digit_or_none (device_type (gas k)) /\
      (tariff (kwh k) = PyNone \/
       exists n, (0 <= n)%Z /\ tariff (kwh k) = PyInt n).
Proof.
  intros cls raw k Hk. pose proof (parses_extracted Hk) as X.
  destruct X as (_ & _ & Xtar & Xsw & _ & _ & _ & _ & _ & _ & _ & _ & Xdt
                 & _ & Xva & _ & _).
  split; [now apply (@extracted_digit Rules.kwh_switch raw)|].
  split; [now apply (@extracted_digit Rules.gas_valve raw)|].
  split; [now apply (@extracted_digit Rules.gas_device_type raw)|].
  destruct (@extracted_cases py_int Rules.kwh_tariff PyNone raw _ eq_refl Xtar)
    as [->|[b [s [Ib [Rb C]]]]]; [now left|].
  destruct Ib as [<-|[]]. apply reads_plus_D in Rb. destruct Rb as [Ns Ds].
  rewrite (int_of_digits Ns Ds (int_ok_length s C)) in C.
  injection C as <-.
  right. eexists. split; [|reflexivity]. lia.
Qed.

Lemma integer_fields_range_witness :
  exists k, parses P1Packet_class0 (join [nl] telegram_scenario) k /\
    digit_or_none (switch (kwh k)) /\
    digit_or_none (valve (gas k)) /\
    digit_or_none (device_type (gas k)) /\
    (tariff (kwh k) = PyNone \/
     exists n, (0 <= n)%Z /\ tariff (kwh k) = PyInt n).
Proof.
  destruct (parses_in_range P1Packet_class0 (join [nl] telegram_scenario)
              eq_refl) as [k Hk].
  exists k. split; [exact Hk|].
  exact (integer_fields_range Hk).
Defined.

(** X10.  For every text and every record the constructor returns on
    it, the gas total is the integer 0 or a float and is never [None];
    the other readings are [None] or a float; an
    equipment id is [None] or a non-empty string without a closing
    parenthesis; the message code is [None] or a non-empty string of
    digits; the message text is [None] or a non-empty string without a
    newline. *)
Theorem field_kinds :
  forall (cls : P1Packet_class) (raw : str) (k : keys),
    parses cls raw k ->
      (total (gas k) = PyInt 0 \/ exists f, total (gas k) = PyFloat f) /\
      Forall float_or_none
        [ treshold (kwh k); consumed (low (kwh k)); produced (low (kwh k));
          consumed (high (kwh k)); produced (high (kwh k));
          current_consumed (kwh k); current_produced (kwh k) ] /\
      str_without ")" (kwh_eid (kwh k)) /\
      str_without ")" (gas_eid (gas k)) /\
      (code (msg k) = PyNone \/
       exists s, code (msg k) = PyStr s /\ s <> [] /\ all_digits s = true) /\
      str_without nl (text (msg k)).
Proof.
  intros cls raw k Hk. pose proof (parses_extracted Hk) as X.
  destruct X as (_ & Xke & _ & _ & X1 & X2 & X3 & X4 & X5 & X6 & X7 & Xge & _
                 & Xt & _ & Xc & Xm).
  split; [now apply (@extracted_float Rules.gas_total (PyInt 0) raw)|].
  split.
  { repeat (apply Forall_cons;
            [match goal with
             | |- float_or_none ?v =>
                 match goal with
                 | H : extracted py_float ?r PyNone raw v |- _ =>
                     exact (@extracted_float r PyNone raw v eq_refl H)
                 end
             end|]).
    apply Forall_nil. }
  split; [now apply (@extracted_eid Rules.kwh_eid raw)|].
  split; [now apply (@extracted_eid Rules.gas_eid raw)|].
  split.
  - destruct (@extracted_cases as_str Rules.msg_code PyNone raw _ eq_refl Xc)
      as [->|[b [s [Ib [Rb C]]]]]; [now left|].
    destruct Ib as [<-|[]]. apply reads_plus_D in Rb. destruct Rb as [Ns Ds].
    injection C as <-. right. now exists s.
  - destruct (@extracted_cases as_str Rules.msg_text PyNone raw _ eq_refl Xm)
      as [->|[b [s [Ib [Rb C]]]]]; [now left|].
    destruct Ib as [<-|[]]. apply reads_plus_set in Rb. destruct Rb as [Ns Fs].
    injection C as <-. right. exists s. repeat split; auto.
    now apply forallb_no_nl.
Qed.

Lemma field_kinds_witness :
  exists k, parses P1Packet_class0 (join [nl] telegram_scenario) k /\
    (total (gas k) = PyInt 0 \/ exists f, total (gas k) = PyFloat f) /\
    str_without ")" (kwh_eid (kwh k)) /\
    str_without nl (text (msg k)).
Proof.
  destruct (parses_in_range P1Packet_class0 (join [nl] telegram_scenario)
              eq_refl) as [k Hk].
  exists k. split; [exact Hk|].
  destruct (field_kinds Hk) as [H1 [_ [H2 [_ [_ H3]]]]]. auto.
Defined.

(** ** The gas device type *)

Section DeviceType.

Lemma taken_one (b b' : bool) (c : ascii) (s : str) :
  taken (Pos b (c :: s)) (Pos b' s) = [c].
Proof.
  exact (@taken_app b b' [c] s).
Qed.

Lemma all_digits_last (x : str) :
  x <> [] -> all_digits x = true -> is_digit (last x nl) = true.
Proof.
  induction x as [|c x IH]; intros Nx Dx; [now elim Nx|].
  simpl in Dx. apply andb_true_iff in Dx. destruct Dx as [Dc Dx].
  destruct x as [|c2 x]; [exact Dc|].
  change (last (c :: c2 :: x) nl) with (last (c2 :: x) nl).
  apply IH; [discriminate|exact Dx].
Qed.

(** A repeated one-digit group first reads every digit and keeps the
    last. *)
Lemma plus_group_digits_head (x : str) :
  forall n b t g,
    x <> [] -> all_digits x = true -> no_digit_next t ->
    length (x ++ t) <= n ->
    exists tl, plus_loop (run (Grp Rules.D)) n (Pos b (x ++ t)) g
               = (Pos false t, Some [last x nl]) :: tl.
Proof.
  set (body := run (Grp Rules.D)).
  assert (Hcons : forall b c s g,
             body (Pos b (c :: s)) g
             = if is_digit c then [(Pos (Ascii.eqb c nl) s, Some [c])]
               else []).
  { intros b c s g. unfold body. simpl. destruct (is_digit c); [|reflexivity].
    simpl. now rewrite taken_one. }
  assert (Hnil : forall b g, body (Pos b []) g = []) by reflexivity.
  clearbody body.
  induction x as [|c x IH]; intros n b t g Nx Dx Ht Hn; [now elim Nx|].
  simpl in Dx. apply andb_true_iff in Dx. destruct Dx as [Dc Dx].
  destruct n as [|n]; [simpl in Hn; lia|].
  simpl plus_loop. simpl app. rewrite Hcons, Dc. simpl flat_map.
  rewrite app_nil_r.
  assert (P : progress (Pos b (c :: x ++ t)) (Pos (Ascii.eqb c nl) (x ++ t)) = true).
  { unfold progress; simpl. apply Nat.ltb_lt. lia. }
  rewrite P, (is_digit_not_nl c Dc).
  destruct x as [|c2 x].
  - simpl app. exists [].
    assert (E : plus_loop body n (Pos false t) (Some [c]) = []).
    { destruct n as [|n]; simpl; destruct t as [|c' t'];
        rewrite ?Hnil, ?Hcons; simpl; try reflexivity;
        simpl in Ht; rewrite Ht; reflexivity. }
    now rewrite E.
  - destruct (IH n false t (Some [c])) as [tl E];
      [discriminate|exact Dx|exact Ht|simpl in *; lia|].
    rewrite E. simpl. eauto.
Qed.

Lemma match_device_type_line (ds : str) :
  ds <> [] -> all_digits ds = true ->
  match_line Rules.gas_device_type (T "0-1:24.1.0(" ++ ds ++ T ")")
  = Some (Some [last ds nl]).
Proof.
  intros Nd Dd.
  destruct (run_Str (T "0-1:24.1.0(") true (ds ++ T ")") None) as [b1 E1].
  destruct (@plus_group_digits_head ds (length (ds ++ T ")")) b1 (T ")") None
              Nd Dd eq_refl (le_n _)) as [t2 E2].
  assert (E2' : run (Plus (Grp Rules.D)) (Pos b1 (ds ++ T ")")) None
                = (Pos false (T ")"), Some [last ds nl]) :: t2) by exact E2.
  assert (E3 : run (Seq (Str (T ")")) Eol) (Pos false (T ")"))
                   (Some [last ds nl])
               = [(Pos false [], Some [last ds nl])]) by reflexivity.
  destruct (@head_seq _ _ _ _ _ _ _ _ _ _ E2' E3) as [t4 E4].
  destruct (@head_seq _ _ _ _ _ _ _ _ _ _ E1 E4) as [t5 E5].
  assert (Ebol : run Bol (Pos true (T "0-1:24.1.0(" ++ ds ++ T ")")) None
                 = [(Pos true (T "0-1:24.1.0(" ++ ds ++ T ")"), None)])
    by reflexivity.
  destruct (@head_seq _ _ _ _ _ _ _ _ _ _ Ebol E5) as [t6 E6].
  assert (M : run Rules.gas_device_type
                  (Pos true (T "0-1:24.1.0(" ++ ds ++ T ")")) None
              = (Pos false [], Some [last ds nl]) :: t6) by exact E6.
  unfold match_line. rewrite M. reflexivity.
Qed.

End DeviceType.

(** X11.  For every text whose first line matching the device-type rule
    is [0-1:24.1.0(] digits [)], and every record the constructor
    returns on it, [keys['gas']['device_type']] is the last of the
    digits alone: the repeated group keeps its last round. *)
Theorem device_type_is_last_digit :
  forall (cls : P1Packet_class) (raw ds : str),
    ds <> [] -> all_digits ds = true ->
    first_line Rules.gas_device_type raw (T "0-1:24.1.0(" ++ ds ++ T ")")
    = true ->
    forall k, parses cls raw k ->
      device_type (gas k) = PyInt (Z.of_N (digit_val (last ds nl))).
Proof.
  intros cls raw ds Nd Dd Hfirst k Hk.
  pose proof (parses_extracted Hk) as X.
  destruct X as (_ & _ & _ & _ & _ & _ & _ & _ & _ & _ & _ & _ & Xdt & _).
  pose proof (@extracted_first py_int Rules.gas_device_type PyNone raw _
                [last ds nl] _ eq_refl eq_refl Hfirst
                (match_device_type_line Nd Dd) Xdt) as F.
  unfold py_int in F. simpl in F.
  rewrite (all_digits_last Nd Dd) in F. simpl in F.
  now injection F as <-.
Qed.

Lemma device_type_is_last_digit_witness :
  exists k, parses P1Packet_class0 (T "0-1:24.1.0(12)") k /\
    device_type (gas k) = PyInt 2.
Proof.
  destruct (parses_in_range P1Packet_class0 (T "0-1:24.1.0(12)") eq_refl)
    as [k Hk].
  exists k. split; [exact Hk|].
  apply (@device_type_is_last_digit P1Packet_class0 (T "0-1:24.1.0(12)")
           (T "12")); [discriminate|reflexivity|reflexivity|exact Hk].
Defined.

(** ** The rules that read line by line, together *)

Section LineRules.

Lemma line_rules_local :
  Forall (fun e : rule_entry =>
            let '(r, _, _, _) := e in
            anchored r = true /\ nl_free r = true /\
            match_line r [] = None /\ sets_group r = true)
         line_rules.
Proof.
  unfold line_rules.
  repeat (apply Forall_cons; [repeat split; reflexivity|]).
  apply Forall_nil.
Qed.

Lemma line_rule_local (r : re) (conv : pyval -> result pyval) (d : pyval)
      (f : keys -> pyval) :
  In (r, conv, d, f) line_rules ->
  anchored r = true /\ nl_free r = true /\
  match_line r [] = None /\ sets_group r = true.
Proof.
  intros Hin. pose proof line_rules_local as H.
  rewrite Forall_forall in H. exact (H _ Hin).
Qed.

Lemma line_rules_extracted (raw : str) (k : keys) :
  fields_extracted raw k ->
  forall r conv d f, In (r, conv, d, f) line_rules ->
    extracted conv r d raw (f k).
Proof.
  intros X r conv d f Hin.
  destruct X as (X1 & X2 & X3 & X4 & X5 & X6 & X7 & X8 & X9 & X10 & X11
                 & X12 & X13 & X14 & X15 & X16 & X17).
  unfold line_rules in Hin. simpl in Hin.
  repeat (destruct Hin as [Hin|Hin];
          [injection Hin as <- <- <- <-; assumption|]).
  destruct Hin.
Qed.

Lemma search_join_lines (r : re) (ls : list str) :
  anchored r = true -> nl_free r = true -> match_line r [] = None ->
  Forall (fun l => ~ In nl l) ls ->
  search r (join [nl] ls) = first_some (match_line r) ls.
Proof.
  intros Ha Hf H0 Hl.
  rewrite (@search_lines r Ha Hf). now apply first_some_join.
Qed.

Lemma extracted_same (conv : pyval -> result pyval) (r : re) (d : pyval)
      (raw raw' : str) (v v' : pyval) :
  search r raw = search r raw' ->
  extracted conv r d raw v -> extracted conv r d raw' v' -> v = v'.
Proof.
  unfold extracted. intros <-.
  destruct (search r raw) as [g|]; [|congruence].
  intros [s [-> C]] [s' [[= <-] C']]. congruence.
Qed.

Lemma first_some_skip {A B : Type} (f : A -> option B)
      (ls1 : list A) (l : A) (ls2 : list A) :
  f l = None -> first_some f (ls1 ++ l :: ls2) = first_some f (ls1 ++ ls2).
Proof.
  intros H. induction ls1 as [|x ls1 IH]; simpl; [now rewrite H|].
  now rewrite IH.
Qed.

Lemma first_some_prefix {A B : Type} (f : A -> option B)
      (ls1 ls2 : list A) :
  first_some f ls1 <> None ->
  first_some f (ls1 ++ ls2) = first_some f ls1.
Proof.
  induction ls1 as [|x ls1 IH]; simpl; intros H; [now elim H|].
  destruct (f x); [reflexivity|]. now apply IH.
Qed.

Lemma first_some_no_line (r : re) (raw : str) :
  first_some (match_line r) (split_nl raw) = None <-> no_line r raw = true.
Proof.
  unfold no_line. induction (split_nl raw) as [|l ls IH]; simpl.
  - tauto.
  - destruct (match_line r l); simpl; [split; discriminate|exact IH].
Qed.

Lemma py_int_not_none (s : str) : py_int (PyStr s) <> Ok PyNone.
Proof.
  unfold py_int. destruct s; [discriminate|].
  destruct (all_digits _); [destruct (_ <? _)|]; discriminate.
Qed.

Lemma py_float_is_float (s : str) (v : pyval) :
  py_float (PyStr s) = Ok v -> exists f, v = PyFloat f.
Proof.
  simpl. unfold float_of_str. intros C.
  destruct (split_point s) as [ip fp].
  destruct fp as [f|];
    (destruct (ip ++ _); [discriminate|]);
    (destruct (_ && _); [|discriminate]);
    injection C as <-; eauto.
Qed.

(** A match never yields the rule's default. *)
Lemma match_is_not_default (r : re) (conv : pyval -> result pyval)
      (d : pyval) (f : keys -> pyval) (raw : str) (g : cap) (v : pyval) :
  In (r, conv, d, f) line_rules ->
  search r raw = Some g ->
  (exists s, g = Some s /\ conv (PyStr s) = Ok v) -> v <> d.
Proof.
  intros Hin Hs [s [-> C]] ->.
  unfold line_rules in Hin. simpl in Hin.
  destruct Hin as [Hin|Hin].
  { injection Hin as <- <- <- <-.
    destruct (@search_capture Rules.header raw (Some s) eq_refl Hs)
      as [b [w [Ib [Rb [= <-]]]]].
    destruct Ib as [<-|[]]. injection C as ->.
    inversion Rb as [| | | |r1 r2 w1 w2 H1 H2 Hw| | | | | | | | | |]; subst.
    inversion H1; subst. discriminate. }
  repeat (destruct Hin as [Hin|Hin];
          [injection Hin as <- <- <- <-;
           first [ now apply py_int_not_none in C
                 | apply py_float_is_float in C; destruct C; discriminate
                 | discriminate ] |]).
  destruct Hin.
Qed.

Lemma nl_free_app (ls1 ls2 : list str) (l : str) :
  Forall (fun l => ~ In nl l) (ls1 ++ l :: ls2) ->
  Forall (fun l => ~ In nl l) (ls1 ++ ls2).
Proof.
  rewrite !Forall_app. intros [H1 H2]. inversion H2; subst. now split.
Qed.

End LineRules.

(** X12.  For every rule that reads line by line and every list of
    lines without newlines, a line the rule does not match can be
    removed from the text, wherever it stands, without changing the
    rule's field: the records the constructor returns on the two texts
    agree on it. *)
Theorem unmatched_line_is_ignored :
  forall (cls : P1Packet_class) (r : re) (conv : pyval -> result pyval)
         (d : pyval) (f : keys -> pyval) (ls1 ls2 : list str) (l : str),
    In (r, conv, d, f) line_rules ->
    Forall (fun l => ~ In nl l) (ls1 ++ l :: ls2) ->
    match_line r l = None ->
    forall k k',
      parses cls (join [nl] (ls1 ++ l :: ls2)) k ->
      parses cls (join [nl] (ls1 ++ ls2)) k' ->
      f k = f k'.
Proof.
  intros cls r conv d f ls1 ls2 l Hin Hl Hm k k' Hk Hk'.
  destruct (line_rule_local Hin) as [Ha [Hf [H0 _]]].
  pose proof (parses_extracted Hk) as X.
  pose proof (parses_extracted Hk') as X'.
  assert (S : search r (join [nl] (ls1 ++ l :: ls2))
               = search r (join [nl] (ls1 ++ ls2))).
  { rewrite (@search_join_lines r _ Ha Hf H0 Hl),
            (@search_join_lines r _ Ha Hf H0 (@nl_free_app ls1 ls2 l Hl)).
    now apply first_some_skip. }
  exact (@extracted_same conv r d _ _ _ _ S
           (@line_rules_extracted _ _ X _ _ _ _ Hin)
           (@line_rules_extracted _ _ X' _ _ _ _ Hin)).
Qed.

Lemma unmatched_line_is_ignored_witness :
  exists k k',
    parses P1Packet_class0
      (join [nl] ([T "0-0:96.14.0(0002)"] ++ T "!" :: [T "(00947.680)"])) k /\
    parses P1Packet_class0
      (join [nl] ([T "0-0:96.14.0(0002)"] ++ [T "(00947.680)"])) k' /\
    total (gas k) = total (gas k').
Proof.
  destruct (parses_in_range P1Packet_class0
              (join [nl] ([T "0-0:96.14.0(0002)"] ++ T "!" :: [T "(00947.680)"]))
              eq_refl) as [k Hk].
  destruct (parses_in_range P1Packet_class0
              (join [nl] ([T "0-0:96.14.0(0002)"] ++ [T "(00947.680)"]))
              eq_refl) as [k' Hk'].
  exists k, k'. split; [exact Hk|]. split; [exact Hk'|].
  apply (@unmatched_line_is_ignored P1Packet_class0 Rules.gas_total
           py_float (PyInt 0) (fun k => total (gas k))
           [T "0-0:96.14.0(0002)"] [T "(00947.680)"] (T "!"));
    [| | reflexivity | exact Hk | exact Hk'].
  - unfold line_rules. simpl. tauto.
  - repeat constructor; vm_compute; intuition discriminate.
Defined.

(** X13.  For every rule that reads line by line and every two lists of
    lines without newlines, when some line of the first list matches
    the rule, the field of the two lists together is the field of the
    first list, in the records the constructor returns on them: lines
    that come later, such as those of a following telegram in the same
    buffer, do not replace an earlier reading. *)
Theorem earlier_lines_win :
  forall (cls : P1Packet_class) (r : re) (conv : pyval -> result pyval)
         (d : pyval) (f : keys -> pyval) (ls1 ls2 : list str),
    In (r, conv, d, f) line_rules ->
    Forall (fun l => ~ In nl l) (ls1 ++ ls2) ->
    first_some (match_line r) ls1 <> None ->
    forall k k',
      parses cls (join [nl] (ls1 ++ ls2)) k ->
      parses cls (join [nl] ls1) k' ->
      f k = f k'.
Proof.
  intros cls r conv d f ls1 ls2 Hin Hl Hm k k' Hk Hk'.
  destruct (line_rule_local Hin) as [Ha [Hf [H0 _]]].
  pose proof (parses_extracted Hk) as X.
  pose proof (parses_extracted Hk') as X'.
  assert (Hl1 : Forall (fun l => ~ In nl l) ls1)
    by (apply Forall_app in Hl; tauto).
  assert (S : search r (join [nl] (ls1 ++ ls2))
               = search r (join [nl] ls1)).
  { rewrite (@search_join_lines r _ Ha Hf H0 Hl),
            (@search_join_lines r _ Ha Hf H0 Hl1).
    now apply first_some_prefix. }
  exact (@extracted_same conv r d _ _ _ _ S
           (@line_rules_extracted _ _ X _ _ _ _ Hin)
           (@line_rules_extracted _ _ X' _ _ _ _ Hin)).
Qed.

Lemma earlier_lines_win_witness :
  exists k k',
    parses P1Packet_class0
      (join [nl] ([T "1-0:1.7.0(0001.51*kW)"; T "!"]
                  ++ [T "/KFM5KAIFA-METER"; T "1-0:1.7.0(0000.23*kW)"])) k /\
    parses P1Packet_class0
      (join [nl] [T "1-0:1.7.0(0001.51*kW)"; T "!"]) k' /\
    current_consumed (kwh k) = current_consumed (kwh k').
Proof.
  destruct (parses_in_range P1Packet_class0
              (join [nl] ([T "1-0:1.7.0(0001.51*kW)"; T "!"]
                          ++ [T "/KFM5KAIFA-METER"; T "1-0:1.7.0(0000.23*kW)"]))
              eq_refl) as [k Hk].
  destruct (parses_in_range P1Packet_class0
              (join [nl] [T "1-0:1.7.0(0001.51*kW)"; T "!"]) eq_refl)
    as [k' Hk'].
  exists k, k'. split; [exact Hk|]. split; [exact Hk'|].
  apply (@earlier_lines_win P1Packet_class0 Rules.kwh_current_consumed
           py_float PyNone (fun k => current_consumed (kwh k))
           [T "1-0:1.7.0(0001.51*kW)"; T "!"]
           [T "/KFM5KAIFA-METER"; T "1-0:1.7.0(0000.23*kW)"]);
    [| | | exact Hk | exact Hk'].
  - unfold line_rules. simpl. tauto.
  - repeat constructor; vm_compute; intuition discriminate.
  - vm_compute. discriminate.
Defined.

(** X14.  For every rule that reads line by line and whose default
    is [None] or the empty string, that is every such rule but the gas
    total, and every record the constructor returns on a text, the
    rule's field is the rule's default exactly when no line of the text
    matches the rule: a match never yields the default.  (The gas
    total is left out: its default is the integer 0, which a matching
    line reading zero equals as a number.) *)
Theorem default_iff_no_line :
  forall (cls : P1Packet_class) (r : re) (conv : pyval -> result pyval)
         (d : pyval) (f : keys -> pyval) (raw : str) (k : keys),
    In (r, conv, d, f) line_rules ->
    d <> PyInt 0 ->
    parses cls raw k ->
    (f k = d <-> no_line r raw = true).
Proof.
  intros cls r conv d f raw k Hin _ Hk.
  destruct (line_rule_local Hin) as [Ha [Hf _]].
  pose proof (parses_extracted Hk) as X.
  pose proof (@line_rules_extracted _ _ X _ _ _ _ Hin) as Xr.
  rewrite <- first_some_no_line, <- (@search_lines r Ha Hf).
  unfold extracted in Xr. destruct (search r raw) as [g|] eqn:Es.
  - split; [|discriminate]. intros Hd. exfalso.
    exact (@match_is_not_default r conv d f raw g (f k) Hin Es Xr Hd).
  - tauto.
Qed.

Lemma default_iff_no_line_witness :
  exists k, parses P1Packet_class0 (join [nl] telegram_bare) k /\
    (produced (high (kwh k)) = PyNone
     <-> no_line Rules.kwh_high_produced (join [nl] telegram_bare) = true).
Proof.
  destruct (parses_in_range P1Packet_class0 (join [nl] telegram_bare) eq_refl)
    as [k Hk].
  exists k. split; [exact Hk|].
  apply (@default_iff_no_line P1Packet_class0 Rules.kwh_high_produced
           py_float PyNone (fun k => produced (high (kwh k))));
    [| discriminate | exact Hk].
  unfold line_rules. simpl. tauto.
Defined.

(** ** From the serial lines to the packet's fields *)

Section Composition.

(** A round on an [/ISk5] header goes through and leaves the header
    alone in the buffer. *)
Lemma header_round (st : locals) (h : str) :
  is_header h = true ->
  exists st1, loop_body st (Line h) = Ok st1 /\
              lines st1 = [h] /\
              complete_packet st1 = complete_packet st.
Proof.
  intros Hh. unfold is_header in Hh.
  unfold loop_body, check_complete.
  set (st1 := buffer_line st h).
  assert (L : lines st1 = [h])
    by (unfold st1, buffer_line; rewrite Hh; reflexivity).
  assert (C : complete_packet st1 = complete_packet st)
    by (unfold st1, buffer_line; rewrite Hh; reflexivity).
  rewrite (@startswith_header_not_footer h Hh). cbn [andb].
  unfold check_runaway. rewrite L.
  destruct (Nat.ltb_spec (max_lines st1 * 2 + 2) (length [h])) as [H|H];
    [simpl in H; lia|].
  exists st1. auto.
Qed.

Lemma header_slash (h : str) :
  is_header h = true -> startswith (T "/") h = true.
Proof.
  unfold is_header. destruct h as [|c h]; simpl; [discriminate|].
  destruct (Ascii.eqb "/" c); [reflexivity|discriminate].
Qed.

Lemma first_slash_line_join (h : str) (used : list str) :
  ~ In nl h -> startswith (T "/") h = true ->
  first_slash_line (split_nl (join [nl] (h :: used))) = h.
Proof.
  intros Hnl Hs. destruct used as [|u used].
  - change (join [nl] [h]) with h. rewrite (@split_nl_line h Hnl).
    unfold first_slash_line. cbn [find]. now rewrite Hs.
  - rewrite join_cons by discriminate. rewrite (@split_nl_app h _ Hnl).
    unfold first_slash_line. cbn [find]. now rewrite Hs.
Qed.

End Composition.

(** X15.  When a call of [read_one_packet] that has not ended receives
    an [/ISk5] header without a newline, then lines that are no such
    headers, and returns a packet, [packet['header']] is that header:
    what came before it, an earlier header too, leaves no trace. *)
Theorem returned_header_is_last_header :
  forall (cls : P1Packet_class) (pre post : list str) (h : str)
         (st0 : locals) (p : P1Packet),
    read_loop locals0 (map Line pre) = Reading st0 ->
    is_header h = true -> ~ In nl h ->
    Forall (fun l => is_header l = false) post ->
    read_one_packet cls (map Line (pre ++ h :: post)) = Finished p ->
    P1Packet_getitem p (T "header") = inr (Leaf (PyStr h)).
Proof.
  intros cls pre post h st0 p Hpre Hh Hnl Hpost Hr.
  unfold read_one_packet in Hr.
  rewrite map_app in Hr.
  rewrite (@read_loop_reading_app _ _ _ _ Hpre) in Hr.
  destruct (@header_round st0 h Hh) as [st1 [E1 [L1 C1]]].
  pose proof (@reading_not_complete _ _ _ Hpre) as C0.
  cbn [map read_loop] in Hr. rewrite C0, E1 in Hr.
  destruct (read_loop st1 (map Line post)) as [st| |] eqn:El;
    try discriminate.
  destruct (@no_header_lines post Hpost st1 st (eq_trans C1 C0)
              (or_intror El)) as [used [rest [_ [Ls _]]]].
  destruct (P1Packet_init cls (DStr (join [nl] (lines st))))
    as [p'|e] eqn:Ei; [|discriminate].
  injection Hr as <-.
  destruct (init_ok cls (DStr (join [nl] (lines st))) Ei) as [_ [k [-> X]]].
  change (inr (Leaf (header k)) = inr (B := pyobj) (A := lookup_error) (Leaf (PyStr h))).
  do 2 f_equal.
  destruct X as [Xh _]. simpl raw_of in Xh.
  rewrite (@header_extracted _ _ Xh), Ls, L1.
  change ([h] ++ used) with (h :: used).
  now rewrite (@first_slash_line_join h used Hnl (@header_slash h Hh)).
Qed.

Lemma returned_header_is_last_header_witness :
  exists p,
    read_one_packet P1Packet_class0
      (map Line ([T "/ISk5\2ME382-1004"; T "1-0:1.8.1(0608.400*kWh)"]
                 ++ T "/ISk5\2MT382-1003"
                    :: repeat (T "0-0:96.14.0(0001)") 12 ++ [T "!"]))
    = Finished p /\
    P1Packet_getitem p (T "header") = inr (Leaf (PyStr (T "/ISk5\2MT382-1003"))).
Proof.
  destruct (init_extracted P1Packet_class0
              (DStr (join [nl] (T "/ISk5\2MT382-1003"
                                  :: repeat (T "0-0:96.14.0(0001)") 12
                                  ++ [T "!"]))) eq_refl)
    as [k [E _]].
  eexists. split.
  - unfold read_one_packet.
    change (read_loop locals0
              (map Line ([T "/ISk5\2ME382-1004"; T "1-0:1.8.1(0608.400*kWh)"]
                 ++ T "/ISk5\2MT382-1003"
                    :: repeat (T "0-0:96.14.0(0001)") 12 ++ [T "!"])))
      with (Finished {| lines := T "/ISk5\2MT382-1003"
                                   :: repeat (T "0-0:96.14.0(0001)") 12
                                   ++ [T "!"];
                        lines_read := 16; complete_packet := true;
                        max_lines := 13 |}).
    cbv beta iota. unfold lines at 1. rewrite E. reflexivity.
  - apply (@returned_header_is_last_header P1Packet_class0
             [T "/ISk5\2ME382-1004"; T "1-0:1.8.1(0608.400*kWh)"]
             (repeat (T "0-0:96.14.0(0001)") 12 ++ [T "!"])
             (T "/ISk5\2MT382-1003")
             {| lines := [T "/ISk5\2ME382-1004"; T "1-0:1.8.1(0608.400*kWh)"];
                lines_read := 2; complete_packet := false;
                max_lines := 19 |}).
    + reflexivity.
    + reflexivity.
    + vm_compute. intuition discriminate.
    + repeat (apply Forall_cons; [reflexivity|]). apply Forall_nil.
    + unfold read_one_packet.
      change (read_loop locals0
              (map Line ([T "/ISk5\2ME382-1004"; T "1-0:1.8.1(0608.400*kWh)"]
                 ++ T "/ISk5\2MT382-1003"
                    :: repeat (T "0-0:96.14.0(0001)") 12 ++ [T "!"])))
      with (Finished {| lines := T "/ISk5\2MT382-1003"
                                   :: repeat (T "0-0:96.14.0(0001)") 12
                                   ++ [T "!"];
                        lines_read := 16; complete_packet := true;
                        max_lines := 13 |}).
      cbv beta iota. unfold lines at 1. rewrite E. reflexivity.
Defined.

(** ** The equipment ids *)

Section EquipmentId.

(** A greedy run over a set first takes every character up to the
    first one outside the set. *)
Lemma plus_set_head (cs : charset) (x : str) :
  forall n b t g,
    x <> [] -> forallb (in_set cs) x = true ->
    match t with [] => True | c :: _ => in_set cs c = false end ->
    length (x ++ t) <= n ->
    exists b' tl, plus_loop (run (Chr cs)) n (Pos b (x ++ t)) g
                  = (Pos b' t, g) :: tl.
Proof.
  set (body := run (Chr cs)).
  assert (Hcons : forall b c s g,
             body (Pos b (c :: s)) g
             = if in_set cs c then [(Pos (Ascii.eqb c nl) s, g)] else [])
    by reflexivity.
  assert (Hnil : forall b g, body (Pos b []) g = []) by reflexivity.
  clearbody body.
  induction x as [|c x IH]; intros n b t g Nx Dx Ht Hn; [now elim Nx|].
  simpl in Dx. apply andb_true_iff in Dx. destruct Dx as [Dc Dx].
  destruct n as [|n]; [simpl in Hn; lia|].
  simpl plus_loop. simpl app. rewrite Hcons, Dc. simpl flat_map.
  rewrite app_nil_r.
  assert (P : progress (Pos b (c :: x ++ t)) (Pos (Ascii.eqb c nl) (x ++ t)) = true).
  { unfold progress; simpl. apply Nat.ltb_lt. lia. }
  rewrite P.
  destruct x as [|c2 x].
  - simpl app. exists (Ascii.eqb c nl), [].
    assert (E : plus_loop body n (Pos (Ascii.eqb c nl) t) g = []).
    { destruct n as [|n]; simpl; destruct t as [|c' t'];
        rewrite ?Hnil, ?Hcons; simpl; try reflexivity;
        rewrite Ht; reflexivity. }
    now rewrite E.
  - destruct (IH n (Ascii.eqb c nl) t g) as [b' [tl E]];
      [discriminate|exact Dx|exact Ht|simpl in *; lia|].
    rewrite E. simpl. eauto.
Qed.

Lemma not_in_forallb (c : ascii) (s : str) :
  ~ In c s -> forallb (in_set (NotLit c)) s = true.
Proof.
  induction s as [|a s IH]; intros H; [reflexivity|]. simpl.
  rewrite IH by (intros Hs; apply H; now right).
  destruct (Ascii.eqb c a) eqn:E; [|reflexivity].
  apply Ascii.eqb_eq in E; subst a. elim H. now left.
Qed.

Lemma run_Str_fail (s : str) :
  forall b x g, startswith s x = false -> run (Str s) (Pos b x) g = [].
Proof.
  induction s as [|c s IH]; intros b x g H; [discriminate|].
  destruct x as [|a x]; [reflexivity|].
  simpl in H. simpl. destruct (Ascii.eqb c a); simpl in *; [|reflexivity].
  rewrite app_nil_r. now apply IH.
Qed.

Lemma startswith_app_nl (p : str) :
  ~ In nl p -> forall l t, startswith p l = false ->
  startswith p (l ++ nl :: t) = false.
Proof.
  induction p as [|a p IH]; intros Hp l t H; [discriminate|].
  destruct l as [|b l]; simpl.
  - destruct (Ascii.eqb a nl) eqn:E; [|reflexivity].
    apply Ascii.eqb_eq in E; subst a. elim Hp. now left.
  - simpl in H. destruct (Ascii.eqb a b); [|reflexivity]. simpl in *.
    apply IH; [|exact H]. intros Hi. apply Hp. now right.
Qed.

Lemma search_from_head (r : re) (b : bool) (s : str) (q : pos) (g : cap)
      (tl : list (pos * cap)) :
  run r (Pos b s) None = (q, g) :: tl -> search_from r b s = Some g.
Proof.
  intros H. destruct s; simpl; rewrite H; reflexivity.
Qed.

Variable p : str.

(** The shape of the two rules. *)
Let eid : re :=
  Seq Bol (Seq (Str p) (Seq (Grp (Plus (Chr (NotLit ")"))))
                            (Seq (Str (T ")")) Eol))).

Lemma eid_off_line_start (s : str) : run eid (Pos false s) None = [].
Proof.
  reflexivity.
Qed.

Lemma eid_other_line (x : str) :
  startswith p x = false -> run eid (Pos true x) None = [].
Proof.
  intros H. unfold eid.
  change (run (Seq Bol ?r) (Pos true x) None) with (run r (Pos true x) None ++ []).
  rewrite app_nil_r.
  change (run (Seq (Str p) ?r) (Pos true x) None)
    with (flat_map (fun '(q, g') => run r q g') (run (Str p) (Pos true x) None)).
  now rewrite (@run_Str_fail p true x None H).
Qed.

Lemma eid_skip_rest (l t : str) :
  ~ In nl l ->
  search_from eid false (l ++ nl :: t) = search_from eid true t.
Proof.
  induction l as [|c l IH]; intros Hl.
  - simpl app. cbn [search_from]. rewrite eid_off_line_start.
    now rewrite Ascii.eqb_refl.
  - simpl app. cbn [search_from]. rewrite eid_off_line_start.
    destruct (Ascii.eqb c nl) eqn:E.
    + apply Ascii.eqb_eq in E; subst c. elim Hl. now left.
    + apply IH. intros Hi. apply Hl. now right.
Qed.

Lemma eid_skip_line (l t : str) :
  ~ In nl p -> ~ In nl l -> startswith p l = false ->
  search eid (l ++ nl :: t) = search eid t.
Proof.
  intros Hp Hl Hs. unfold search.
  pose proof (@eid_other_line (l ++ nl :: t)
                (@startswith_app_nl p Hp l t Hs)) as R.
  destruct l as [|c l].
  - simpl app in *. cbn [search_from]. rewrite R.
    now rewrite Ascii.eqb_refl.
  - simpl app in *. cbn [search_from]. rewrite R.
    destruct (Ascii.eqb c nl) eqn:E.
    + apply Ascii.eqb_eq in E; subst c. elim Hl. now left.
    + apply eid_skip_rest. intros Hi. apply Hl. now right.
Qed.

(** On its own line the rule reads up to the first closing bracket,
    when the line ends there. *)
Lemma eid_line (s tail : str) :
  s <> [] -> ~ In ")"%char s ->
  tail = [] \/ (exists t, tail = nl :: t) ->
  search eid (p ++ s ++ T ")" ++ tail) = Some (Some s).
Proof.
  intros Ns Hs Ht. unfold search.
  destruct (run_Str p true (s ++ T ")" ++ tail) None) as [b1 E1].
  destruct (@plus_set_head (NotLit ")") s (length (s ++ T ")" ++ tail)) b1
              (T ")" ++ tail) None Ns (@not_in_forallb _ s Hs) eq_refl (le_n _))
    as [b2 [t2 E2]].
  assert (E2' : run (Grp (Plus (Chr (NotLit ")"))))
                    (Pos b1 (s ++ T ")" ++ tail)) None
                = (Pos b2 (T ")" ++ tail), Some s)
                    :: map (fun '(q, _) =>
                              (q, Some (taken (Pos b1 (s ++ T ")" ++ tail)) q)))
                           t2).
  { change (run (Grp ?r) ?q ?g)
      with (map (fun '(q', _) => (q', Some (taken q q'))) (run r q g)).
    change (run (Plus ?r) (Pos b1 ?x) ?g)
      with (plus_loop (run r) (length x) (Pos b1 x) g).
    rewrite E2. cbn [map]. now rewrite taken_app. }
  destruct (run_Str (T ")") b2 tail (Some s)) as [b3 E3].
  assert (E4 : run Eol (Pos b3 tail) (Some s) = [(Pos b3 tail, Some s)]).
  { destruct Ht as [->|[t ->]]; reflexivity. }
  destruct (@head_seq _ _ _ _ _ _ _ _ _ _ E3 E4) as [t5 E5].
  destruct (@head_seq _ _ _ _ _ _ _ _ _ _ E2' E5) as [t6 E6].
  destruct (@head_seq _ _ _ _ _ _ _ _ _ _ E1 E6) as [t7 E7].
  assert (Ebol : run Bol (Pos true (p ++ s ++ T ")" ++ tail)) None
                 = [(Pos true (p ++ s ++ T ")" ++ tail), None)])
    by reflexivity.
  destruct (@head_seq _ _ _ _ _ _ _ _ _ _ Ebol E7) as [t8 E8].
  exact (@search_from_head eid true _ _ _ _ E8).
Qed.

Lemma join_tail (x : str) (post : list str) :
  exists tail, join [nl] (x :: post) = x ++ tail /\
               (tail = [] \/ exists t, tail = nl :: t).
Proof.
  destruct post as [|y post].
  - exists []. split; [now rewrite app_nil_r|now left].
  - exists (nl :: join [nl] (y :: post)). split; [reflexivity|].
    right. eauto.
Qed.

Lemma eid_lines (pre post : list str) (s : str) :
  ~ In nl p ->
  Forall (fun l => ~ In nl l /\ startswith p l = false) pre ->
  s <> [] -> ~ In ")"%char s ->
  search eid (join [nl] (pre ++ (p ++ s ++ T ")") :: post)) = Some (Some s).
Proof.
  intros Hp Hpre Ns Hs. induction Hpre as [|l pre [Hl Hsw] _ IH].
  - change ([] ++ ?y) with y.
    destruct (@join_tail (p ++ s ++ T ")") post) as [tail [Ej Ht]].
    refine (eq_trans (f_equal (search eid) Ej) _).
    rewrite <- !app_assoc. now apply eid_line.
  - change ((l :: pre) ++ ?y) with (l :: (pre ++ y)).
    rewrite join_cons by (destruct pre; discriminate).
    rewrite (@eid_skip_line l _ Hp Hl Hsw). exact IH.
Qed.

End EquipmentId.

Lemma extracted_found (conv : pyval -> result pyval) (r : re) (d : pyval)
      (raw : str) (v : pyval) (s : str) :
  search r raw = Some (Some s) -> extracted conv r d raw v ->
  conv (PyStr s) = Ok v.
Proof.
  unfold extracted. intros ->. intros [s' [[= <-] C]]. exact C.
Qed.

(** X17.  For each of the two equipment ids: when the lines before the
    first line that opens with the id's code have no newline and do not
    open with that code, and the code is followed by a non-empty text
    without a closing bracket, which may hold newlines, and then by a
    closing bracket that ends its line, the id in a record the
    constructor returns is that text, newlines included: an id line cut
    before its bracket runs on over the lines that follow. *)
Theorem equipment_id_up_to_bracket :
  forall (cls : P1Packet_class) (p : str) (r : re) (f : keys -> pyval)
         (pre post : list str) (s : str),
    In (p, r, f) eid_rules ->
    Forall (fun l => ~ In nl l /\ startswith p l = false) pre ->
    s <> [] -> ~ In ")"%char s ->
    forall k,
      parses cls (join [nl] (pre ++ (p ++ s ++ T ")") :: post)) k ->
      f k = PyStr s.
Proof.
  intros cls p r f pre post s Hin Hpre Ns Hs k Hk.
  pose proof (parses_extracted Hk) as X.
  destruct X as (_ & Xk & _ & _ & _ & _ & _ & _ & _ & _ & _ & Xg & _).
  unfold eid_rules in Hin. cbn [In] in Hin.
  destruct Hin as [Hin|[Hin|[]]];
    pose proof (f_equal (fun t => fst (fst t)) Hin) as Hp;
    pose proof (f_equal snd Hin) as Hf;
    cbn [fst snd] in Hp, Hf; subst p f; clear Hin.
  - assert (S : search Rules.kwh_eid
                  (join [nl] (pre ++ (T "0-0:96.1.1(" ++ s ++ T ")") :: post))
                = Some (Some s)).
    { apply (@eid_lines (T "0-0:96.1.1(") pre post s); auto.
      vm_compute. intuition discriminate. }
    pose proof (@extracted_found as_str _ _ _ _ s S Xk) as C.
    now injection C as <-.
  - assert (S : search Rules.gas_eid
                  (join [nl] (pre ++ (T "0-1:96.1.0(" ++ s ++ T ")") :: post))
                = Some (Some s)).
    { apply (@eid_lines (T "0-1:96.1.0(") pre post s); auto.
      vm_compute. intuition discriminate. }
    pose proof (@extracted_found as_str _ _ _ _ s S Xg) as C.
    now injection C as <-.
Qed.

Lemma equipment_id_up_to_bracket_witness :
  exists k,
    parses P1Packet_class0
      (join [nl] ([T "/ISk5\2ME382-1004"]
                  ++ (T "0-0:96.1.1("
                      ++ (T "4B41" ++ nl :: T "1-0:1.8.1(0608.400*kWh")
                      ++ T ")")
                     :: [T "!"])) k /\
    kwh_eid (kwh k) = PyStr (T "4B41" ++ nl :: T "1-0:1.8.1(0608.400*kWh").
Proof.
  destruct (parses_in_range P1Packet_class0
              (join [nl] ([T "/ISk5\2ME382-1004"]
                          ++ (T "0-0:96.1.1("
                              ++ (T "4B41" ++ nl :: T "1-0:1.8.1(0608.400*kWh")
                              ++ T ")")
                             :: [T "!"])) eq_refl) as [k Hk].
  exists k. split; [exact Hk|].
  apply (@equipment_id_up_to_bracket P1Packet_class0 (T "0-0:96.1.1(")
           Rules.kwh_eid (fun k => kwh_eid (kwh k))
           [T "/ISk5\2ME382-1004"] [T "!"]
           (T "4B41" ++ nl :: T "1-0:1.8.1(0608.400*kWh"));
    [| | | | exact Hk].
  - unfold eid_rules. simpl. tauto.
  - apply Forall_cons; [|apply Forall_nil].
    split; [vm_compute; intuition discriminate|reflexivity].
  - discriminate.
  - vm_compute. intuition discriminate.
Defined.

(** ** The exceptions of a call *)

Section Errors.

Lemma raised_split (evs : list read_event) :
  forall st0 e, read_loop st0 evs = Raised e ->
    exists evs1 ev evs2 st1,
      evs = evs1 ++ ev :: evs2 /\
      read_loop st0 evs1 = Reading st1 /\
      loop_body st1 ev = Raise e.
Proof.
  induction evs as [|ev evs IH]; intros st0 e; simpl;
    destruct (complete_packet st0) eqn:Hc; try discriminate.
  destruct (loop_body st0 ev) as [st1|e'] eqn:E.
  - intros H. destruct (IH _ _ H) as [evs1 [ev' [evs2 [st2 [-> [R L]]]]]].
    exists (ev :: evs1), ev', evs2, st2. split; [reflexivity|].
    split; [|exact L]. simpl. now rewrite Hc, E.
  - intros [= <-]. exists [], ev, evs, st0. split; [reflexivity|].
    split; [|exact E]. simpl. now rewrite Hc.
Qed.

(** The guard of line 90 trips one line beyond the bound. *)
Lemma runaway_length (st : locals) (line : str) (e : exn) :
  length (lines st) <= max_lines st * 2 + 2 ->
  loop_body st (Line line) = Raise e ->
  e = SmartMeterError (StuckInLoop (max_lines st * 2 + 3)).
Proof.
  intros Hb. unfold loop_body, check_runaway.
  destruct (check_complete_fields (buffer_line st line) line) as [El [Em _]].
  rewrite El, Em. unfold buffer_line.
  destruct (startswith (T "/ISk5") line); cbn [lines max_lines].
  - match goal with
    | |- context [?a <? ?b] => destruct (Nat.ltb_spec a b) as [H|H]
    end; [simpl in H; lia|discriminate].
  - rewrite length_app. cbn [length].
    destruct (Nat.ltb_spec (max_lines st * 2 + 2) (length (lines st) + 1))
      as [H|H]; [|discriminate].
    intros [= <-]. do 2 f_equal. lia.
Qed.

End Errors.

(** X18.  The exceptions that leave [read_one_packet] are the two
    [SmartMeterError]s of its loop, the one that wraps a failed read
    and the runaway one, whose message then reports 29, 41 or 73 lines,
    and the [ValueError] of the constructor, which line 99 calls
    outside the [try]: it escapes when the loop has ended on lines
    whose tariff capture is too long for [int]. *)
Theorem exceptions_of_a_call :
  forall (cls : P1Packet_class) (evs : list read_event) (e : exn),
    read_one_packet cls evs = Raised e ->
    e = SmartMeterError ReadFault \/
    (exists n, e = SmartMeterError (StuckInLoop n) /\
               (n = 29 \/ n = 41 \/ n = 73)) \/
    (e = ValueError /\
     exists st, read_loop locals0 evs = Finished st /\
                tariff_in_range (join [nl] (lines st)) = false).
Proof.
  intros cls evs e. unfold read_one_packet.
  destruct (read_loop locals0 evs) as [st|e'|st] eqn:R.
  - destruct (P1Packet_init cls (DStr (join [nl] (lines st))))
      as [p|e'] eqn:Ei; [discriminate|].
    intros [= <-]. apply init_raise_value in Ei. destruct Ei as [-> Hr].
    right. right. split; [reflexivity|]. now exists st.
  - intros [= <-].
    destruct (@raised_split evs locals0 e' R)
      as [evs1 [ev [evs2 [st1 [_ [R1 L]]]]]].
    destruct ev as [line|]; [|left; simpl in L; congruence].
    right. left.
    assert (Hb : length (lines st1) <= max_lines st1 * 2 + 2)
      by (apply (@reading_bound evs1 locals0 st1); [simpl; lia|exact R1]).
    destruct (@reading_inv evs1 [] locals0 st1 locals0_inv R1)
      as [ls [_ [_ [_ [_ Hm]]]]].
    rewrite (@runaway_length st1 line e' Hb L).
    eexists. split; [reflexivity|].
    destruct Hm as [-> | [-> | ->]]; simpl; auto.
  - discriminate.
Qed.

Lemma exceptions_of_a_call_witness :
  let evs := map Line (T "/ISk5\2MT382-1003" :: telegram_long_tariff
                         :: repeat (T "x") 11 ++ [T "!"]) in
  read_one_packet P1Packet_class0 evs = Raised ValueError /\
  (ValueError = SmartMeterError ReadFault \/
   (exists n, ValueError = SmartMeterError (StuckInLoop n) /\
              (n = 29 \/ n = 41 \/ n = 73)) \/
   (ValueError = ValueError /\
    exists st, read_loop locals0 evs = Finished st /\
               tariff_in_range (join [nl] (lines st)) = false)).
Proof.
  intros evs.
  assert (R : read_one_packet P1Packet_class0 evs = Raised ValueError)
    by (vm_compute; reflexivity).
  split; [exact R|].
  exact (exceptions_of_a_call P1Packet_class0 evs R).
Defined.
